(** * bus1 peer lifecycle and control plane (ipc/bus1/peer.c)

    A shallow embedding of [ipc/bus1/peer.c].  Kernel objects are records,
    pointers that may be NULL are [option]s, the return value of a call is
    the C [int] (0 or a negated errno) as a [Z], and every call into a
    collaborator whose effect is opaque at this layer (pool, queue,
    transaction engine, fd table) is recorded as an [event] of the trace the
    function returns next to its result.

    State is passed explicitly: a function takes the objects it works on
    and returns them updated.  What a call cannot decide by itself (the
    outcome of an allocation, of a copy from or to user space, of a call
    into the transaction engine) is read from an [env].  A function that
    holds a lock for its whole body is one atomic step; a function that
    takes locks one after the other is cut at those points where a claim
    depends on it.  Loops whose trip count is not the length of a list take
    a bound on their rounds and return [None] when it does not suffice;
    the lemmas [connect_new_total] and [recv_total] show that the bounds
    used here do. *)

From Stdlib Require Import ZArith Ascii Bool Lia.
From stdpp Require Import base option list gmap strings fin_maps.

Local Open Scope Z_scope.

(** ** Error numbers (include/uapi/asm-generic/errno*.h) *)

Definition EPERM : Z := 1.
Definition ENXIO : Z := 6.
Definition EAGAIN : Z := 11.
Definition ENOMEM : Z := 12.
Definition EFAULT : Z := 14.
Definition EINVAL : Z := 22.
Definition ENOTTY : Z := 25.
Definition EREMCHG : Z := 78.
Definition EMSGSIZE : Z := 90.
Definition EISCONN : Z := 106.
Definition ENOTCONN : Z := 107.
Definition ESHUTDOWN : Z := 108.
Definition EISNAM : Z := 120.

(** ** Machine integers *)

Definition u64_max : Z := 2 ^ 64 - 1.
Definition wrap64 (x : Z) : Z := x mod 2 ^ 64.
Definition is_u64 (x : Z) : Prop := 0 <= x <= u64_max.

(** [IS_ALIGNED(x, a)] of linux/kernel.h, for [a] a power of two. *)
Definition IS_ALIGNED (x a : Z) : bool := Z.land x (a - 1) =? 0.

(** Modelled from the spec: the platform page size ([PAGE_SIZE] comes from
    the architecture headers); pool sizes are multiples of it. *)
Definition PAGE_SIZE : Z := 4096.

(** Modelled from the spec: [BUS1_NAME_MAX_SIZE] of uapi/linux/bus1.h, the
    bus-defined maximum size of a name including its terminator ("typical
    256 bytes"). *)
Definition BUS1_NAME_MAX_SIZE : Z := 256.

(** Modelled from the spec: the CONNECT flag bits of uapi/linux/bus1.h;
    four distinct bits, PEER | MONITOR | QUERY | RESET. *)
Definition BUS1_CONNECT_FLAG_PEER : Z := 1.
Definition BUS1_CONNECT_FLAG_MONITOR : Z := 2.
Definition BUS1_CONNECT_FLAG_QUERY : Z := 4.
Definition BUS1_CONNECT_FLAG_RESET : Z := 8.

(** Modelled from the spec: the SEND flag bits, IGNORE_UNKNOWN |
    CONVEY_ERRORS, and the RECV flag bit PEEK. *)
Definition BUS1_SEND_FLAG_IGNORE_UNKNOWN : Z := 1.
Definition BUS1_SEND_FLAG_CONVEY_ERRORS : Z := 2.
Definition BUS1_RECV_FLAG_PEEK : Z := 1.

(** Modelled from the spec: [BUS1_OFFSET_INVALID] of uapi/linux/bus1.h, the
    pool offset that designates no slice. *)
Definition BUS1_OFFSET_INVALID : Z := u64_max.

(** Modelled from the spec: the SEND limits [BUS1_VEC_MAX] and
    [BUS1_FD_MAX]. *)
Definition BUS1_VEC_MAX : Z := 512.
Definition BUS1_FD_MAX : Z := 256.

(** [x & ~mask] on an unsigned word. *)
Definition clear_bits (x mask : Z) : Z := Z.land x (Z.lnot mask).
Definition has_flag (x flag : Z) : bool := negb (Z.land x flag =? 0).

(** ** C strings

    A name is the sequence of its non-zero bytes; a buffer is a list of
    bytes of known length (a [nulstr] when it holds zero-terminated names
    back to back). *)

Definition cstring := list ascii.

Definition is_nul (c : ascii) : bool := Ascii.eqb c Ascii.zero.

(** [strnlen(s, maxlen)] with [maxlen] the length of the buffer [s]. *)
Fixpoint strnlen (s : list ascii) : nat :=
  match s with
  | [] => O
  | c :: s' => if is_nul c then O else S (strnlen s')
  end.

(** [strcmp(a, b) == 0] *)
Definition streq (a b : cstring) : bool := bool_decide (a = b).

(** ** The active reference (active.h) *)

(** Modelled from the spec: the drain-able reference counter of
    active.h, which is not part of this file.  Its life cycle is
    NEW -> ACTIVE -> DEACTIVATING -> DEAD.  Calls are modelled as atomic
    steps, so the in-flight count is zero whenever a step starts. *)
Inductive bus1_active : Type :=
| ACTIVE_NEW
| ACTIVE_ACTIVE
| ACTIVE_DEACTIVATING
| ACTIVE_DEAD.

(** Modelled from the spec: classification of an active reference. *)
Definition bus1_active_is_new (a : bus1_active) : bool :=
  match a with ACTIVE_NEW => true | _ => false end.

(** Modelled from the spec: classification of an active reference. *)
Definition bus1_active_is_active (a : bus1_active) : bool :=
  match a with ACTIVE_ACTIVE => true | _ => false end.

(** Modelled from the spec: classification of an active reference. *)
Definition bus1_active_is_deactivated (a : bus1_active) : bool :=
  match a with ACTIVE_DEACTIVATING | ACTIVE_DEAD => true | _ => false end.

(** Modelled from the spec: [activate] is NEW -> ACTIVE and irreversible. *)
Definition bus1_active_activate (a : bus1_active) : bus1_active :=
  match a with ACTIVE_NEW => ACTIVE_ACTIVE | _ => a end.

(** Modelled from the spec: [deactivate] is idempotent and makes every later
    acquire fail; a reference that was never activated is deactivated as
    well (DISCONNECT "behaves like the last close()"). *)
Definition bus1_active_deactivate (a : bus1_active) : bus1_active :=
  match a with
  | ACTIVE_NEW | ACTIVE_ACTIVE => ACTIVE_DEACTIVATING
  | _ => a
  end.

(** Modelled from the spec: [drain] blocks until the in-flight count is
    zero, which it is at every step boundary. *)
Definition bus1_active_drain (a : bus1_active) : bus1_active := a.

(** Modelled from the spec: [acquire] succeeds only in ACTIVE. *)
Definition bus1_active_acquire (a : bus1_active) : bool :=
  bus1_active_is_active a.

(** Modelled from the spec: [cleanup] is once-only; the first cleanup after
    deactivation and drain invokes the callback on the user data, moves to
    DEAD and returns true, every other call returns false and leaves
    everything alone. *)
Definition bus1_active_cleanup {S : Type} (a : bus1_active)
    (cleanup : S -> S) (userdata : S) : bool * bus1_active * S :=
  match a with
  | ACTIVE_DEACTIVATING => (true, ACTIVE_DEAD, cleanup userdata)
  | _ => (false, a, userdata)
  end.

(** ** Kernel objects *)

(** Addresses of heap objects; two objects are the same object exactly when
    their addresses agree. *)
Definition peer_id := nat.
Definition addr := nat.
Definition kuid_t := Z.

(** A pool slice: an offset/length pair inside the pool. *)
Record bus1_pool_slice : Type := mk_slice {
  slice_offset : Z;
  slice_size : Z
}.

(** The part of [struct bus1_pool] this file reads: its size, and the
    offsets of the slices currently published to user space. *)
Record bus1_pool : Type := mk_pool {
  pool_size : Z;
  pool_published : list Z
}.

Definition BUS1_POOL_NULL : bus1_pool := mk_pool 0 [].

(** [struct bus1_message], reached from its queue node by [container_of]. *)
Record bus1_message : Type := mk_message {
  msg_addr : addr;
  msg_slice : bus1_pool_slice;
  msg_n_files : Z;
  msg_files : list Z
}.

(** [struct bus1_queue_node]: the type tag, the commit state, whether its
    [rb] member is linked, and the object that embeds it. *)
Record bus1_queue_node : Type := mk_node {
  node_is_message : bool;
  node_committed : bool;
  node_rb_linked : bool;
  node_container : bus1_message
}.

(** The shape of an [rb_root]: colours play no role in what this file
    does with the tree. *)
Inductive rb_tree (A : Type) : Type :=
| rb_nil : rb_tree A
| rb_node : rb_tree A -> A -> rb_tree A -> rb_tree A.
Arguments rb_nil {A}.
Arguments rb_node {A} _ _ _.

(** The order of [rbtree_postorder_for_each_entry_safe]. *)
Fixpoint rb_postorder {A : Type} (t : rb_tree A) : list A :=
  match t with
  | rb_nil => []
  | rb_node l x r => rb_postorder l ++ rb_postorder r ++ [x]
  end.

(** The leftmost node, first in the order of the keys. *)
Fixpoint rb_first {A : Type} (t : rb_tree A) : option A :=
  match t with
  | rb_nil => None
  | rb_node rb_nil x _ => Some x
  | rb_node l _ _ => rb_first l
  end.

(** The tree without its leftmost node. *)
Fixpoint rb_erase_first {A : Type} (t : rb_tree A) : rb_tree A :=
  match t with
  | rb_nil => rb_nil
  | rb_node rb_nil _ r => r
  | rb_node l x r => rb_node (rb_erase_first l) x r
  end.

Record bus1_queue : Type := mk_queue {
  queue_messages : rb_tree bus1_queue_node
}.

(** [struct bus1_peer_info]; the lock, the seqcount and the quota are
    collaborators and carry no state of their own here. *)
Record bus1_peer_info : Type := mk_peer_info {
  info_user : option kuid_t;
  info_pool : bus1_pool;
  info_queue : bus1_queue;
  info_map_handles_by_id : list Z;
  info_map_handles_by_node : list Z;
  info_handle_ids : Z
}.

(** [struct bus1_peer_name]: [pn_linked] is [!RB_EMPTY_NODE(&peer_name->rb)];
    the [next] pointer is the tail of the list the name sits in. *)
Record bus1_peer_name : Type := mk_peer_name {
  pn_peer : peer_id;
  pn_linked : bool;
  pn_name : cstring
}.

(** [struct bus1_peer]; [peer_names] is the singly linked list
    [peer->names], [peer_link_domain] says whether [link_domain] is on a
    list. *)
Record bus1_peer : Type := mk_peer {
  peer_active : bus1_active;
  peer_info : option bus1_peer_info;
  peer_names : list bus1_peer_name;
  peer_link_domain : bool
}.

(** The part of [struct bus1_domain] this file touches: the name index
    (an rb-tree ordered by [strcmp], hence a finite map from names to the
    peer of the node stored under that name), the peer list and the two
    counters, which are [size_t]. *)
Record bus1_domain : Type := mk_domain {
  domain_map_names : gmap cstring peer_id;
  domain_n_names : Z;
  domain_list_peers : list peer_id;
  domain_n_peers : Z
}.

(** Calls into collaborators, in program order. *)
Inductive event : Type :=
| ev_warn
| ev_mutex_lock
| ev_mutex_unlock
| ev_rb_clear_node (a : addr)
| ev_message_deallocate (a : addr)
| ev_message_free (a : addr)
| ev_queue_post_flush
| ev_pool_flush
| ev_queue_destroy
| ev_pool_destroy
| ev_quota_destroy
| ev_kfree_info
| ev_name_free (name : cstring)
| ev_user_release (uid : kuid_t)
| ev_cleanup (peer : peer_id)
| ev_queue_remove (a : addr)
| ev_pool_publish (offset : Z)
| ev_pool_write (offset : Z) (fds : list Z)
| ev_get_unused_fd (fd : Z)
| ev_put_unused_fd (fd : Z)
| ev_fd_install (fd : Z) (file : Z)
| ev_put_user (value : Z)
| ev_transaction_commit_for_id (destination : Z)
| ev_transaction_instantiate_for_id (destination : Z)
| ev_transaction_commit
| ev_transaction_free (do_free : bool).

(** ** Pool, queue and message helpers (pool.h, queue.h, message.h) *)

(** Modelled from the spec: a queue node that is a message. *)
Definition bus1_queue_node_is_message (node : bus1_queue_node) : bool :=
  node_is_message node.

(** Modelled from the spec: a node is committed or still staged. *)
Definition bus1_queue_node_is_committed (node : bus1_queue_node) : bool :=
  node_committed node.

Definition bus1_message_from_node (node : bus1_queue_node) : bus1_message :=
  node_container node.

(** Modelled from the spec: the first queued message, if the queue has a
    committed entry at its front. *)
Definition bus1_queue_peek (queue : bus1_queue) : option bus1_queue_node :=
  match rb_first (queue_messages queue) with
  | Some node => if bus1_queue_node_is_committed node then Some node else None
  | None => None
  end.

(** Modelled from the spec: dequeue the front entry. *)
Definition bus1_queue_remove (queue : bus1_queue) : bus1_queue :=
  mk_queue (rb_erase_first (queue_messages queue)).

(** Modelled from the spec: after a flush the index is empty; the nodes
    were unlinked by the caller. *)
Definition bus1_queue_post_flush (queue : bus1_queue) : bus1_queue :=
  mk_queue rb_nil.

(** Modelled from the spec: publishing a slice hands its offset and size to
    user space. *)
Definition bus1_pool_publish (pool : bus1_pool) (slice : bus1_pool_slice)
    : bus1_pool * Z * Z :=
  (mk_pool (pool_size pool) (slice_offset slice :: pool_published pool),
   slice_offset slice, slice_size slice).

(** Modelled from the spec: flushing the pool releases all slices. *)
Definition bus1_pool_flush (pool : bus1_pool) : bus1_pool :=
  mk_pool (pool_size pool) [].

(** ** Outcomes of the environment

    What a call cannot decide by itself: whether an allocation succeeds and
    what the collaborators return.  A result [r < 0] stands for
    [ERR_PTR(r)]. *)
Record env : Type := mk_env {
  (* kmalloc of the peer info, bus1_pool_create_for_peer,
     bus1_user_acquire_by_uid, kmalloc of a name *)
  env_kmalloc_info : bool;
  env_pool_create : Z;
  env_user_acquire : Z;
  env_kmalloc_name : cstring -> bool;
  (* whether the k-th put_user of the call succeeds *)
  env_put_user : nat -> bool;
  (* how often read_seqcount_retry reports a concurrent writer *)
  env_seq_retry : nat;
  (* width of unsigned long *)
  env_long_bits : Z;
  (* bus1_transaction_new_from_user, and whether it used the caller's
     buffer *)
  env_transaction_new : Z;
  env_transaction_in_buf : bool;
  (* get_user of the i-th destination id; None is a fault *)
  env_get_user : nat -> option Z;
  (* bus1_transaction_commit_for_id and bus1_transaction_instantiate_for_id
     of the i-th destination *)
  env_commit_for_id : Z -> Z;
  env_instantiate_for_id : nat -> Z -> Z;
  (* krealloc of the fd array, the k-th get_unused_fd_flags,
     bus1_pool_write_kvec *)
  env_krealloc : bool;
  env_get_unused_fd : nat -> Z;
  env_pool_write : Z
}.

(** The parameter block of CONNECT as [bus1_import_dynamic_ioctl] returns
    it: the header fields and the trailing bytes that follow the header. *)
Record bus1_cmd_connect : Type := mk_cmd_connect {
  connect_flags : Z;
  connect_pool_size : Z;
  connect_names : list ascii
}.

(** The number of bytes that follow the header: [size] minus the header size. *)
Definition connect_names_len (param : bus1_cmd_connect) : nat :=
  length (connect_names param).

(** ** peer.c: peer info *)

Definition info_reset_node (node : bus1_queue_node)
    : bus1_queue_node * list event :=
  if negb (bus1_queue_node_is_message node) then (node, [ev_warn])
  else
    let message := bus1_message_from_node node in
    let node' := mk_node (node_is_message node) (node_committed node) false
                         (node_container node) in
    if bus1_queue_node_is_committed node
    then (node', [ev_rb_clear_node (msg_addr message);
                  ev_message_deallocate (msg_addr message);
                  ev_message_free (msg_addr message)])
    else (node', [ev_rb_clear_node (msg_addr message)]).

Fixpoint rb_map {A B : Type} (f : A -> B) (t : rb_tree A) : rb_tree B :=
  match t with
  | rb_nil => rb_nil
  | rb_node l x r => rb_node (rb_map f l) (f x) (rb_map f r)
  end.

(** The events of the loop of [bus1_peer_info_reset], node after node. *)
Definition info_reset_loop (nodes : list bus1_queue_node) : list event :=
  concat (map (fun node => snd (info_reset_node node)) nodes).

Definition bus1_peer_info_reset (peer_info : bus1_peer_info)
    : bus1_peer_info * list event :=
  let messages := queue_messages (info_queue peer_info) in
  let evs := info_reset_loop (rb_postorder messages) in
  let queue := mk_queue (rb_map (fun node => fst (info_reset_node node))
                                messages) in
  let queue := bus1_queue_post_flush queue in
  let pool := bus1_pool_flush (info_pool peer_info) in
  (mk_peer_info (info_user peer_info) pool queue
                (info_map_handles_by_id peer_info)
                (info_map_handles_by_node peer_info)
                (info_handle_ids peer_info),
   [ev_mutex_lock] ++ evs ++ [ev_queue_post_flush; ev_pool_flush;
                              ev_mutex_unlock]).

Definition bus1_peer_info_free (peer_info : option bus1_peer_info)
    : list event :=
  match peer_info with
  | None => []
  | Some peer_info =>
    match info_user peer_info with Some _ => [ev_warn] | None => [] end
    ++ snd (bus1_peer_info_reset peer_info)
    ++ [ev_queue_destroy; ev_pool_destroy; ev_quota_destroy; ev_kfree_info]
  end.

Definition bus1_peer_info_new (e : env) (param : bus1_cmd_connect)
    : (Z + bus1_peer_info) * list event :=
  if (connect_pool_size param =? 0)
     || negb (IS_ALIGNED (connect_pool_size param) PAGE_SIZE)
  then (inl (- EINVAL), [])
  else if negb (env_kmalloc_info e) then (inl (- ENOMEM), [])
  else
    let peer_info := mk_peer_info None BUS1_POOL_NULL (mk_queue rb_nil)
                                  [] [] 0 in
    let r := env_pool_create e in
    if r <? 0 then (inl r, bus1_peer_info_free (Some peer_info))
    else (inr (mk_peer_info None (mk_pool (connect_pool_size param) [])
                            (mk_queue rb_nil) [] [] 0), []).

(** ** peer.c: peer names *)

(** [name] is the string at the pointer, up to its terminator.  The
    callers pass the peer they work on, so [WARN_ON(!peer)] stays silent. *)
Definition bus1_peer_name_new (e : env) (name : cstring) (peer : peer_id)
    : Z + bus1_peer_name :=
  let namelen := Z.of_nat (length name) + 1 in
  if (namelen <? 2) || (BUS1_NAME_MAX_SIZE <? namelen) then inl (- EMSGSIZE)
  else if negb (env_kmalloc_name e name) then inl (- ENOMEM)
  else inr (mk_peer_name peer false name).

Definition bus1_peer_name_free (peer_name : bus1_peer_name) : list event :=
  (if pn_linked peer_name then [ev_warn] else [])
  ++ [ev_name_free (pn_name peer_name)].

Definition bus1_peer_name_add (peer_name : bus1_peer_name)
    (domain : bus1_domain) : Z * bus1_peer_name * bus1_domain :=
  if pn_linked peer_name then (- EINVAL, peer_name, domain)
  else
    match domain_map_names domain !! pn_name peer_name with
    | Some _ => (- EISNAM, peer_name, domain)
    | None =>
      (0,
       mk_peer_name (pn_peer peer_name) true (pn_name peer_name),
       mk_domain (<[pn_name peer_name := pn_peer peer_name]>
                    (domain_map_names domain))
                 (wrap64 (domain_n_names domain + 1))
                 (domain_list_peers domain)
                 (domain_n_peers domain))
    end.

Definition bus1_peer_name_remove (peer_name : bus1_peer_name)
    (domain : bus1_domain) : bus1_peer_name * bus1_domain :=
  if negb (pn_linked peer_name) then (peer_name, domain)
  else
    (mk_peer_name (pn_peer peer_name) false (pn_name peer_name),
     mk_domain (delete (pn_name peer_name) (domain_map_names domain))
               (wrap64 (domain_n_names domain - 1))
               (domain_list_peers domain)
               (domain_n_peers domain)).

(** ** peer.c: peer handles *)

Definition bus1_peer_new : bus1_peer :=
  mk_peer ACTIVE_NEW None [] false.

(** The loop of [bus1_peer_cleanup] over [peer->names]. *)
Fixpoint cleanup_names (names : list bus1_peer_name) (domain : bus1_domain)
    : bus1_domain * list event :=
  match names with
  | [] => (domain, [])
  | peer_name :: next =>
    let '(peer_name', domain') := bus1_peer_name_remove peer_name domain in
    let '(domain'', evs) := cleanup_names next domain' in
    (domain'', bus1_peer_name_free peer_name' ++ evs)
  end.

(** The cleanup callback; the user data is the domain, and the peer that
    embeds the active reference travels with it. *)
Definition bus1_peer_cleanup (self : peer_id)
    (st : bus1_peer * bus1_domain * list event)
    : bus1_peer * bus1_domain * list event :=
  let '(peer, domain, evs) := st in
  match peer_info peer with
  | None => (peer, domain, evs)
  | Some peer_info =>
    let '(domain', evs') := cleanup_names (peer_names peer) domain in
    let peer_info' :=
      mk_peer_info None (info_pool peer_info) (info_queue peer_info)
                   (info_map_handles_by_id peer_info)
                   (info_map_handles_by_node peer_info)
                   (info_handle_ids peer_info) in
    let ev_user := match info_user peer_info with
                   | Some uid => [ev_user_release uid]
                   | None => []
                   end in
    (mk_peer (peer_active peer) (Some peer_info') [] false,
     mk_domain (domain_map_names domain') (domain_n_names domain')
               (filter (fun p => p <> self) (domain_list_peers domain'))
               (wrap64 (domain_n_peers domain' - 1)),
     evs ++ [ev_cleanup self] ++ evs' ++ ev_user)
  end.

(** ** peer.c: teardown *)

(** The part of [bus1_peer_teardown] that runs under the peer lock, before
    the domain lock is taken. *)
Definition teardown_deactivate (peer : bus1_peer) : bus1_peer :=
  let active := bus1_active_deactivate (peer_active peer) in
  let active := bus1_active_drain active in
  mk_peer active (peer_info peer) (peer_names peer) (peer_link_domain peer).

(** [bus1_active_cleanup(&peer->active, NULL, bus1_peer_cleanup, domain)]:
    the callback finds the peer through [container_of]. *)
Definition peer_active_cleanup (self : peer_id) (peer : bus1_peer)
    (domain : bus1_domain) : bool * bus1_peer * bus1_domain * list event :=
  let '(fired, active, (peer', domain', evs)) :=
    bus1_active_cleanup (peer_active peer) (bus1_peer_cleanup self)
                        (peer, domain, []) in
  (fired,
   mk_peer active (peer_info peer') (peer_names peer')
           (peer_link_domain peer'),
   domain', evs).

(** The part of [bus1_peer_teardown] that runs under the domain lock and
    the seqcount, and what follows it. *)
Definition teardown_locked (self : peer_id) (peer : bus1_peer)
    (domain : bus1_domain) : Z * bus1_peer * bus1_domain * list event :=
  let '(fired, peer', domain', evs) := peer_active_cleanup self peer domain in
  if fired then
    let peer_info := peer_info peer' in
    let peer'' := mk_peer (peer_active peer') None (peer_names peer')
                          (peer_link_domain peer') in
    (0, peer'', domain', evs ++ bus1_peer_info_free peer_info)
  else (- ESHUTDOWN, peer', domain', evs).

Definition bus1_peer_teardown (self : peer_id) (peer : bus1_peer)
    (domain : bus1_domain) : Z * bus1_peer * bus1_domain * list event :=
  teardown_locked self (teardown_deactivate peer) domain.

Definition bus1_peer_teardown_domain (self : peer_id) (peer : bus1_peer)
    (domain : bus1_domain) : bus1_peer * bus1_domain * list event :=
  let '(fired, peer', domain', evs) := peer_active_cleanup self peer domain in
  if fired then
    let peer_info := peer_info peer' in
    let peer'' := mk_peer (peer_active peer') None (peer_names peer')
                          (peer_link_domain peer') in
    (peer'', domain', evs ++ bus1_peer_info_free peer_info)
  else (peer', domain', evs).

(** ** peer.c: CONNECT *)

(** The loop of [bus1_peer_name_check]; [n_names] counts the names seen. *)
Fixpoint name_check_loop (names : list bus1_peer_name) (n_names : Z)
    (name : cstring) : Z :=
  match names with
  | [] => - EREMCHG
  | peer_name :: next =>
    let n_names := n_names + 1 in
    if streq name (pn_name peer_name)
    then match next with _ :: _ => 0 | [] => n_names end
    else name_check_loop next n_names name
  end.

Definition bus1_peer_name_check (peer : bus1_peer) (name : cstring) : Z :=
  name_check_loop (peer_names peer) 0 name.

(** The loop of [bus1_peer_names_check]: [names] is what is left of the
    buffer, so [names_len] is its length.  Every round consumes at least
    one byte; [fuel] bounds the number of rounds. *)
Fixpoint names_check_loop (fuel : nat) (peer : bus1_peer)
    (names : list ascii) (n_names n_names_old : Z) : option Z :=
  match names with
  | [] => Some (if negb (n_names =? n_names_old) then - EREMCHG else 0)
  | _ :: _ =>
    match fuel with
    | O => None
    | S fuel' =>
      let n := strnlen names in
      if (n =? 0)%nat || (n =? length names)%nat then Some (- EMSGSIZE)
      else
        let r := bus1_peer_name_check peer (take n names) in
        if r <? 0 then Some r
        else
          let n_names_old := if 0 <? r then r else n_names_old in
          names_check_loop fuel' peer (drop (S n) names)
                           (n_names + 1) n_names_old
    end
  end.

Definition bus1_peer_names_check (peer : bus1_peer) (names : list ascii)
    : option Z :=
  match names, peer_names peer with
  | [], _ :: _ => Some (- EREMCHG)
  | _, _ => names_check_loop (length names) peer names 0 0
  end.

(** The loop of [bus1_peer_connect_new] that allocates the names; a
    result [r < 0] is the [goto error] with the names built so far. *)
Fixpoint connect_alloc_names (fuel : nat) (e : env) (peer : peer_id)
    (name : list ascii) (names : list bus1_peer_name)
    : option (Z * list bus1_peer_name) :=
  match name with
  | [] => Some (0, names)
  | _ :: _ =>
    match fuel with
    | O => None
    | S fuel' =>
      let n := strnlen name in
      if (n =? 0)%nat || (n =? length name)%nat
      then Some (- EMSGSIZE, names)
      else
        match bus1_peer_name_new e (take n name) peer with
        | inl r => Some (r, names)
        | inr peer_name =>
          connect_alloc_names fuel' e peer (drop (S n) name)
                              (peer_name :: names)
        end
    end
  end.

(** The loop that links the names into the index; it stops at the first
    failure. *)
Fixpoint connect_link_names (names : list bus1_peer_name)
    (domain : bus1_domain) : Z * list bus1_peer_name * bus1_domain :=
  match names with
  | [] => (0, [], domain)
  | peer_name :: next =>
    let '(r, peer_name', domain') := bus1_peer_name_add peer_name domain in
    if r <? 0 then (r, peer_name' :: next, domain')
    else
      let '(r', next', domain'') := connect_link_names next domain' in
      (r', peer_name' :: next', domain'')
  end.

(** The loop at [error_unlock]. *)
Fixpoint connect_unlink_names (names : list bus1_peer_name)
    (domain : bus1_domain) : list bus1_peer_name * bus1_domain :=
  match names with
  | [] => ([], domain)
  | peer_name :: next =>
    let '(peer_name', domain') := bus1_peer_name_remove peer_name domain in
    let '(next', domain'') := connect_unlink_names next domain' in
    (peer_name' :: next', domain'')
  end.

(** The tail of [bus1_peer_connect_new] at [error]. *)
Definition connect_error (names : list bus1_peer_name)
    (peer_info : bus1_peer_info) : list event :=
  concat (map bus1_peer_name_free names)
  ++ match info_user peer_info with
     | Some uid => [ev_user_release uid]
     | None => []
     end
  ++ bus1_peer_info_free
       (Some (mk_peer_info None (info_pool peer_info) (info_queue peer_info)
                           (info_map_handles_by_id peer_info)
                           (info_map_handles_by_node peer_info)
                           (info_handle_ids peer_info))).

Definition with_user (peer_info : bus1_peer_info) (user : option kuid_t)
    : bus1_peer_info :=
  mk_peer_info user (info_pool peer_info) (info_queue peer_info)
               (info_map_handles_by_id peer_info)
               (info_map_handles_by_node peer_info)
               (info_handle_ids peer_info).

Definition bus1_peer_connect_new (e : env) (self : peer_id)
    (peer : bus1_peer) (domain : bus1_domain) (uid : kuid_t)
    (param : bus1_cmd_connect)
    : option (Z * bus1_peer * bus1_domain * list event) :=
  if negb (bus1_active_is_new (peer_active peer)) then
    match peer_info peer with
    | None => Some (- ESHUTDOWN, peer, domain, [ev_warn])
    | Some peer_info =>
      if negb (connect_pool_size param =? pool_size (info_pool peer_info))
      then Some (- EREMCHG, peer, domain, [])
      else
        r ← bus1_peer_names_check peer (connect_names param);
        if r <? 0 then Some (r, peer, domain, [])
        else Some (- EISCONN, peer, domain, [])
    end
  else
    match peer_info peer with
    | Some _ => Some (- EISCONN, peer, domain, [ev_warn])
    | None =>
      match bus1_peer_info_new e param with
      | (inl r, evs) => Some (r, peer, domain, evs)
      | (inr peer_info, evs) =>
        if env_user_acquire e <? 0
        then Some (env_user_acquire e, peer, domain,
                   evs ++ connect_error [] peer_info)
        else
          let peer_info := with_user peer_info (Some uid) in
          '(r, names) ← connect_alloc_names (connect_names_len param) e self
                                            (connect_names param) [];
          if r <? 0
          then Some (r, peer, domain, evs ++ connect_error names peer_info)
          else
            let '(r, names', domain') := connect_link_names names domain in
            if r <? 0 then
              let '(names'', domain'') :=
                connect_unlink_names names' domain' in
              Some (r, peer, domain'',
                    evs ++ connect_error names'' peer_info)
            else
              Some (0,
                    mk_peer (bus1_active_activate (peer_active peer))
                            (Some peer_info) names' true,
                    mk_domain (domain_map_names domain')
                              (domain_n_names domain')
                              (self :: domain_list_peers domain')
                              (wrap64 (domain_n_peers domain' + 1)),
                    evs)
      end
    end.

Definition with_pool_size (param : bus1_cmd_connect) (pool_size : Z)
    : bus1_cmd_connect :=
  mk_cmd_connect (connect_flags param) pool_size (connect_names param).

Definition with_info (peer : bus1_peer) (peer_info : option bus1_peer_info)
    : bus1_peer :=
  mk_peer (peer_active peer) peer_info (peer_names peer)
          (peer_link_domain peer).

Definition bus1_peer_connect_reset (peer : bus1_peer)
    (param : bus1_cmd_connect)
    : Z * bus1_peer * bus1_cmd_connect * list event :=
  if bus1_active_is_new (peer_active peer)
  then (- ENOTCONN, peer, param, [])
  else if negb (connect_pool_size param =? 0)
          || (0 <? connect_names_len param)%nat
  then (- EINVAL, peer, param, [])
  else
    match peer_info peer with
    | None => (- ESHUTDOWN, peer, param, [ev_warn])
    | Some peer_info =>
      let param := with_pool_size param (pool_size (info_pool peer_info)) in
      let '(peer_info', evs) := bus1_peer_info_reset peer_info in
      (0, with_info peer (Some peer_info'), param, evs)
    end.

Definition bus1_peer_connect_query (peer : bus1_peer)
    (param : bus1_cmd_connect)
    : Z * bus1_peer * bus1_cmd_connect * list event :=
  if bus1_active_is_new (peer_active peer)
  then (- ENOTCONN, peer, param, [])
  else
    match peer_info peer with
    | None => (- ESHUTDOWN, peer, param, [ev_warn])
    | Some peer_info =>
      (0, peer, with_pool_size param (pool_size (info_pool peer_info)), [])
    end.

(** What [bus1_peer_ioctl_connect] reads of [struct file]. *)
Record file : Type := mk_file {
  file_cap_sys_admin : bool;
  file_uid : kuid_t
}.

Definition connect_known_flags : Z :=
  Z.lor (Z.lor BUS1_CONNECT_FLAG_PEER BUS1_CONNECT_FLAG_MONITOR)
        (Z.lor BUS1_CONNECT_FLAG_QUERY BUS1_CONNECT_FLAG_RESET).

(** [!!(flags & flag)] *)
Definition flag_count (flags flag : Z) : Z :=
  if has_flag flags flag then 1 else 0.

(** [imported] is the result of [bus1_import_dynamic_ioctl]. *)
Definition bus1_peer_ioctl_connect (e : env) (self : peer_id)
    (peer : bus1_peer) (domain : bus1_domain) (f : file)
    (imported : Z + bus1_cmd_connect)
    : option (Z * bus1_peer * bus1_domain * list event) :=
  match imported with
  | inl r => Some (r, peer, domain, [])
  | inr param =>
    if negb (clear_bits (connect_flags param) connect_known_flags =? 0)
    then Some (- EINVAL, peer, domain, [])
    else if 1 <? flag_count (connect_flags param) BUS1_CONNECT_FLAG_PEER
                 + flag_count (connect_flags param) BUS1_CONNECT_FLAG_MONITOR
                 + flag_count (connect_flags param) BUS1_CONNECT_FLAG_RESET
    then Some (- EINVAL, peer, domain, [])
    else if negb (file_cap_sys_admin f)
    then Some (- EPERM, peer, domain, [])
    else
      '(r, peer', domain', param', evs) ←
        (if bus1_active_is_deactivated (peer_active peer)
         then Some (- ESHUTDOWN, peer, domain, param, [])
         else if has_flag (connect_flags param)
                   (Z.lor BUS1_CONNECT_FLAG_PEER BUS1_CONNECT_FLAG_MONITOR)
         then
           '(r, peer', domain', evs) ←
             bus1_peer_connect_new e self peer domain (file_uid f) param;
           Some (r, peer', domain', param, evs)
         else if has_flag (connect_flags param) BUS1_CONNECT_FLAG_RESET
         then
           let '(r, peer', param', evs) :=
             bus1_peer_connect_reset peer param in
           Some (r, peer', domain, param', evs)
         else if has_flag (connect_flags param) BUS1_CONNECT_FLAG_QUERY
         then
           let '(r, peer', param', evs) :=
             bus1_peer_connect_query peer param in
           Some (r, peer', domain, param', evs)
         else Some (- EINVAL, peer, domain, param, []));
      if (0 <=? r) && has_flag (connect_flags param) BUS1_CONNECT_FLAG_QUERY
      then
        if env_put_user e 0%nat
        then Some (r, peer', domain',
                   evs ++ [ev_put_user (connect_pool_size param')])
        else Some (- EFAULT, peer', domain', evs)
      else Some (r, peer', domain', evs)
  end.

(** ** peer.c: RESOLVE *)

Record bus1_cmd_resolve : Type := mk_cmd_resolve {
  resolve_flags : Z;
  resolve_id : Z;
  resolve_name : list ascii
}.

(** One walk down the name index: [None] is a dangling owner, [Some None]
    is [n == NULL], and [Some (Some id)] is a node found, with the value
    of [param->id] after the walk. *)
Definition resolve_walk (peers : gmap peer_id bus1_peer)
    (domain : bus1_domain) (param : bus1_cmd_resolve)
    : option (option Z) :=
  match domain_map_names domain
          !! take (strnlen (resolve_name param)) (resolve_name param) with
  | None => Some None
  | Some owner =>
    peer ← peers !! owner;
    if bus1_active_is_active (peer_active peer)
    then Some (Some 0)
    else Some (Some (resolve_id param))
  end.

(** The retry loop: the walk is repeated while nothing was found and the
    seqcount reports a writer. *)
Fixpoint resolve_loop (retry : nat) (peers : gmap peer_id bus1_peer)
    (domain : bus1_domain) (param : bus1_cmd_resolve)
    : option (option Z) :=
  n ← resolve_walk peers domain param;
  match n, retry with
  | None, S retry' => resolve_loop retry' peers domain param
  | _, _ => Some n
  end.

Definition last_byte_is_nul (s : list ascii) : bool :=
  match last s with
  | Some c => is_nul c
  | None => false
  end.

Definition bus1_peer_ioctl_resolve (e : env)
    (peers : gmap peer_id bus1_peer) (domain : bus1_domain)
    (imported : Z + bus1_cmd_resolve) : option (Z * list event) :=
  match imported with
  | inl r => Some (r, [])
  | inr param =>
    if negb (resolve_flags param =? 0) then Some (- EINVAL, [])
    else if negb (resolve_id param =? 0) then Some (- EINVAL, [])
    else
      let namelen := Z.of_nat (length (resolve_name param)) in
      if (namelen <? 2) || (BUS1_NAME_MAX_SIZE <? namelen)
      then Some (- ENXIO, [])
      else if negb (last_byte_is_nul (resolve_name param))
      then Some (- EINVAL, [])
      else
        n ← resolve_loop (env_seq_retry e) peers domain param;
        match n with
        | None => Some (- ENXIO, [])
        | Some id =>
          if env_put_user e 0%nat then Some (0, [ev_put_user id])
          else Some (- EFAULT, [])
        end
  end.

(** ** peer.c: SEND *)

Record bus1_cmd_send : Type := mk_cmd_send {
  send_flags : Z;
  send_ptr_destinations : Z;
  send_n_destinations : Z;
  send_ptr_vecs : Z;
  send_n_vecs : Z;
  send_ptr_ids : Z;
  send_ptr_fds : Z;
  send_n_fds : Z
}.

(** [(u64)(unsigned long)ptr] *)
Definition cast_unsigned_long (e : env) (ptr : Z) : Z :=
  ptr mod 2 ^ env_long_bits e.

(** The slow path: [left] destinations remain, [i] is the index of the
    next one. *)
Fixpoint send_loop (e : env) (left : nat) (i : nat) : Z * list event :=
  match left with
  | O => (0, [])
  | S left' =>
    match env_get_user e i with
    | None => (- EFAULT, [])
    | Some destination =>
      let r := env_instantiate_for_id e i destination in
      if r <? 0 then (r, [ev_transaction_instantiate_for_id destination])
      else
        let '(r', evs) := send_loop e left' (S i) in
        (r', ev_transaction_instantiate_for_id destination :: evs)
    end
  end.

(** [imported] is the result of [bus1_import_fixed_ioctl]. *)
Definition bus1_peer_ioctl_send (e : env) (imported : Z + bus1_cmd_send)
    : Z * list event :=
  match imported with
  | inl r => (r, [])
  | inr param =>
    if negb (clear_bits (send_flags param)
               (Z.lor BUS1_SEND_FLAG_IGNORE_UNKNOWN
                      BUS1_SEND_FLAG_CONVEY_ERRORS) =? 0)
    then (- EINVAL, [])
    else if (BUS1_VEC_MAX <? send_n_vecs param)
            || (BUS1_FD_MAX <? send_n_fds param)
    then (- EMSGSIZE, [])
    else if negb (send_ptr_destinations param
                  =? cast_unsigned_long e (send_ptr_destinations param))
            || negb (send_ptr_vecs param
                     =? cast_unsigned_long e (send_ptr_vecs param))
            || negb (send_ptr_ids param
                     =? cast_unsigned_long e (send_ptr_ids param))
            || negb (send_ptr_fds param
                     =? cast_unsigned_long e (send_ptr_fds param))
    then (- EFAULT, [])
    else if env_transaction_new e <? 0 then (env_transaction_new e, [])
    else
      let exit := [ev_transaction_free (negb (env_transaction_in_buf e))] in
      if send_n_destinations param =? 1 then
        match env_get_user e 0%nat with
        | None => (- EFAULT, exit)
        | Some destination =>
          let r := env_commit_for_id e destination in
          if r <? 0
          then (r, ev_transaction_commit_for_id destination :: exit)
          else (0, ev_transaction_commit_for_id destination :: exit)
        end
      else
        let '(r, evs) :=
          send_loop e (Z.to_nat (send_n_destinations param)) 0%nat in
        if r <? 0 then (r, evs ++ exit)
        else (0, evs ++ ev_transaction_commit :: exit)
  end.

(** ** peer.c: RECV *)

(** [WARN_ON(cond)] as a statement: the warning, if the condition holds. *)
Definition WARN_ON (cond : bool) : list event :=
  if cond then [ev_warn] else [].

Record bus1_cmd_recv : Type := mk_cmd_recv {
  recv_flags : Z;
  recv_msg_offset : Z;
  recv_msg_size : Z;
  recv_msg_ids : Z;
  recv_msg_fds : Z
}.

Definition with_queue_pool (peer_info : bus1_peer_info)
    (queue : bus1_queue) (pool : bus1_pool) : bus1_peer_info :=
  mk_peer_info (info_user peer_info) pool queue
               (info_map_handles_by_id peer_info)
               (info_map_handles_by_node peer_info)
               (info_handle_ids peer_info).

(** The four [put_user] calls at [exit], chained by [||]: the first one
    that faults ends the chain. *)
Fixpoint put_users (e : env) (k : nat) (values : list Z)
    : bool * list event :=
  match values with
  | [] => (true, [])
  | v :: values' =>
    if env_put_user e k
    then let '(ok, evs) := put_users e (S k) values' in
         (ok, ev_put_user v :: evs)
    else (false, [])
  end.

(** [while (n_fds > 0) put_unused_fd(fds[--n_fds])]; the array [fds] holds
    exactly [n_fds] reserved numbers. *)
Definition put_unused_fds (fds : list Z) : list event :=
  map ev_put_unused_fd (reverse fds).

(** The code at [exit]. *)
Definition recv_exit (e : env) (r : Z) (param : bus1_cmd_recv)
    (fds : list Z) : Z * list event :=
  let '(r, evs) :=
    if 0 <=? r then
      let '(ok, evs) :=
        put_users e 0%nat [recv_msg_offset param; recv_msg_size param;
                           recv_msg_ids param; recv_msg_fds param] in
      (if ok then r else - EFAULT, evs)
    else (r, []) in
  (r, evs ++ put_unused_fds fds).

(** [for ( ; n_fds < wanted_fds; ++n_fds)]: [left] numbers are missing. *)
Fixpoint recv_reserve_fds (e : env) (left : nat) (fds : list Z)
    : Z * list Z * list event :=
  match left with
  | O => (0, fds, [])
  | S left' =>
    let r := env_get_unused_fd e (length fds) in
    if r <? 0 then (r, fds, [])
    else
      let '(r', fds', evs) := recv_reserve_fds e left' (fds ++ [r]) in
      (r', fds', ev_get_unused_fd r :: evs)
  end.

(** How the dequeue loop ends: by [goto exit], or by leaving the loop with
    [node]. *)
Inductive recv_loop_result : Type :=
| recv_goto_exit (r : Z)
| recv_leave (node : option bus1_queue_node).

Fixpoint recv_loop (fuel : nat) (e : env) (peer_info : bus1_peer_info)
    (param : bus1_cmd_recv) (wanted_fds : Z) (fds : list Z)
    : option (recv_loop_result * bus1_peer_info * bus1_cmd_recv
              * list Z * list event) :=
  match fuel with
  | O => None
  | S fuel' =>
    let n_fds := Z.of_nat (length fds) in
    let '(r, fds, evs) :=
      if n_fds <? wanted_fds then
        if negb (env_krealloc e) then (- ENOMEM, fds, [])
        else recv_reserve_fds e (Z.to_nat (wanted_fds - n_fds)) fds
      else (0, fds, []) in
    if r <? 0 then Some (recv_goto_exit r, peer_info, param, fds, evs)
    else
      let n_fds := Z.of_nat (length fds) in
      let node := bus1_queue_peek (info_queue peer_info) in
      match node with
      | None =>
        if n_fds <? wanted_fds
        then
          '(res, peer_info', param', fds', evs') ←
            recv_loop fuel' e peer_info param wanted_fds fds;
          Some (res, peer_info', param', fds',
                evs ++ [ev_mutex_lock; ev_mutex_unlock] ++ evs')
        else Some (recv_leave None, peer_info, param, fds,
                   evs ++ [ev_mutex_lock; ev_mutex_unlock])
      | Some nd =>
        let message := bus1_message_from_node nd in
        if n_fds <? msg_n_files message then
          let wanted_fds := msg_n_files message in
          '(res, peer_info', param', fds', evs') ←
            recv_loop fuel' e peer_info param wanted_fds fds;
          Some (res, peer_info', param', fds',
                evs ++ [ev_mutex_lock; ev_mutex_unlock] ++ evs')
        else
          let queue := bus1_queue_remove (info_queue peer_info) in
          let '(pool, offset, size) :=
            bus1_pool_publish (info_pool peer_info) (msg_slice message) in
          let param := mk_cmd_recv (recv_flags param) offset size
                                   (recv_msg_ids param)
                                   (msg_n_files message) in
          let evs_locked :=
            [ev_mutex_lock; ev_queue_remove (msg_addr message);
             ev_pool_publish (slice_offset (msg_slice message))]
            ++ (if msg_n_files message =? 0
                then [ev_message_deallocate (msg_addr message)] else [])
            ++ [ev_mutex_unlock] in
          let peer_info := with_queue_pool peer_info queue pool in
          if n_fds <? wanted_fds
          then
            '(res, peer_info', param', fds', evs') ←
              recv_loop fuel' e peer_info param wanted_fds fds;
            Some (res, peer_info', param', fds', evs ++ evs_locked ++ evs')
          else Some (recv_leave node, peer_info, param, fds,
                     evs ++ evs_locked)
      end
  end.

(** [fd_install(fds[n_fds - 1], get_file(message->files[n_fds - 1]))] for
    [n_fds] counting down to 1. *)
Fixpoint recv_install_fds (n_fds : nat) (fds files : list Z) : list event :=
  match n_fds with
  | O => []
  | S k =>
    ev_fd_install (nth k fds 0) (nth k files 0) :: recv_install_fds k fds files
  end.

(** [imported] is the result of [bus1_import_fixed_ioctl]; [fuel] bounds
    the rounds of the dequeue loop.  A call is one atomic step, so the
    queue seen under the lock is the queue of the first, lock-free peek;
    [evs_peek] is the warning of that first peek about a front node that
    is no message. *)
Definition bus1_peer_ioctl_recv (fuel : nat) (e : env)
    (peer_info : bus1_peer_info) (imported : Z + bus1_cmd_recv)
    : option (Z * bus1_peer_info * list event) :=
  match imported with
  | inl r => Some (r, peer_info, [])
  | inr param =>
    if negb (clear_bits (recv_flags param) BUS1_RECV_FLAG_PEEK =? 0)
    then Some (- EINVAL, peer_info, [])
    else if negb (recv_msg_offset param =? BUS1_OFFSET_INVALID)
            || negb (recv_msg_size param =? 0)
            || negb (recv_msg_ids param =? 0)
            || negb (recv_msg_fds param =? 0)
    then Some (- EINVAL, peer_info, [])
    else
      match bus1_queue_peek (info_queue peer_info) with
      | None => Some (- EAGAIN, peer_info, [])
      | Some node =>
        let evs_peek := WARN_ON (negb (bus1_queue_node_is_message node)) in
        let wanted_fds := msg_n_files (bus1_message_from_node node) in
        if has_flag (recv_flags param) BUS1_RECV_FLAG_PEEK then
          match bus1_queue_peek (info_queue peer_info) with
          | None =>
            Some (- EAGAIN, peer_info,
                  evs_peek ++ [ev_mutex_lock; ev_mutex_unlock])
          | Some node =>
            let message := bus1_message_from_node node in
            let '(pool, offset, size) :=
              bus1_pool_publish (info_pool peer_info) (msg_slice message) in
            let param := mk_cmd_recv (recv_flags param) offset size
                                     (recv_msg_ids param)
                                     (msg_n_files message) in
            let '(r, evs) := recv_exit e 0 param [] in
            Some (r,
                  with_queue_pool peer_info (info_queue peer_info) pool,
                  evs_peek
                  ++ [ev_mutex_lock;
                      ev_pool_publish (slice_offset (msg_slice message));
                      ev_mutex_unlock] ++ evs)
          end
        else
          '(res, peer_info, param, fds, evs) ←
            recv_loop fuel e peer_info param wanted_fds [];
          match res with
          | recv_goto_exit r =>
            let '(r, evs') := recv_exit e r param fds in
            Some (r, peer_info, evs_peek ++ evs ++ evs')
          | recv_leave None =>
            let '(r, evs') := recv_exit e (- EAGAIN) param fds in
            Some (r, peer_info, evs_peek ++ evs ++ evs')
          | recv_leave (Some node) =>
            let message := bus1_message_from_node node in
            let n_files := Z.to_nat (msg_n_files message) in
            let evs_put := put_unused_fds (drop n_files fds) in
            let fds := take n_files fds in
            let '(r, fds, evs_fds) :=
              if (0 <? length fds)%nat then
                let r := env_pool_write e in
                let evs :=
                  [ev_pool_write (slice_offset (msg_slice message)) fds;
                   ev_mutex_lock; ev_message_deallocate (msg_addr message);
                   ev_mutex_unlock] in
                if 0 <=? r
                then (r, [],
                      evs ++ recv_install_fds (length fds) fds
                                              (msg_files message))
                else (r, fds, evs)
              else (0, fds, []) in
            let '(r, evs') := recv_exit e r param fds in
            Some (r, peer_info,
                  evs_peek ++ evs ++ evs_put ++ evs_fds
                  ++ [ev_message_free (msg_addr message)] ++ evs')
          end
      end
  end.

(** ** peer.c: active references of a peer *)

Definition bus1_peer_acquire (peer : bus1_peer) : bool :=
  bus1_active_acquire (peer_active peer).

Definition bus1_peer_dereference (peer : bus1_peer)
    : option bus1_peer_info :=
  peer_info peer.

(** ** peer.c: SLICE_RELEASE *)

(** Modelled from the spec: [bus1_pool_release_user] belongs to the pool,
    an external collaborator, and is the parameter [release] here: the
    handler uses its return value and the pool it leaves.  [imported] is
    the result of [bus1_import_fixed_ioctl]. *)
Definition bus1_peer_ioctl_slice_release
    (release : bus1_pool -> Z -> Z * bus1_pool)
    (peer_info : bus1_peer_info) (imported : Z + Z)
    : Z * bus1_peer_info * list event :=
  match imported with
  | inl r => (r, peer_info, [])
  | inr offset =>
    let '(r, pool) := release (info_pool peer_info) offset in
    (r, with_queue_pool peer_info (info_queue peer_info) pool,
     [ev_mutex_lock; ev_mutex_unlock])
  end.

(** ** peer.c: the ioctl entry point *)

(** The command word of an ioctl, with what the import helper of its
    handler finds at [arg]; DISCONNECT looks at [arg] itself. *)
Inductive bus1_cmd : Type :=
| BUS1_CMD_CONNECT (imported : Z + bus1_cmd_connect)
| BUS1_CMD_RESOLVE (imported : Z + bus1_cmd_resolve)
| BUS1_CMD_DISCONNECT (arg : Z)
| BUS1_CMD_SLICE_RELEASE (imported : Z + Z)
| BUS1_CMD_SEND (imported : Z + bus1_cmd_send)
| BUS1_CMD_RECV (imported : Z + bus1_cmd_recv)
| BUS1_CMD_OTHER (cmd : Z).

(** Modelled from the spec: [bus1_domain_acquire] pins the active
    reference of the domain, which is an active reference like the one of
    a peer. *)
Definition bus1_domain_acquire (domain_active : bus1_active) : bool :=
  bus1_active_acquire domain_active.

(** [peers] is the heap of peer objects, [self] the address of the peer
    the ioctl is called on.  A handler that would follow a null
    [peer->info] has no result. *)
Definition bus1_peer_ioctl (fuel : nat) (e : env)
    (release : bus1_pool -> Z -> Z * bus1_pool)
    (self : peer_id) (peers : gmap peer_id bus1_peer)
    (domain_active : bus1_active) (domain : bus1_domain) (f : file)
    (cmd : bus1_cmd)
    : option (Z * gmap peer_id bus1_peer * bus1_domain * list event) :=
  peer ← peers !! self;
  match cmd with
  | BUS1_CMD_CONNECT imported =>
    if negb (bus1_domain_acquire domain_active)
    then Some (- ESHUTDOWN, peers, domain, [])
    else
      '(r, peer', domain', evs) ←
        bus1_peer_ioctl_connect e self peer domain f imported;
      Some (r, <[self := peer']> peers, domain', evs)
  | BUS1_CMD_RESOLVE imported =>
    if negb (bus1_domain_acquire domain_active)
    then Some (- ESHUTDOWN, peers, domain, [])
    else
      '(r, evs) ← bus1_peer_ioctl_resolve e peers domain imported;
      Some (r, peers, domain, evs)
  | BUS1_CMD_DISCONNECT arg =>
    if negb (arg =? 0) then Some (- EINVAL, peers, domain, [])
    else
      let '(r, peer', domain', evs) := bus1_peer_teardown self peer domain in
      Some (r, <[self := peer']> peers, domain', evs)
  | BUS1_CMD_SLICE_RELEASE imported =>
    if negb (bus1_peer_acquire peer)
    then Some (- ESHUTDOWN, peers, domain, [])
    else
      peer_info ← bus1_peer_dereference peer;
      let '(r, peer_info', evs) :=
        bus1_peer_ioctl_slice_release release peer_info imported in
      Some (r, <[self := with_info peer (Some peer_info')]> peers, domain,
            evs)
  | BUS1_CMD_SEND imported =>
    if negb (bus1_peer_acquire peer)
    then Some (- ESHUTDOWN, peers, domain, [])
    else
      let '(r, evs) := bus1_peer_ioctl_send e imported in
      Some (r, peers, domain, evs)
  | BUS1_CMD_RECV imported =>
    if negb (bus1_peer_acquire peer)
    then Some (- ESHUTDOWN, peers, domain, [])
    else
      peer_info ← bus1_peer_dereference peer;
      '(r, peer_info', evs) ← bus1_peer_ioctl_recv fuel e peer_info imported;
      Some (r, <[self := with_info peer (Some peer_info')]> peers, domain,
            evs)
  | BUS1_CMD_OTHER _ => Some (- ENOTTY, peers, domain, [])
  end.

(** One ioctl of a run: who calls, on which file, with which command,
    and what the environment does during the call. *)
Record ioctl_call : Type := mk_ioctl_call {
  call_self : peer_id;
  call_file : file;
  call_cmd : bus1_cmd;
  call_env : env;
  call_fuel : nat
}.

(** A run of ioctls on the peers of one domain, one after the other;
    the return values are collected. *)
Fixpoint run_ioctls (release : bus1_pool -> Z -> Z * bus1_pool)
    (domain_active : bus1_active) (calls : list ioctl_call)
    (peers : gmap peer_id bus1_peer) (domain : bus1_domain)
    : option (list Z * gmap peer_id bus1_peer * bus1_domain) :=
  match calls with
  | [] => Some ([], peers, domain)
  | call :: calls' =>
    '(r, peers', domain', _) ←
      bus1_peer_ioctl (call_fuel call) (call_env call) release
        (call_self call) peers domain_active domain (call_file call)
        (call_cmd call);
    '(rs, peers'', domain'') ←
      run_ioctls release domain_active calls' peers' domain';
    Some (r :: rs, peers'', domain'')
  end.

(** ** peer.c: destruction of a peer *)

(** Modelled from the spec: [bus1_active_destroy] requires NEW or DEAD and
    complains about a reference that is still in use. *)
Definition bus1_active_destroy (a : bus1_active) : list event :=
  match a with
  | ACTIVE_NEW | ACTIVE_DEAD => []
  | ACTIVE_ACTIVE | ACTIVE_DEACTIVATING => [ev_warn]
  end.

(** The warnings of [bus1_peer_free], in the order of its checks; [None]
    is the null pointer.  The deferred [kfree_rcu] of the peer leaves no
    mark on peer or domain. *)
Definition bus1_peer_free (peer : option bus1_peer) : list event :=
  match peer with
  | None => []
  | Some peer =>
    (if peer_link_domain peer then [ev_warn] else [])
    ++ match peer_names peer with [] => [] | _ :: _ => [ev_warn] end
    ++ match peer_info peer with Some _ => [ev_warn] | None => [] end
    ++ bus1_active_destroy (peer_active peer)
  end.

(** ** Specification vocabulary and fixtures *)

(** A list of names laid out as a nulstr: each name followed by a zero
    byte. *)
Definition nulstr (names : list cstring) : list ascii :=
  concat (map (fun name => name ++ [Ascii.zero]) names).

(** A name as the blob parser sees it: non-empty, free of zero bytes. *)
Definition name_ok (name : cstring) : Prop :=
  name <> [] /\ Forall (fun c => is_nul c = false) name.

(** The caller cleared the output fields of the RECV block. *)
Definition recv_precleared (param : bus1_cmd_recv) : Prop :=
  recv_msg_offset param = BUS1_OFFSET_INVALID
  /\ recv_msg_size param = 0
  /\ recv_msg_ids param = 0
  /\ recv_msg_fds param = 0.


(** An environment in which nothing fails, on a 64-bit machine. *)
Definition env_ok : env :=
  mk_env true 0 0 (fun _ => true) (fun _ => true) O 64 0 true
         (fun i => Some (Z.of_nat i)) (fun _ => 0) (fun _ _ => 0)
         true (fun k => 3 + Z.of_nat k) 0.

Definition name_a : cstring := ["a"%char].
Definition name_b : cstring := ["b"%char].
Definition name_x : cstring := ["x"%char].
Definition name_dup : cstring := ["d"%char; "u"%char; "p"%char].

Definition domain_empty : bus1_domain := mk_domain ∅ 0 [] 0.

Definition info_4096 : bus1_peer_info :=
  mk_peer_info (Some 1000) (mk_pool 4096 []) (mk_queue rb_nil) [] [] 0.

(** Peer 7 after CONNECT(PEER, 4096, "a\0b\0") on an empty domain. *)
Definition peer_ab : bus1_peer :=
  mk_peer ACTIVE_ACTIVE (Some info_4096)
          [mk_peer_name 7%nat true name_b; mk_peer_name 7%nat true name_a] true.

Definition domain_ab : bus1_domain :=
  mk_domain (<[name_b := 7%nat]> (<[name_a := 7%nat]> ∅)) 2 [7%nat] 1.

(** A message with two files in flight, committed, at the front of a
    queue that also holds a staged entry. *)
Definition message_1 : bus1_message :=
  mk_message 11%nat (mk_slice 128 64) 2 [21; 22].
Definition message_2 : bus1_message :=
  mk_message 12%nat (mk_slice 256 32) 0 [].
Definition node_1 : bus1_queue_node := mk_node true true true message_1.
Definition node_2 : bus1_queue_node := mk_node true false true message_2.

Definition info_queued : bus1_peer_info :=
  mk_peer_info (Some 1000) (mk_pool 4096 [])
               (mk_queue (rb_node (rb_node rb_nil node_1 rb_nil) node_2
                                  rb_nil))
               [] [] 0.

Definition recv_cleared (flags : Z) : bus1_cmd_recv :=
  mk_cmd_recv flags BUS1_OFFSET_INVALID 0 0 0.

(** Peer 7 owns the name "x" and is being torn down: deactivated, not
    yet cleaned up. *)
Definition peer_x_deactivating : bus1_peer :=
  mk_peer ACTIVE_DEACTIVATING (Some info_4096)
          [mk_peer_name 7%nat true name_x] true.
Definition peers_x : gmap peer_id bus1_peer :=
  {[ 7%nat := peer_x_deactivating ]}.
Definition domain_x : bus1_domain :=
  mk_domain {[ name_x := 7%nat ]} 1 [7%nat] 1.

(** Projections of the trace. *)
Definition ev_deallocated (ev : event) : option addr :=
  match ev with ev_message_deallocate a => Some a | _ => None end.
Definition ev_freed (ev : event) : option addr :=
  match ev with ev_message_free a => Some a | _ => None end.
Definition ev_unlinked (ev : event) : option addr :=
  match ev with ev_rb_clear_node a => Some a | _ => None end.

Definition node_is_committed_message (node : bus1_queue_node) : bool :=
  bus1_queue_node_is_message node && bus1_queue_node_is_committed node.
Definition node_addr (node : bus1_queue_node) : addr :=
  msg_addr (bus1_message_from_node node).

(** A name node that is not in the index. *)
Definition pn_unlinked (peer_name : bus1_peer_name) : Prop :=
  pn_linked peer_name = false.

(** A CONNECT with this pool size and these names gets as far as the name
    index: the pool size is valid, the names are well-formed and fit, and
    every allocation and the user lookup succeed. *)
Definition connect_prepares (e : env) (pool : Z) (names : list cstring)
    : Prop :=
  pool <> 0
  /\ IS_ALIGNED pool PAGE_SIZE = true
  /\ env_kmalloc_info e = true
  /\ 0 <= env_pool_create e
  /\ 0 <= env_user_acquire e
  /\ Forall name_ok names
  /\ Forall (fun name => Z.of_nat (length name) + 1 <= BUS1_NAME_MAX_SIZE
                         /\ env_kmalloc_name e name = true) names.

(** A domain in which peer 7 owns the name "dup". *)
Definition domain_dup : bus1_domain :=
  mk_domain {[ name_dup := 7%nat ]} 1 [7%nat] 1.

(** ** Sequences of teardown calls *)

(** The sections of the two teardown functions that run without
    interruption: what [bus1_peer_teardown] does under the peer lock
    before it takes the domain lock, what it does under the domain lock,
    and [bus1_peer_teardown_domain], whose caller holds the domain lock. *)
Inductive teardown_step : Type :=
| step_deactivate
| step_locked
| step_domain.

Definition run_step (self : peer_id) (step : teardown_step)
    (st : bus1_peer * bus1_domain) : bus1_peer * bus1_domain * list event :=
  match step with
  | step_deactivate => (teardown_deactivate (fst st), snd st, [])
  | step_locked =>
    let '(_, peer, domain, evs) := teardown_locked self (fst st) (snd st) in
    (peer, domain, evs)
  | step_domain => bus1_peer_teardown_domain self (fst st) (snd st)
  end.

(** The trace of a sequence of steps on one peer. *)
Fixpoint run_steps (self : peer_id) (steps : list teardown_step)
    (st : bus1_peer * bus1_domain) : list event :=
  match steps with
  | [] => []
  | step :: steps' =>
    let '(peer, domain, evs) := run_step self step st in
    evs ++ run_steps self steps' (peer, domain)
  end.

Inductive teardown_call : Type :=
| call_teardown
| call_teardown_domain.

(** A whole call: its return value if it has one, the state it leaves,
    its trace. *)
Definition run_call (self : peer_id) (call : teardown_call)
    (st : bus1_peer * bus1_domain)
    : option Z * (bus1_peer * bus1_domain) * list event :=
  match call with
  | call_teardown =>
    let '(r, peer, domain, evs) := bus1_peer_teardown self (fst st) (snd st) in
    (Some r, (peer, domain), evs)
  | call_teardown_domain =>
    let '(peer, domain, evs) :=
      bus1_peer_teardown_domain self (fst st) (snd st) in
    (None, (peer, domain), evs)
  end.

Fixpoint run_calls (self : peer_id) (calls : list teardown_call)
    (st : bus1_peer * bus1_domain)
    : list (option Z * (bus1_peer * bus1_domain) * list event) :=
  match calls with
  | [] => []
  | call :: calls' =>
    let '(r, st', evs) := run_call self call st in
    (r, st', evs) :: run_calls self calls' st'
  end.

(** What a call that comes too late does: nothing, and
    [bus1_peer_teardown] says so. *)
Definition late_call (call : teardown_call) (st : bus1_peer * bus1_domain)
    : option Z * (bus1_peer * bus1_domain) * list event :=
  match call with
  | call_teardown => (Some (- ESHUTDOWN), st, [])
  | call_teardown_domain => (None, st, [])
  end.

(** How often the cleanup callback got to work on the peer, and how often
    a peer info was given back. *)
Fixpoint count_events (P : event -> bool) (evs : list event) : nat :=
  match evs with
  | [] => O
  | ev :: evs' => ((if P ev then 1 else 0) + count_events P evs')%nat
  end.

Definition is_cleanup_of (self : peer_id) (ev : event) : bool :=
  match ev with ev_cleanup peer => Nat.eqb peer self | _ => false end.
Definition is_info_free (ev : event) : bool :=
  match ev with ev_kfree_info => true | _ => false end.

Definition cleanups (self : peer_id) (evs : list event) : nat :=
  count_events (is_cleanup_of self) evs.
Definition info_frees (evs : list event) : nat :=
  count_events is_info_free evs.

(** The peer of a state is DEAD. *)
Definition is_dead (st : bus1_peer * bus1_domain) : Prop :=
  peer_active (fst st) = ACTIVE_DEAD.

(** ** SEND and RECV vocabulary *)

(** A SEND gets as far as the destination ids: the flags are known, the
    limits are kept, the pointers fit the address width, and the
    transaction could be built. *)
Definition send_prepares (e : env) (param : bus1_cmd_send) : Prop :=
  clear_bits (send_flags param)
             (Z.lor BUS1_SEND_FLAG_IGNORE_UNKNOWN
                    BUS1_SEND_FLAG_CONVEY_ERRORS) = 0
  /\ send_n_vecs param <= BUS1_VEC_MAX
  /\ send_n_fds param <= BUS1_FD_MAX
  /\ send_ptr_destinations param
     = cast_unsigned_long e (send_ptr_destinations param)
  /\ send_ptr_vecs param = cast_unsigned_long e (send_ptr_vecs param)
  /\ send_ptr_ids param = cast_unsigned_long e (send_ptr_ids param)
  /\ send_ptr_fds param = cast_unsigned_long e (send_ptr_fds param)
  /\ 0 <= env_transaction_new e.

(** The copy of destination [k] is attempted and faults: the ids before
    it could be read and their instantiation did not fail. *)
Definition send_faults_at (e : env) (k : nat) : Prop :=
  env_get_user e k = None
  /\ forall i, (i < k)%nat ->
       exists destination,
         env_get_user e i = Some destination
         /\ 0 <= env_instantiate_for_id e i destination.

Definition ev_is_instantiate (ev : event) : Prop :=
  exists destination, ev = ev_transaction_instantiate_for_id destination.

(** Destination 2 of every SEND cannot be read. *)
Definition env_fault_at_2 : env :=
  mk_env true 0 0 (fun _ => true) (fun _ => true) O 64 0 true
         (fun i => if Nat.eqb i 2 then None else Some (Z.of_nat i))
         (fun _ => 0) (fun _ _ => 0)
         true (fun k => 3 + Z.of_nat k) 0.

Definition send_to_5 : bus1_cmd_send :=
  mk_cmd_send BUS1_SEND_FLAG_IGNORE_UNKNOWN 4096 5 0 0 0 0 0.

(** What RECV hands back for a message: offset and size of its slice, no
    ids, its number of files. *)
Definition recv_output (message : bus1_message) : list Z :=
  [slice_offset (msg_slice message); slice_size (msg_slice message); 0;
   msg_n_files message].

Definition ev_is_put_user (ev : event) : Prop :=
  exists value, ev = ev_put_user value.

(** The peer info after a PEEK at [message]: the queue as it was, the
    slice of the message published. *)
Definition info_peeked (info : bus1_peer_info) (message : bus1_message)
    : bus1_peer_info :=
  with_queue_pool info (info_queue info)
    (mk_pool (pool_size (info_pool info))
             (slice_offset (msg_slice message)
              :: pool_published (info_pool info))).

(** A queue whose front entry is committed but is no message, which the
    code warns about. *)
Definition node_stray : bus1_queue_node := mk_node false true true message_2.
Definition info_stray : bus1_peer_info :=
  mk_peer_info (Some 1000) (mk_pool 4096 [])
               (mk_queue (rb_node rb_nil node_stray rb_nil)) [] [] 0.

(** The names a peer holds, in the order of [peer->names]. *)
Definition peer_name_list (peer : bus1_peer) : list cstring :=
  map pn_name (peer_names peer).

(** Two lists hold the same names. *)
Definition same_names (l k : list cstring) : Prop :=
  forall name, name ∈ l <-> name ∈ k.

(** ** Invariants of the domain and further vocabulary *)

(** The counter of the name index agrees with the index. *)
Definition index_counted (domain : bus1_domain) : Prop :=
  domain_n_names domain
  = wrap64 (Z.of_nat (size (domain_map_names domain))).

(** The counter of the peer list agrees with the list. *)
Definition peers_counted (domain : bus1_domain) : Prop :=
  domain_n_peers domain
  = wrap64 (Z.of_nat (length (domain_list_peers domain))).

(** The names of a list are distinct, linked, and in the index. *)
Definition names_indexed (names : list bus1_peer_name)
    (domain : bus1_domain) : Prop :=
  NoDup (map pn_name names)
  /\ Forall (fun pn => pn_linked pn = true
                       /\ is_Some (domain_map_names domain !! pn_name pn))
            names.

(** The peer info a successful CONNECT installs. *)
Definition info_connected (uid : kuid_t) (pool : Z) : bus1_peer_info :=
  mk_peer_info (Some uid) (mk_pool pool []) (mk_queue rb_nil) [] [] 0.

(** The names of a list are free in the index. *)
Definition names_free (names : list cstring) (domain : bus1_domain) : Prop :=
  Forall (fun name => domain_map_names domain !! name = None) names.

(** Events of the transaction engine. *)
Definition is_transaction_free (ev : event) : bool :=
  match ev with ev_transaction_free _ => true | _ => false end.
Definition is_transaction_commit (ev : event) : bool :=
  match ev with ev_transaction_commit => true | _ => false end.

(** Events of the descriptor table and of the queue. *)
Definition is_get_unused_fd (ev : event) : bool :=
  match ev with ev_get_unused_fd _ => true | _ => false end.
Definition is_put_unused_fd (ev : event) : bool :=
  match ev with ev_put_unused_fd _ => true | _ => false end.
Definition is_fd_install (ev : event) : bool :=
  match ev with ev_fd_install _ _ => true | _ => false end.
Definition is_queue_remove (ev : event) : bool :=
  match ev with ev_queue_remove _ => true | _ => false end.
Definition is_message_free (ev : event) : bool :=
  match ev with ev_message_free _ => true | _ => false end.

(** The descriptor numbers a RECV reserves for a message with [n] files:
    [get_unused_fd_flags] is asked [n] times. *)
Definition recv_reserved (e : env) (n : nat) : list Z :=
  map (env_get_unused_fd e) (seq 0 n).

(** The peer info after the front message was dequeued and its slice
    published. *)
Definition info_dequeued (info : bus1_peer_info) (message : bus1_message)
    : bus1_peer_info :=
  with_queue_pool info (bus1_queue_remove (info_queue info))
    (mk_pool (pool_size (info_pool info))
             (slice_offset (msg_slice message)
              :: pool_published (info_pool info))).

(** The commands that run under the active reference of the domain, and
    the ones that run under the active reference of the peer. *)
Definition cmd_pins_domain (cmd : bus1_cmd) : bool :=
  match cmd with
  | BUS1_CMD_CONNECT _ | BUS1_CMD_RESOLVE _ => true
  | _ => false
  end.
Definition cmd_pins_peer (cmd : bus1_cmd) : bool :=
  match cmd with
  | BUS1_CMD_SLICE_RELEASE _ | BUS1_CMD_SEND _ | BUS1_CMD_RECV _ => true
  | _ => false
  end.

(** The commands that need the peer to be alive: a peer that was torn
    down answers them with -ESHUTDOWN. *)
Definition cmd_needs_peer (cmd : bus1_cmd) : bool :=
  match cmd with
  | BUS1_CMD_DISCONNECT arg => arg =? 0
  | _ => cmd_pins_peer cmd
  end.

(** A peer that is linked into its domain: connected, or deactivated and
    not yet cleaned up. *)
Definition peer_connected (peer : bus1_peer) : bool :=
  match peer_active peer with
  | ACTIVE_ACTIVE | ACTIVE_DEACTIVATING => true
  | ACTIVE_NEW | ACTIVE_DEAD => false
  end.

(** The shape of a peer object: it has its info exactly while it is
    linked into the domain, holds names only then, and its name nodes are
    linked, distinct and point back to it. *)
Definition peer_wf (self : peer_id) (peer : bus1_peer) : Prop :=
  NoDup (peer_name_list peer)
  /\ Forall (fun pn => pn_linked pn = true /\ pn_peer pn = self)
            (peer_names peer)
  /\ (peer_connected peer = true ->
      is_Some (peer_info peer) /\ peer_link_domain peer = true)
  /\ (peer_connected peer = false ->
      peer_info peer = None /\ peer_names peer = []
      /\ peer_link_domain peer = false).

(** The shape of a domain and its peers: the counters count, the peer
    list holds exactly the linked peers, and the name index holds exactly
    the names of the peers, each under its owner. *)
Definition world_wf (peers : gmap peer_id bus1_peer) (domain : bus1_domain)
    : Prop :=
  index_counted domain
  /\ peers_counted domain
  /\ NoDup (domain_list_peers domain)
  /\ (forall p, p ∈ domain_list_peers domain
                <-> exists peer, peers !! p = Some peer
                                 /\ peer_connected peer = true)
  /\ (forall name owner,
        domain_map_names domain !! name = Some owner
        <-> exists peer, peers !! owner = Some peer
                         /\ name ∈ peer_name_list peer)
  /\ map_Forall peer_wf peers.

(** The RESOLVE request for a name: no flags, a cleared id, the name with
    its terminator. *)
Definition resolve_request (name : cstring) : Z + bus1_cmd_resolve :=
  inr (mk_cmd_resolve 0 0 (name ++ [Ascii.zero])).

(** ** Fixtures for the ioctl entry point *)

(** A file opened by root. *)
Definition file_root : file := mk_file true 1000.

(** A pool whose user releases always succeed: the slice at the offset
    is no longer published. *)
Definition release_ok (pool : bus1_pool) (offset : Z) : Z * bus1_pool :=
  (0, mk_pool (pool_size pool)
              (filter (fun o => o <> offset) (pool_published pool))).

Definition peer_dead : bus1_peer := mk_peer ACTIVE_DEAD None [] false.

(** Peer 7 before its CONNECT, after it, and after its DISCONNECT. *)
Definition peers_new : gmap peer_id bus1_peer := {[ 7%nat := bus1_peer_new ]}.
Definition peers_ab : gmap peer_id bus1_peer := {[ 7%nat := peer_ab ]}.
Definition peers_dead : gmap peer_id bus1_peer := {[ 7%nat := peer_dead ]}.

Definition connect_ab_request : Z + bus1_cmd_connect :=
  inr (mk_cmd_connect BUS1_CONNECT_FLAG_PEER 4096 (nulstr [name_a; name_b])).

(** The instantiation for destination 2 of every SEND is refused. *)
Definition env_refuse_at_2 : env :=
  mk_env true 0 0 (fun _ => true) (fun _ => true) O 64 0 true
         (fun i => Some (Z.of_nat i)) (fun _ => 0)
         (fun i _ => if Nat.eqb i 2 then - ENOMEM else 0)
         true (fun k => 3 + Z.of_nat k) 0.

(** The second descriptor of every RECV cannot be reserved. *)
Definition env_fd_exhausted : env :=
  mk_env true 0 0 (fun _ => true) (fun _ => true) O 64 0 true
         (fun i => Some (Z.of_nat i)) (fun _ => 0) (fun _ _ => 0)
         true (fun k => if Nat.eqb k 1 then - ENOMEM else 3 + Z.of_nat k) 0.

(** No pool write succeeds. *)
Definition env_pool_write_fails : env :=
  mk_env true 0 0 (fun _ => true) (fun _ => true) O 64 0 true
         (fun i => Some (Z.of_nat i)) (fun _ => 0) (fun _ _ => 0)
         true (fun k => 3 + Z.of_nat k) (- ENOMEM).

(** * Properties *)

(** ** Machine integers and strings *)

Lemma wrap64_id x : is_u64 x -> wrap64 x = x.
Proof.
  unfold is_u64, wrap64, u64_max. intros H. apply Z.mod_small. lia.
Qed.

Lemma wrap64_range x : is_u64 (wrap64 x).
Proof.
  unfold is_u64, wrap64, u64_max.
  pose proof (Z.mod_pos_bound x (2 ^ 64) ltac:(lia)). lia.
Qed.

Lemma wrap64_succ_pred x : is_u64 x -> wrap64 (wrap64 (x + 1) - 1) = x.
Proof.
  intros H. unfold wrap64.
  rewrite Zminus_mod_idemp_l.
  replace (x + 1 - 1) with x by lia. by apply wrap64_id.
Qed.


(** ** CONNECT: the capability gate *)





(** ** RECV: the output fields must be cleared *)

(** C10: a RECV, with or without PEEK, whose parameter block does not
    carry msg_offset = BUS1_OFFSET_INVALID and msg_size = msg_ids =
    msg_fds = 0 returns InvalidArg; the peer info is returned as it was
    (nothing is dequeued) and no collaborator is called. *)
Theorem recv_requires_cleared_output fuel e peer_info param :
  ~ recv_precleared param ->
  bus1_peer_ioctl_recv fuel e peer_info (inr param)
  = Some (- EINVAL, peer_info, []).
Proof.
  intros Hdirty. unfold bus1_peer_ioctl_recv.
  destruct (negb (clear_bits (recv_flags param) BUS1_RECV_FLAG_PEEK =? 0));
    [reflexivity |].
  destruct (Z.eqb_spec (recv_msg_offset param) BUS1_OFFSET_INVALID);
    [| reflexivity].
  destruct (Z.eqb_spec (recv_msg_size param) 0); [| reflexivity].
  destruct (Z.eqb_spec (recv_msg_ids param) 0); [| reflexivity].
  destruct (Z.eqb_spec (recv_msg_fds param) 0); [| reflexivity].
  exfalso. apply Hdirty. unfold recv_precleared. tauto.
Qed.

Lemma recv_requires_cleared_output_witness :
  bus1_peer_ioctl_recv 2 env_ok info_queued
    (inr (mk_cmd_recv 0 BUS1_OFFSET_INVALID 0 0 1))
  = Some (- EINVAL, info_queued, []).
Proof.
  apply (recv_requires_cleared_output 2 env_ok info_queued
           (mk_cmd_recv 0 BUS1_OFFSET_INVALID 0 0 1)).
  unfold recv_precleared. simpl. lia.
Defined.

(** ** CONNECT(RESET) *)




(** ** Peer info reset *)

Lemma info_reset_loop_cons node nodes :
  info_reset_loop (node :: nodes)
  = snd (info_reset_node node) ++ info_reset_loop nodes.
Proof. reflexivity. Qed.

Lemma info_reset_loop_deallocated nodes :
  omap ev_deallocated (info_reset_loop nodes)
  = map node_addr (filter (fun n => node_is_committed_message n = true) nodes).
Proof.
  induction nodes as [| node nodes IH]; [reflexivity |].
  rewrite info_reset_loop_cons, omap_app, IH, filter_cons.
  unfold info_reset_node, node_is_committed_message, node_addr.
  destruct (bus1_queue_node_is_message node),
           (bus1_queue_node_is_committed node); reflexivity.
Qed.

Lemma info_reset_loop_freed nodes :
  omap ev_freed (info_reset_loop nodes)
  = map node_addr (filter (fun n => node_is_committed_message n = true) nodes).
Proof.
  induction nodes as [| node nodes IH]; [reflexivity |].
  rewrite info_reset_loop_cons, omap_app, IH, filter_cons.
  unfold info_reset_node, node_is_committed_message, node_addr.
  destruct (bus1_queue_node_is_message node),
           (bus1_queue_node_is_committed node); reflexivity.
Qed.

Lemma info_reset_loop_unlinked nodes :
  omap ev_unlinked (info_reset_loop nodes)
  = map node_addr
        (filter (fun n => bus1_queue_node_is_message n = true) nodes).
Proof.
  induction nodes as [| node nodes IH]; [reflexivity |].
  rewrite info_reset_loop_cons, omap_app, IH, filter_cons.
  unfold info_reset_node, node_addr.
  destruct (bus1_queue_node_is_message node),
           (bus1_queue_node_is_committed node); reflexivity.
Qed.

Lemma info_reset_loop_events nodes :
  Forall (fun ev => ev = ev_warn
                    \/ is_Some (ev_unlinked ev)
                    \/ is_Some (ev_deallocated ev)
                    \/ is_Some (ev_freed ev))
         (info_reset_loop nodes).
Proof.
  induction nodes as [| node nodes IH]; [constructor |].
  rewrite info_reset_loop_cons. apply Forall_app. split; [| exact IH].
  unfold info_reset_node.
  destruct (bus1_queue_node_is_message node),
           (bus1_queue_node_is_committed node); simpl;
    repeat apply Forall_cons_2; try apply Forall_nil_2;
    solve [ left; reflexivity
          | right; left; eexists; reflexivity
          | right; right; left; eexists; reflexivity
          | right; right; right; eexists; reflexivity ].
Qed.

(** What the loop does to one node: a message node is unlinked from the
    index and is otherwise the same node; a node that is no message is
    left alone. *)
Lemma info_reset_node_unlinks node :
  fst (info_reset_node node)
  = if bus1_queue_node_is_message node
    then mk_node (node_is_message node) (node_committed node) false
                 (node_container node)
    else node.
Proof.
  unfold info_reset_node.
  by destruct (bus1_queue_node_is_message node),
    (bus1_queue_node_is_committed node).
Qed.

(** C7: the trace of [bus1_peer_info_reset] opens with the lock of the
    info mutex and closes with its unlock; in between, the loop
    deallocates and frees exactly the committed messages of the queue (in
    the order of the walk), unlinks every message node, committed or
    staged (every node, when the queue holds nothing but messages), and
    does nothing else; then the queue is post-flushed, and after that the
    pool is flushed.  Every message node, staged ones included, leaves
    the loop unlinked and otherwise as it was.  The peer info that the
    reset leaves has an empty queue index and a pool of the same size
    without a published slice; its user and its handle tables are
    untouched. *)
Theorem info_reset_trace peer_info :
  let nodes := rb_postorder (queue_messages (info_queue peer_info)) in
  let committed :=
    filter (fun n => node_is_committed_message n = true) nodes in
  let messages :=
    filter (fun n => bus1_queue_node_is_message n = true) nodes in
  (exists loop,
     snd (bus1_peer_info_reset peer_info)
     = [ev_mutex_lock] ++ loop
       ++ [ev_queue_post_flush; ev_pool_flush; ev_mutex_unlock]
     /\ omap ev_deallocated loop = map node_addr committed
     /\ omap ev_freed loop = map node_addr committed
     /\ omap ev_unlinked loop = map node_addr messages
     /\ (Forall (fun n => bus1_queue_node_is_message n = true) nodes ->
         omap ev_unlinked loop = map node_addr nodes)
     /\ Forall (fun ev => ev = ev_warn
                          \/ is_Some (ev_unlinked ev)
                          \/ is_Some (ev_deallocated ev)
                          \/ is_Some (ev_freed ev)) loop)
  /\ Forall (fun n => node_rb_linked (fst (info_reset_node n)) = false
                      /\ node_is_message (fst (info_reset_node n))
                         = node_is_message n
                      /\ node_committed (fst (info_reset_node n))
                         = node_committed n
                      /\ node_container (fst (info_reset_node n))
                         = node_container n) messages
  /\ fst (bus1_peer_info_reset peer_info)
     = mk_peer_info (info_user peer_info)
                    (mk_pool (pool_size (info_pool peer_info)) [])
                    (mk_queue rb_nil)
                    (info_map_handles_by_id peer_info)
                    (info_map_handles_by_node peer_info)
                    (info_handle_ids peer_info)
  /\ bus1_queue_peek (info_queue (fst (bus1_peer_info_reset peer_info)))
     = None.
Proof.
  cbn zeta. split; [| split; [| split; reflexivity]].
  - exists (info_reset_loop
              (rb_postorder (queue_messages (info_queue peer_info)))).
    split; [reflexivity |].
    repeat split;
      auto using info_reset_loop_deallocated, info_reset_loop_freed,
                 info_reset_loop_unlinked, info_reset_loop_events.
    intros Hall. rewrite info_reset_loop_unlinked. f_equal.
    induction Hall as [| node nodes Hnode _ IH]; [reflexivity |].
    by rewrite filter_cons_True, IH.
  - apply Forall_forall. intros n Hn.
    apply list_elem_of_filter in Hn as [Hmsg _].
    rewrite info_reset_node_unlinks, Hmsg. by repeat split.
Qed.

Lemma info_reset_trace_witness :
  (exists loop,
     snd (bus1_peer_info_reset info_queued)
     = [ev_mutex_lock] ++ loop
       ++ [ev_queue_post_flush; ev_pool_flush; ev_mutex_unlock]
     /\ omap ev_deallocated loop = [11%nat]
     /\ omap ev_freed loop = [11%nat]
     /\ omap ev_unlinked loop = [11%nat; 12%nat])
  /\ fst (bus1_peer_info_reset info_queued)
     = mk_peer_info (Some 1000) (mk_pool 4096 []) (mk_queue rb_nil) [] [] 0.
Proof.
  destruct (info_reset_trace info_queued)
    as ((loop & Htrace & Hdealloc & Hfree & _ & Hall & _) & _ & Hstate & _).
  split; [| exact Hstate].
  exists loop. split; [exact Htrace |]. split; [exact Hdealloc |].
  split; [exact Hfree |]. apply Hall. repeat constructor.
Defined.

Example info_reset_queued :
  bus1_peer_info_reset info_queued
  = (mk_peer_info (Some 1000) (mk_pool 4096 []) (mk_queue rb_nil) [] [] 0,
     [ev_mutex_lock;
      ev_rb_clear_node 11%nat; ev_message_deallocate 11%nat;
      ev_message_free 11%nat;
      ev_rb_clear_node 12%nat;
      ev_queue_post_flush; ev_pool_flush; ev_mutex_unlock]).
Proof. reflexivity. Qed.

(** ** RESOLVE *)

(** Whatever the state of the owner, a name found in the index makes the
    walk end with a node, and RESOLVE then reports what [put_user]
    reports. *)
Lemma resolve_found e peers domain param owner peer :
  resolve_flags param = 0 ->
  resolve_id param = 0 ->
  2 <= Z.of_nat (length (resolve_name param)) <= BUS1_NAME_MAX_SIZE ->
  last_byte_is_nul (resolve_name param) = true ->
  domain_map_names domain
    !! take (strnlen (resolve_name param)) (resolve_name param) = Some owner ->
  peers !! owner = Some peer ->
  bus1_peer_ioctl_resolve e peers domain (inr param)
  = Some (if env_put_user e 0%nat then (0, [ev_put_user 0]) else (- EFAULT, [])).
Proof.
  intros Hflags Hid Hlen Hnul Hname Hpeer. unfold bus1_peer_ioctl_resolve.
  rewrite Hflags, Hid, Hnul. simpl.
  destruct (Z.ltb_spec (Z.of_nat (length (resolve_name param))) 2); [lia |].
  destruct (Z.ltb_spec BUS1_NAME_MAX_SIZE
                       (Z.of_nat (length (resolve_name param)))); [lia |].
  simpl.
  assert (Hwalk : resolve_walk peers domain param = Some (Some 0)).
  { unfold resolve_walk. rewrite Hname. simpl. rewrite Hpeer. simpl.
    rewrite Hid. by destruct (bus1_active_is_active (peer_active peer)). }
  assert (Hloop : resolve_loop (env_seq_retry e) peers domain param
                  = Some (Some 0)).
  { destruct (env_seq_retry e); simpl; by rewrite Hwalk. }
  rewrite Hloop. simpl. by destruct (env_put_user e 0%nat).
Qed.

(** C2 fails on the code: the name "x" is in the index and its owner is
    DEACTIVATING, yet RESOLVE("x") returns 0 and writes an id instead of
    returning NotFound. *)
Theorem resolve_deactivating_owner_succeeds :
  domain_map_names domain_x !! name_x = Some 7%nat
  /\ (peer_active <$> peers_x !! 7%nat) = Some ACTIVE_DEACTIVATING
  /\ bus1_peer_ioctl_resolve env_ok peers_x domain_x
       (inr (mk_cmd_resolve 0 0 (name_x ++ [Ascii.zero])))
     = Some (0, [ev_put_user 0]).
Proof. repeat split; reflexivity. Qed.

(** A name that is not in the index is not found. *)
Lemma resolve_missing e peers domain param :
  resolve_flags param = 0 ->
  resolve_id param = 0 ->
  domain_map_names domain
    !! take (strnlen (resolve_name param)) (resolve_name param) = None ->
  exists r, bus1_peer_ioctl_resolve e peers domain (inr param) = Some (r, [])
            /\ (r = - ENXIO \/ r = - EINVAL).
Proof.
  intros Hflags Hid Hname. unfold bus1_peer_ioctl_resolve.
  rewrite Hflags, Hid. simpl.
  destruct (_ || _); [eauto |].
  destruct (negb _); [eauto |].
  assert (Hwalk : resolve_walk peers domain param = Some None).
  { unfold resolve_walk. by rewrite Hname. }
  assert (Hloop : resolve_loop (env_seq_retry e) peers domain param
                  = Some None).
  { induction (env_seq_retry e) as [| k IH]; simpl; rewrite Hwalk; simpl;
      [reflexivity | exact IH]. }
  rewrite Hloop. simpl. eauto.
Qed.

(** ** CONNECT on a connected peer *)

(** Scenario "reconnect mismatch" on peer 7, connected with pool size 4096
    and the names "a" and "b". *)
Example reconnect_same :
  bus1_peer_connect_new env_ok 7%nat peer_ab domain_ab 1000
    (mk_cmd_connect BUS1_CONNECT_FLAG_PEER 4096 (nulstr [name_a; name_b]))
  = Some (- EISCONN, peer_ab, domain_ab, []).
Proof. reflexivity. Qed.

Example reconnect_other_pool :
  bus1_peer_connect_new env_ok 7%nat peer_ab domain_ab 1000
    (mk_cmd_connect BUS1_CONNECT_FLAG_PEER 8192 (nulstr [name_a; name_b]))
  = Some (- EREMCHG, peer_ab, domain_ab, []).
Proof. reflexivity. Qed.

Example reconnect_other_names :
  bus1_peer_connect_new env_ok 7%nat peer_ab domain_ab 1000
    (mk_cmd_connect BUS1_CONNECT_FLAG_PEER 4096 (nulstr [name_a; name_x]))
  = Some (- EREMCHG, peer_ab, domain_ab, []).
Proof. reflexivity. Qed.

Example connect_ab :
  bus1_peer_connect_new env_ok 7%nat bus1_peer_new domain_empty 1000
    (mk_cmd_connect BUS1_CONNECT_FLAG_PEER 4096 (nulstr [name_a; name_b]))
  = Some (0, peer_ab, domain_ab, []).
Proof. vm_compute. reflexivity. Qed.

(** C1 fails on the code: peer 7 is connected with the names "a" and "b";
    a CONNECT(PEER) with the same pool size and the name list "a", "a",
    whose names are not the peer's name set, returns AlreadyConnected
    where RemoteChanged is due. *)
Theorem reconnect_repeated_name_accepted :
  peer_name_list peer_ab = [name_b; name_a]
  /\ ~ same_names [name_a; name_a] (peer_name_list peer_ab)
  /\ bus1_peer_connect_new env_ok 7%nat peer_ab domain_ab 1000
       (mk_cmd_connect BUS1_CONNECT_FLAG_PEER 4096 (nulstr [name_a; name_a]))
     = Some (- EISCONN, peer_ab, domain_ab, []).
Proof.
  split; [reflexivity |]. split; [| reflexivity].
  intros Hsame. specialize (Hsame name_b). destruct Hsame as [_ Hsame].
  specialize (Hsame (list_elem_of_here _ _)).
  apply elem_of_cons in Hsame as [Hsame | Hsame]; [discriminate Hsame |].
  apply elem_of_cons in Hsame as [Hsame | Hsame]; [discriminate Hsame |].
  by apply not_elem_of_nil in Hsame.
Qed.

(** ** The name index: linking and unlinking *)

Lemma name_remove_unlinked peer_name domain :
  pn_unlinked peer_name ->
  bus1_peer_name_remove peer_name domain = (peer_name, domain).
Proof. unfold bus1_peer_name_remove, pn_unlinked. by intros ->. Qed.

Lemma unlink_names_unlinked names domain :
  Forall pn_unlinked names ->
  connect_unlink_names names domain = (names, domain).
Proof.
  induction 1 as [| peer_name next Hpn _ IH]; [reflexivity |].
  simpl. by rewrite name_remove_unlinked, IH.
Qed.

Lemma name_remove_commute a b domain :
  snd (bus1_peer_name_remove a (snd (bus1_peer_name_remove b domain)))
  = snd (bus1_peer_name_remove b (snd (bus1_peer_name_remove a domain))).
Proof.
  unfold bus1_peer_name_remove.
  destruct (pn_linked a), (pn_linked b); simpl; try reflexivity.
  by rewrite delete_delete.
Qed.

Lemma name_remove_fst peer_name d1 d2 :
  fst (bus1_peer_name_remove peer_name d1)
  = fst (bus1_peer_name_remove peer_name d2).
Proof. unfold bus1_peer_name_remove. by destruct (pn_linked peer_name). Qed.

Lemma unlink_names_after_remove names peer_name domain :
  connect_unlink_names names (snd (bus1_peer_name_remove peer_name domain))
  = (fst (connect_unlink_names names domain),
     snd (bus1_peer_name_remove peer_name
            (snd (connect_unlink_names names domain)))).
Proof.
  revert domain. induction names as [| a next IH]; intros domain;
    [reflexivity |].
  simpl.
  destruct (bus1_peer_name_remove a
              (snd (bus1_peer_name_remove peer_name domain)))
    as [a1 d1] eqn:H1.
  destruct (bus1_peer_name_remove a domain) as [a2 d2] eqn:H2.
  assert (Ha : a1 = a2).
  { change a1 with (fst (a1, d1)). rewrite <- H1.
    change a2 with (fst (a2, d2)). rewrite <- H2. apply name_remove_fst. }
  assert (Hd : d1 = snd (bus1_peer_name_remove peer_name d2)).
  { change d1 with (snd (a1, d1)). rewrite <- H1.
    change d2 with (snd (a2, d2)). rewrite <- H2. apply name_remove_commute. }
  subst a1 d1. rewrite IH.
  destruct (connect_unlink_names next d2) as [next' d3]. reflexivity.
Qed.

Lemma name_add_remove peer_name domain peer_name' domain' :
  pn_unlinked peer_name ->
  is_u64 (domain_n_names domain) ->
  bus1_peer_name_add peer_name domain = (0, peer_name', domain') ->
  bus1_peer_name_remove peer_name' domain' = (peer_name, domain)
  /\ is_u64 (domain_n_names domain').
Proof.
  unfold bus1_peer_name_add, pn_unlinked. intros Hpn Hn. rewrite Hpn.
  destruct (domain_map_names domain !! pn_name peer_name) eqn:Hlookup;
    [discriminate |].
  intros Heq. injection Heq as Hpn' Hd'. subst peer_name' domain'.
  unfold bus1_peer_name_remove. simpl. split.
  - rewrite delete_insert_eq, delete_id by exact Hlookup.
    rewrite wrap64_succ_pred by exact Hn.
    destruct peer_name, domain. simpl in *. by subst.
  - apply wrap64_range.
Qed.

Lemma name_add_result peer_name domain :
  pn_unlinked peer_name ->
  (domain_map_names domain !! pn_name peer_name = None
   /\ exists peer_name' domain',
        bus1_peer_name_add peer_name domain = (0, peer_name', domain')
        /\ domain_map_names domain'
           = <[pn_name peer_name := pn_peer peer_name]>
               (domain_map_names domain))
  \/ (domain_map_names domain !! pn_name peer_name <> None
      /\ bus1_peer_name_add peer_name domain = (- EISNAM, peer_name, domain)).
Proof.
  unfold bus1_peer_name_add, pn_unlinked. intros ->.
  destruct (domain_map_names domain !! pn_name peer_name) eqn:Hlookup.
  - right. split; [discriminate | reflexivity].
  - left. split; [reflexivity |]. eauto.
Qed.

(** When linking stops at a collision, the loop at [error_unlock] puts the
    domain back the way it was. *)
Lemma link_names_failure_unwinds names :
  forall domain r names' domain',
    Forall pn_unlinked names ->
    is_u64 (domain_n_names domain) ->
    connect_link_names names domain = (r, names', domain') ->
    r < 0 ->
    r = - EISNAM /\ connect_unlink_names names' domain' = (names, domain).
Proof.
  induction names as [| peer_name next IH];
    intros domain r names' domain' Hnames Hn Hlink Hr; simpl in Hlink.
  - injection Hlink as <- _ _. lia.
  - apply Forall_cons in Hnames as [Hpn Hnext].
    destruct (name_add_result peer_name domain Hpn)
      as [(_ & pn1 & d1 & Hadd & _) | (_ & Hadd)];
      rewrite Hadd in Hlink.
    + simpl in Hlink.
      destruct (connect_link_names next d1) as [[r1 next1] d2] eqn:Hrec.
      injection Hlink as <- <- <-.
      destruct (name_add_remove _ _ _ _ Hpn Hn Hadd) as [Hremove Hn1].
      destruct (IH d1 r1 next1 d2 Hnext Hn1 Hrec Hr) as [-> Hunlink].
      split; [reflexivity |].
      simpl.
      destruct (bus1_peer_name_remove pn1 d2) as [pn2 d3] eqn:Hrm.
      assert (Hpn2 : pn2 = peer_name).
      { change pn2 with (fst (pn2, d3)). rewrite <- Hrm.
        rewrite (name_remove_fst pn1 d2 d1), Hremove. reflexivity. }
      assert (Hd3 : d3 = snd (bus1_peer_name_remove pn1 d2)) by by rewrite Hrm.
      rewrite Hd3, unlink_names_after_remove, Hunlink. simpl.
      by rewrite Hremove, Hpn2.
    + simpl in Hlink. injection Hlink as <- <- <-.
      split; [reflexivity |].
      by apply unlink_names_unlinked, Forall_cons.
Qed.

(** Linking succeeds exactly when the candidate names are pairwise
    distinct and none of them is in the index. *)
Lemma link_names_collision names :
  forall domain,
    Forall pn_unlinked names ->
    ~ (NoDup (map pn_name names)
       /\ Forall (fun pn => domain_map_names domain !! pn_name pn = None)
                 names) ->
    fst (fst (connect_link_names names domain)) = - EISNAM.
Proof.
  induction names as [| peer_name next IH]; intros domain Hnames Hcoll.
  - exfalso. apply Hcoll. split; constructor.
  - apply Forall_cons in Hnames as [Hpn Hnext]. simpl.
    destruct (name_add_result peer_name domain Hpn)
      as [(Hfree & pn1 & d1 & Hadd & Hmap) | (_ & Hadd)];
      rewrite Hadd; [| reflexivity].
    simpl.
    destruct (connect_link_names next d1) as [[r1 next1] d2] eqn:Hrec.
    simpl. change r1 with (fst (fst (r1, next1, d2))). rewrite <- Hrec.
    apply IH; [exact Hnext |].
    intros [Hnodup Hfree']. apply Hcoll. rewrite Hmap in Hfree'.
    assert (Hnotin : pn_name peer_name ∉ map pn_name next).
    { intros Hin. apply list_elem_of_fmap in Hin as (pn & Heq & Hin).
      rewrite Forall_forall in Hfree'. specialize (Hfree' pn Hin).
      rewrite Heq, lookup_insert_eq in Hfree'. discriminate. }
    split.
    + simpl. apply NoDup_cons. split; assumption.
    + apply Forall_cons. split; [exact Hfree |].
      rewrite Forall_forall in Hfree' |- *. intros pn Hin.
      specialize (Hfree' pn Hin).
      apply lookup_insert_None in Hfree'. tauto.
Qed.

(** ** Parsing the name blob *)

Lemma strnlen_le s : (strnlen s <= length s)%nat.
Proof. induction s as [| c s IH]; simpl; [lia |]. destruct (is_nul c); simpl; lia. Qed.

Lemma strnlen_name name rest :
  Forall (fun c => is_nul c = false) name ->
  strnlen (name ++ Ascii.zero :: rest) = length name.
Proof.
  induction 1 as [| c name Hc _ IH]; [reflexivity |].
  simpl. by rewrite Hc, IH.
Qed.

Lemma nulstr_cons name names :
  nulstr (name :: names) = name ++ Ascii.zero :: nulstr names.
Proof. unfold nulstr. simpl. by rewrite <- app_assoc. Qed.

(** One round of a blob loop on a well-formed blob: the length test
    passes, the name is the first chunk, the rest follows it. *)
Lemma nulstr_round name names :
  name_ok name ->
  ((strnlen (nulstr (name :: names)) =? 0)%nat
   || (strnlen (nulstr (name :: names))
       =? length (nulstr (name :: names)))%nat) = false
  /\ take (strnlen (nulstr (name :: names))) (nulstr (name :: names)) = name
  /\ drop (S (strnlen (nulstr (name :: names)))) (nulstr (name :: names))
     = nulstr names
  /\ (length (nulstr names) < length (nulstr (name :: names)))%nat.
Proof.
  intros [Hne Hnz]. rewrite nulstr_cons, strnlen_name by exact Hnz.
  repeat split.
  - apply orb_false_iff. split; apply Nat.eqb_neq.
    + destruct name; [congruence | simpl; lia].
    + rewrite length_app. simpl. lia.
  - by rewrite take_app_length.
  - change (name ++ Ascii.zero :: nulstr names)
      with (name ++ [Ascii.zero] ++ nulstr names).
    rewrite app_assoc.
    replace (S (length name)) with (length (name ++ [Ascii.zero]))
      by (rewrite length_app; simpl; lia).
    by rewrite drop_app_length.
  - rewrite length_app. simpl. lia.
Qed.

(** The allocation loop never runs out of rounds when it is given the
    length of the blob. *)
Lemma alloc_names_total e self :
  forall fuel name names,
    (length name <= fuel)%nat ->
    is_Some (connect_alloc_names fuel e self name names).
Proof.
  induction fuel as [| fuel IH]; intros name names Hfuel.
  - destruct name; [by eexists | simpl in Hfuel; lia].
  - destruct name as [| c name]; [by eexists |].
    cbn [connect_alloc_names].
    destruct (_ || _); [by eexists |].
    destruct (bus1_peer_name_new _ _ _); [by eexists |].
    apply IH. rewrite length_drop. simpl in Hfuel. simpl. lia.
Qed.

Lemma name_new_unlinked e name self peer_name :
  bus1_peer_name_new e name self = inr peer_name ->
  pn_unlinked peer_name /\ pn_name peer_name = name.
Proof.
  unfold bus1_peer_name_new.
  destruct (_ || _); [discriminate |].
  destruct (negb _); [discriminate |].
  by intros [= <-].
Qed.

Lemma alloc_names_unlinked e self :
  forall fuel name names r names',
    Forall pn_unlinked names ->
    connect_alloc_names fuel e self name names = Some (r, names') ->
    Forall pn_unlinked names'.
Proof.
  induction fuel as [| fuel IH]; intros name names r names' Hnames Halloc.
  - destruct name; [| discriminate]. by injection Halloc as _ <-.
  - destruct name as [| c name]; [by injection Halloc as _ <- |].
    cbn [connect_alloc_names] in Halloc.
    destruct (_ || _); [by injection Halloc as _ <- |].
    destruct (bus1_peer_name_new _ _ _) as [r1 | peer_name] eqn:Hnew;
      [by injection Halloc as _ <- |].
    apply (IH _ _ _ _ (Forall_cons_2 _ _ _
                         (proj1 (name_new_unlinked _ _ _ _ Hnew)) Hnames)
              Halloc).
Qed.

(** On a well-formed blob whose names fit and can be allocated, the
    loop builds one unlinked node per name, the last name first. *)
Lemma alloc_names_nulstr e self names :
  forall fuel acc,
    Forall name_ok names ->
    Forall (fun name => Z.of_nat (length name) + 1 <= BUS1_NAME_MAX_SIZE
                        /\ env_kmalloc_name e name = true) names ->
    (length (nulstr names) <= fuel)%nat ->
    connect_alloc_names fuel e self (nulstr names) acc
    = Some (0, reverse (map (mk_peer_name self false) names) ++ acc).
Proof.
  induction names as [| name names IH]; intros fuel acc Hok Henv Hfuel.
  - by destruct fuel.
  - apply Forall_cons in Hok as [Hname Hok].
    apply Forall_cons in Henv as [[Hlen Hmem] Henv].
    destruct (nulstr_round name names Hname) as (Htest & Htake & Hdrop & Hlt).
    destruct fuel as [| fuel]; [lia |].
    destruct (nulstr (name :: names)) as [| c blob] eqn:Hblob;
      [simpl in Hlt; lia |].
    cbn [connect_alloc_names]. rewrite Htest, Htake, Hdrop.
    unfold bus1_peer_name_new. rewrite Hmem.
    destruct Hname as [Hne _].
    destruct (Z.ltb_spec (Z.of_nat (length name) + 1) 2).
    { destruct name; [congruence | simpl in *; lia]. }
    destruct (Z.ltb_spec BUS1_NAME_MAX_SIZE (Z.of_nat (length name) + 1));
      [lia |].
    simpl in Hfuel, Hlt.
    simpl. rewrite IH by (try assumption; lia).
    simpl. rewrite reverse_cons, <- app_assoc. reflexivity.
Qed.

(** ** CONNECT on a new peer *)

Lemma names_check_loop_total peer :
  forall fuel names n_names n_names_old,
    (length names <= fuel)%nat ->
    is_Some (names_check_loop fuel peer names n_names n_names_old).
Proof.
  induction fuel as [| fuel IH]; intros names n_names n_names_old Hfuel.
  - destruct names; [by eexists | simpl in Hfuel; lia].
  - destruct names as [| c names]; [by eexists |].
    cbn [names_check_loop].
    destruct (_ || _); [by eexists |].
    destruct (_ <? 0); [by eexists |].
    apply IH. rewrite length_drop. simpl in Hfuel. simpl. lia.
Qed.

Lemma names_check_total peer names :
  is_Some (bus1_peer_names_check peer names).
Proof.
  unfold bus1_peer_names_check.
  destruct names, (peer_names peer);
    try (by eexists); by apply names_check_loop_total.
Qed.

(** [bus1_peer_connect_new] returns: the rounds it is given suffice. *)
Lemma connect_new_total e self peer domain uid param :
  is_Some (bus1_peer_connect_new e self peer domain uid param).
Proof.
  unfold bus1_peer_connect_new.
  destruct (negb _).
  - destruct (peer_info peer); [| by eexists].
    destruct (negb _); [by eexists |].
    destruct (names_check_total peer (connect_names param)) as [r ->].
    simpl. destruct (r <? 0); by eexists.
  - destruct (peer_info peer); [by eexists |].
    destruct (bus1_peer_info_new e param) as [[r | info] evs]; [by eexists |].
    destruct (_ <? 0); [by eexists |].
    destruct (alloc_names_total e self (connect_names_len param)
                (connect_names param) []) as [[r names] ->]; [done |].
    simpl. destruct (r <? 0); [by eexists |].
    destruct (connect_link_names names domain) as [[r1 names1] d1].
    destruct (r1 <? 0); [| by eexists].
    destruct (connect_unlink_names names1 d1). by eexists.
Qed.

(** A CONNECT(PEER or MONITOR) that fails leaves the peer and the domain
    as they were. *)
Lemma connect_new_failure_unchanged e self peer domain uid param
    r peer' domain' evs :
  is_u64 (domain_n_names domain) ->
  bus1_peer_connect_new e self peer domain uid param
  = Some (r, peer', domain', evs) ->
  r < 0 ->
  peer' = peer /\ domain' = domain.
Proof.
  intros Hn. unfold bus1_peer_connect_new.
  destruct (negb _).
  - destruct (peer_info peer); [| by intros [= <- <- <- <-]].
    destruct (negb _); [by intros [= <- <- <- <-] |].
    destruct (bus1_peer_names_check peer (connect_names param)) as [r0 |];
      [| discriminate].
    simpl. destruct (r0 <? 0); by intros [= <- <- <- <-].
  - destruct (peer_info peer); [by intros [= <- <- <- <-] |].
    destruct (bus1_peer_info_new e param) as [[r0 | info] evs0];
      [by intros [= <- <- <- <-] |].
    destruct (_ <? 0); [by intros [= <- <- <- <-] |].
    destruct (connect_alloc_names _ _ _ _ _) as [[r0 names] |] eqn:Halloc;
      [| discriminate].
    simpl. destruct (r0 <? 0); [by intros [= <- <- <- <-] |].
    destruct (connect_link_names names domain) as [[r1 names1] d1] eqn:Hlink.
    destruct (Z.ltb_spec r1 0) as [Hr1 | Hr1].
    + apply alloc_names_unlinked in Halloc; [| constructor].
      destruct (link_names_failure_unwinds _ _ _ _ _ Halloc Hn Hlink Hr1)
        as [_ ->].
      by intros [= <- <- <- <-].
    + intros [= <- <- <- <-]. lia.
Qed.

(** C3: a CONNECT(PEER or MONITOR) on a NEW peer that gets as far as the
    name index (valid pool size, well-formed names, every allocation and
    the user lookup succeed) and finds one of its names taken, by another
    peer or by an earlier name of its own list, returns NameExists; the
    domain is returned as it was, so the names linked before the
    collision are gone from the index again and n_names has its old
    value, and the peer is returned as it was: NEW, without info, with the
    names and the list membership it had, which are none. *)
Theorem connect_new_collision_unwinds e self peer domain uid flags pool
    names :
  bus1_active_is_new (peer_active peer) = true ->
  peer_info peer = None ->
  is_u64 (domain_n_names domain) ->
  connect_prepares e pool names ->
  ~ (NoDup names
     /\ Forall (fun name => domain_map_names domain !! name = None) names) ->
  exists evs,
    bus1_peer_connect_new e self peer domain uid
      (mk_cmd_connect flags pool (nulstr names))
    = Some (- EISNAM, peer, domain, evs).
Proof.
  intros Hnew Hinfo Hn (Hpool & Halign & Hmem & Hcreate & Huser & Hok & Henv)
         Hcoll.
  destruct (connect_new_total e self peer domain uid
              (mk_cmd_connect flags pool (nulstr names)))
    as [[[[r peer'] domain'] evs] Hres].
  assert (Hr : r = - EISNAM).
  { revert Hres. unfold bus1_peer_connect_new, bus1_peer_info_new.
    rewrite Hnew, Hinfo. simpl.
    apply Z.eqb_neq in Hpool. rewrite Hpool, Halign, Hmem. simpl.
    destruct (Z.ltb_spec (env_pool_create e) 0); [lia |].
    destruct (Z.ltb_spec (env_user_acquire e) 0); [lia |].
    unfold connect_names_len. simpl connect_names.
    rewrite (alloc_names_nulstr e self names _ [] Hok Henv) by lia.
    rewrite app_nil_r. simpl.
    set (nodes := reverse (map (mk_peer_name self false) names)).
    assert (Hnodes : Forall pn_unlinked nodes).
    { apply Forall_reverse, Forall_fmap, Forall_true. reflexivity. }
    assert (Hnames : map pn_name nodes = reverse names).
    { unfold nodes. rewrite <- fmap_reverse.
      change (map pn_name (map (mk_peer_name self false) (reverse names)))
        with (pn_name <$> (mk_peer_name self false <$> reverse names)).
      rewrite <- list_fmap_compose. apply list_fmap_id. }
    pose proof (link_names_collision nodes domain Hnodes) as Hlink.
    destruct (connect_link_names nodes domain) as [[r1 names1] d1].
    simpl in Hlink. rewrite Hlink.
    - simpl. destruct (connect_unlink_names names1 d1). by intros [= <- _ _ _].
    - intros [Hnodup Hfree]. apply Hcoll. split.
      + rewrite Hnames in Hnodup. by rewrite reverse_Permutation in Hnodup.
      + apply Forall_reverse.
        rewrite <- Hnames.
        apply Forall_fmap. exact Hfree. }
  subst r.
  destruct (connect_new_failure_unchanged _ _ _ _ _ _ _ _ _ _ Hn Hres)
    as [-> ->]; [unfold EISNAM; lia |].
  eauto.
Qed.

Lemma connect_new_collision_unwinds_witness :
  exists evs,
    bus1_peer_connect_new env_ok 8%nat bus1_peer_new domain_dup 1000
      (mk_cmd_connect BUS1_CONNECT_FLAG_PEER 4096
                      (nulstr [name_dup; name_x]))
    = Some (- EISNAM, bus1_peer_new, domain_dup, evs).
Proof.
  apply (connect_new_collision_unwinds env_ok 8%nat bus1_peer_new domain_dup
           1000 BUS1_CONNECT_FLAG_PEER 4096 [name_dup; name_x]).
  - reflexivity.
  - reflexivity.
  - unfold is_u64, u64_max. simpl. lia.
  - unfold connect_prepares, name_ok. simpl.
    repeat split; try discriminate; try lia; repeat constructor;
      try discriminate; simpl; lia.
  - intros [_ Hfree]. apply Forall_cons in Hfree as [Hfree _].
    vm_compute in Hfree. discriminate Hfree.
Defined.

(** ** Teardown *)

Lemma count_events_app P evs1 evs2 :
  count_events P (evs1 ++ evs2)
  = (count_events P evs1 + count_events P evs2)%nat.
Proof. induction evs1 as [| ev evs1 IH]; simpl; [reflexivity | lia]. Qed.

Lemma count_events_none P evs :
  Forall (fun ev => P ev = false) evs -> count_events P evs = O.
Proof. induction 1 as [| ev evs Hev _ IH]; simpl; [| rewrite Hev]; done. Qed.

Lemma info_reset_loop_counts self nodes :
  cleanups self (info_reset_loop nodes) = O
  /\ info_frees (info_reset_loop nodes) = O.
Proof.
  pose proof (info_reset_loop_events nodes) as Hloop.
  split; apply count_events_none; eapply Forall_impl; try exact Hloop;
    unfold is_Some; intros ev [-> | [[a H] | [[a H] | [a H]]]];
    try reflexivity; by destruct ev.
Qed.

Lemma info_reset_counts self info :
  cleanups self (snd (bus1_peer_info_reset info)) = O
  /\ info_frees (snd (bus1_peer_info_reset info)) = O.
Proof.
  destruct (info_reset_loop_counts self
              (rb_postorder (queue_messages (info_queue info)))) as [Hc Hf].
  unfold cleanups, info_frees in *. unfold bus1_peer_info_reset.
  cbn [snd]. rewrite !count_events_app, Hc, Hf. split; reflexivity.
Qed.

Lemma info_free_counts self info :
  cleanups self (bus1_peer_info_free info) = O
  /\ (info_frees (bus1_peer_info_free info) <= 1)%nat.
Proof.
  unfold cleanups, info_frees.
  destruct info as [info |]; [| split; simpl; [reflexivity | lia]].
  unfold bus1_peer_info_free.
  destruct (info_reset_counts self info) as [Hc Hf].
  unfold cleanups, info_frees in Hc, Hf.
  rewrite !count_events_app, Hc, Hf.
  destruct (info_user info); simpl; split; lia.
Qed.

Lemma cleanup_names_counts self names domain :
  cleanups self (snd (cleanup_names names domain)) = O
  /\ info_frees (snd (cleanup_names names domain)) = O.
Proof.
  revert domain. induction names as [| peer_name next IH]; intros domain;
    [split; reflexivity |].
  simpl. destruct (bus1_peer_name_remove peer_name domain) as [pn d].
  specialize (IH d). destruct (cleanup_names next d) as [d' evs].
  simpl in *. unfold cleanups, info_frees, bus1_peer_name_free in *.
  rewrite !count_events_app. destruct IH as [-> ->].
  destruct (pn_linked pn); simpl; split; reflexivity.
Qed.

(** The callback works on the peer at most once per invocation and gives
    no peer info back. *)
Lemma peer_cleanup_counts self peer domain :
  let '(_, _, evs) := bus1_peer_cleanup self (peer, domain, []) in
  (cleanups self evs <= 1)%nat /\ info_frees evs = O.
Proof.
  unfold bus1_peer_cleanup, cleanups, info_frees.
  destruct (peer_info peer) as [info |];
    [| split; simpl; [lia | reflexivity]].
  pose proof (cleanup_names_counts self (peer_names peer) domain) as Hnames.
  destruct (cleanup_names (peer_names peer) domain) as [d evs].
  simpl in Hnames. destruct Hnames as [Hc Hf].
  unfold cleanups, info_frees in *.
  rewrite !count_events_app, Hc, Hf. simpl. rewrite Nat.eqb_refl.
  destruct (info_user info); simpl; split; lia.
Qed.

(** The two outcomes of the cleanup of the active reference: it does not
    fire and nothing changes, or it fires, the callback runs, and the
    reference is DEAD. *)
Lemma peer_active_cleanup_cases self peer domain :
  (peer_active peer <> ACTIVE_DEACTIVATING
   /\ peer_active_cleanup self peer domain = (false, peer, domain, []))
  \/ (peer_active peer = ACTIVE_DEACTIVATING
      /\ exists p d evs,
           bus1_peer_cleanup self (peer, domain, []) = (p, d, evs)
           /\ peer_active_cleanup self peer domain
              = (true,
                 mk_peer ACTIVE_DEAD (peer_info p) (peer_names p)
                         (peer_link_domain p),
                 d, evs)).
Proof.
  unfold peer_active_cleanup, bus1_active_cleanup.
  destruct (peer_active peer) eqn:Hactive;
    try (left; split; [discriminate |]; destruct peer; simpl in *;
         by subst).
  right. split; [reflexivity |].
  destruct (bus1_peer_cleanup self (peer, domain, [])) as [[p d] evs].
  by eexists _, _, _.
Qed.

(** A step on a DEAD peer changes nothing and calls nobody. *)
Lemma run_step_dead self step st :
  is_dead st -> run_step self step st = (fst st, snd st, []).
Proof.
  destruct st as [peer domain]. unfold is_dead. simpl. intros Hdead.
  destruct (peer_active_cleanup_cases self peer domain)
    as [[_ Hcl] | [Hactive _]]; [| congruence].
  destruct step; simpl.
  - unfold teardown_deactivate. rewrite Hdead. simpl.
    destruct peer; simpl in *; by subst.
  - unfold teardown_locked. by rewrite Hcl.
  - unfold bus1_peer_teardown_domain. by rewrite Hcl.
Qed.

(** A step either calls nobody, or it is the one in which the cleanup
    fires, and then the peer is DEAD. *)
Lemma run_step_fires self step st :
  exists peer domain evs,
    run_step self step st = (peer, domain, evs)
    /\ (evs = []
        \/ (is_dead (peer, domain)
            /\ (cleanups self evs <= 1)%nat /\ (info_frees evs <= 1)%nat)).
Proof.
  destruct st as [peer domain].
  assert (Hfired : forall p d evs,
            bus1_peer_cleanup self (peer, domain, []) = (p, d, evs) ->
            (cleanups self (evs ++ bus1_peer_info_free (peer_info p)) <= 1)%nat
            /\ (info_frees (evs ++ bus1_peer_info_free (peer_info p)) <= 1)%nat).
  { intros p d evs Hcb.
    pose proof (peer_cleanup_counts self peer domain) as Hcount.
    rewrite Hcb in Hcount. destruct Hcount as [Hc Hf].
    destruct (info_free_counts self (peer_info p)) as [Hc' Hf'].
    unfold cleanups, info_frees in *. rewrite !count_events_app. lia. }
  destruct step; simpl.
  - eexists _, _, _. split; [reflexivity | by left].
  - unfold teardown_locked.
    destruct (peer_active_cleanup_cases self peer domain)
      as [[_ ->] | (_ & p & d & evs & Hcb & ->)].
    + eexists _, _, _. split; [reflexivity | by left].
    + eexists _, _, _. split; [reflexivity |]. right.
      split; [reflexivity |]. by apply (Hfired p d).
  - unfold bus1_peer_teardown_domain.
    destruct (peer_active_cleanup_cases self peer domain)
      as [[_ ->] | (_ & p & d & evs & Hcb & ->)].
    + eexists _, _, _. split; [reflexivity | by left].
    + eexists _, _, _. split; [reflexivity |]. right.
      split; [reflexivity |]. by apply (Hfired p d).
Qed.

Lemma run_steps_dead self steps :
  forall st, is_dead st -> run_steps self steps st = [].
Proof.
  induction steps as [| step steps IH]; intros st Hdead; [reflexivity |].
  simpl. rewrite run_step_dead by exact Hdead.
  destruct st as [peer domain]. simpl. by apply IH.
Qed.

Lemma run_steps_once self steps :
  forall st,
    (cleanups self (run_steps self steps st) <= 1)%nat
    /\ (info_frees (run_steps self steps st) <= 1)%nat.
Proof.
  induction steps as [| step steps IH]; intros st;
    [unfold cleanups, info_frees; split; simpl; lia |].
  simpl.
  destruct (run_step_fires self step st)
    as (peer & domain & evs & -> & [-> | (Hdead & Hc & Hf)]);
    [apply IH |].
  rewrite run_steps_dead by exact Hdead. by rewrite app_nil_r.
Qed.

(** A call on a DEAD peer comes too late. *)
Lemma run_call_dead self call st :
  is_dead st -> run_call self call st = late_call call st.
Proof.
  destruct st as [peer domain]. unfold is_dead. simpl. intros Hdead.
  assert (Hsame : teardown_deactivate peer = peer).
  { unfold teardown_deactivate. rewrite Hdead. simpl.
    destruct peer; simpl in *; by subst. }
  destruct (peer_active_cleanup_cases self peer domain)
    as [[_ Hcl] | [Hactive _]]; [| congruence].
  destruct call; simpl.
  - unfold bus1_peer_teardown, teardown_locked. by rewrite Hsame, Hcl.
  - unfold bus1_peer_teardown_domain. by rewrite Hcl.
Qed.

Lemma run_calls_dead self calls st :
  is_dead st ->
  run_calls self calls st = map (fun call => late_call call st) calls.
Proof.
  intros Hdead. induction calls as [| call calls IH]; [reflexivity |].
  simpl. rewrite run_call_dead by exact Hdead.
  destruct call; simpl; by rewrite IH.
Qed.

(** The first call leaves the peer DEAD, provided the domain honours the
    precondition of [bus1_peer_teardown_domain]. *)
Lemma run_call_first self call st :
  (call = call_teardown_domain ->
   bus1_active_is_deactivated (peer_active (fst st)) = true) ->
  is_dead (snd (fst (run_call self call st))).
Proof.
  destruct st as [peer domain]. simpl. intros Hpre.
  destruct call; simpl.
  - unfold bus1_peer_teardown, teardown_locked.
    destruct (peer_active_cleanup_cases self (teardown_deactivate peer)
                domain) as [[Hactive ->] | (_ & p & d & evs & _ & ->)];
      [| reflexivity].
    unfold is_dead. simpl. simpl in Hactive.
    by destruct (peer_active peer).
  - specialize (Hpre eq_refl). unfold bus1_peer_teardown_domain.
    destruct (peer_active_cleanup_cases self peer domain)
      as [[Hactive ->] | (_ & p & d & evs & _ & ->)]; [| reflexivity].
    unfold is_dead. simpl. by destruct (peer_active peer).
Qed.

(** C4: on one peer, in any sequence of the uninterrupted sections of
    [bus1_peer_teardown] and [bus1_peer_teardown_domain], whatever calls
    they belong to and however often they are repeated, the cleanup
    callback gets to work on the peer at most once and at most one peer
    info is given back.  And once a first call has returned (a
    domain-assisted one being made, as its contract demands, on a
    deactivated peer), every later [bus1_peer_teardown] returns
    AlreadyShutDown and every later [bus1_peer_teardown_domain] returns
    nothing, both leaving peer and domain alone and calling nobody. *)
Theorem teardown_cleanup_once self peer domain :
  (forall steps,
     (cleanups self (run_steps self steps (peer, domain)) <= 1)%nat
     /\ (info_frees (run_steps self steps (peer, domain)) <= 1)%nat)
  /\ (forall first later,
        (first = call_teardown_domain ->
         bus1_active_is_deactivated (peer_active peer) = true) ->
        let st := snd (fst (run_call self first (peer, domain))) in
        run_calls self later st = map (fun call => late_call call st) later).
Proof.
  split.
  - intros steps. apply run_steps_once.
  - intros first later Hpre. simpl.
    apply run_calls_dead, run_call_first. exact Hpre.
Qed.

Lemma teardown_cleanup_once_witness :
  run_calls 7%nat [call_teardown; call_teardown_domain]
    (snd (fst (run_call 7%nat call_teardown_domain
                 (peer_x_deactivating, domain_x))))
  = map (fun call =>
           late_call call
             (snd (fst (run_call 7%nat call_teardown_domain
                          (peer_x_deactivating, domain_x)))))
        [call_teardown; call_teardown_domain].
Proof.
  apply (proj2 (teardown_cleanup_once 7%nat peer_x_deactivating domain_x)
           call_teardown_domain [call_teardown; call_teardown_domain]).
  intros _. reflexivity.
Defined.

(** DISCONNECT of peer 7 undoes its CONNECT. *)
Example teardown_ab :
  bus1_peer_teardown 7%nat peer_ab domain_ab
  = (0, mk_peer ACTIVE_DEAD None [] false, domain_empty,
     [ev_cleanup 7%nat; ev_name_free name_b; ev_name_free name_a;
      ev_user_release 1000;
      ev_mutex_lock; ev_queue_post_flush; ev_pool_flush; ev_mutex_unlock;
      ev_queue_destroy; ev_pool_destroy; ev_quota_destroy; ev_kfree_info]).
Proof. vm_compute. reflexivity. Qed.

Example teardown_steps_ab :
  cleanups 7%nat
    (run_steps 7%nat
       [step_domain; step_deactivate; step_deactivate; step_domain;
        step_locked; step_locked; step_domain]
       (peer_ab, domain_ab)) = 1%nat.
Proof. vm_compute. reflexivity. Qed.

(** ** SEND *)

Lemma send_prepares_dispatch e param :
  send_prepares e param ->
  bus1_peer_ioctl_send e (inr param)
  = let exit := [ev_transaction_free (negb (env_transaction_in_buf e))] in
    if send_n_destinations param =? 1 then
      match env_get_user e 0%nat with
      | None => (- EFAULT, exit)
      | Some destination =>
        let r := env_commit_for_id e destination in
        if r <? 0
        then (r, ev_transaction_commit_for_id destination :: exit)
        else (0, ev_transaction_commit_for_id destination :: exit)
      end
    else
      let '(r, evs) :=
        send_loop e (Z.to_nat (send_n_destinations param)) 0%nat in
      if r <? 0 then (r, evs ++ exit)
      else (0, evs ++ ev_transaction_commit :: exit).
Proof.
  intros (Hflags & Hvecs & Hfds & Hp1 & Hp2 & Hp3 & Hp4 & Hnew).
  unfold bus1_peer_ioctl_send.
  rewrite Hflags, <- Hp1, <- Hp2, <- Hp3, <- Hp4, !Z.eqb_refl. simpl.
  destruct (Z.ltb_spec BUS1_VEC_MAX (send_n_vecs param)); [lia |].
  destruct (Z.ltb_spec BUS1_FD_MAX (send_n_fds param)); [lia |].
  destruct (Z.ltb_spec (env_transaction_new e) 0); [lia |].
  reflexivity.
Qed.

Lemma send_loop_fault e :
  forall k left i,
    (k < left)%nat ->
    env_get_user e (i + k) = None ->
    (forall j, (j < k)%nat ->
       exists destination,
         env_get_user e (i + j) = Some destination
         /\ 0 <= env_instantiate_for_id e (i + j) destination) ->
    exists evs,
      send_loop e left i = (- EFAULT, evs)
      /\ length evs = k /\ Forall ev_is_instantiate evs.
Proof.
  induction k as [| k IH]; intros left i Hlt Hfault Hbefore.
  - destruct left as [| left]; [lia |]. simpl.
    rewrite Nat.add_0_r in Hfault. rewrite Hfault.
    exists []. repeat split. constructor.
  - destruct left as [| left]; [lia |]. simpl.
    destruct (Hbefore O ltac:(lia)) as (destination & Hget & Hinst).
    rewrite Nat.add_0_r in Hget, Hinst. rewrite Hget.
    destruct (Z.ltb_spec (env_instantiate_for_id e i destination) 0);
      [lia |].
    destruct (IH left (S i)) as (evs & -> & Hlen & Hevs).
    + lia.
    + by replace (S i + k)%nat with (i + S k)%nat by lia.
    + intros j Hj. replace (S i + j)%nat with (i + S j)%nat by lia.
      apply Hbefore. lia.
    + eexists. split; [reflexivity |]. split; [simpl; lia |].
      constructor; [by eexists | exact Hevs].
Qed.

(** C8: in a SEND that gets as far as the destination ids, whatever its
    flags (IgnoreUnknown set or not), a fault in the copy of a destination
    id makes the call return Fault: on the unicast path, and on the
    multicast path at whichever index [k] the copy faults.  The trace then
    holds the [k] instantiations made before the fault and ends with the
    destruction of the transaction; no commit is in it. *)
Theorem send_destination_fault e param :
  send_prepares e param ->
  (send_n_destinations param = 1 ->
   env_get_user e 0%nat = None ->
   bus1_peer_ioctl_send e (inr param)
   = (- EFAULT, [ev_transaction_free (negb (env_transaction_in_buf e))]))
  /\ (forall k,
        send_n_destinations param <> 1 ->
        (k < Z.to_nat (send_n_destinations param))%nat ->
        send_faults_at e k ->
        exists evs,
          bus1_peer_ioctl_send e (inr param)
          = (- EFAULT,
             evs ++ [ev_transaction_free (negb (env_transaction_in_buf e))])
          /\ length evs = k
          /\ Forall ev_is_instantiate evs).
Proof.
  intros Hprep. rewrite (send_prepares_dispatch e param Hprep). simpl. split.
  - intros -> ->. reflexivity.
  - intros k Hmulti Hk [Hfault Hbefore].
    apply Z.eqb_neq in Hmulti. rewrite Hmulti.
    destruct (send_loop_fault e k (Z.to_nat (send_n_destinations param)) O
                Hk Hfault Hbefore) as (evs & -> & Hlen & Hevs).
    exists evs. by repeat split.
Qed.

Lemma send_destination_fault_witness :
  exists evs,
    bus1_peer_ioctl_send env_fault_at_2 (inr send_to_5)
    = (- EFAULT, evs ++ [ev_transaction_free false])
    /\ length evs = 2%nat
    /\ Forall ev_is_instantiate evs.
Proof.
  assert (Hprep : send_prepares env_fault_at_2 send_to_5).
  { unfold send_prepares, BUS1_VEC_MAX, BUS1_FD_MAX. simpl.
    repeat split; try reflexivity; lia. }
  apply (proj2 (send_destination_fault env_fault_at_2 send_to_5 Hprep) 2%nat).
  - discriminate.
  - simpl. lia.
  - split; [reflexivity |]. intros i Hi. exists (Z.of_nat i).
    destruct i as [| [| i]]; simpl; [split; [reflexivity | lia] ..| lia].
Defined.

Example send_fault_at_2 :
  bus1_peer_ioctl_send env_fault_at_2 (inr send_to_5)
  = (- EFAULT,
     [ev_transaction_instantiate_for_id 0;
      ev_transaction_instantiate_for_id 1;
      ev_transaction_free false]).
Proof. reflexivity. Qed.

Example send_unicast_ok :
  bus1_peer_ioctl_send env_ok
    (inr (mk_cmd_send 0 4096 1 0 0 0 0 0))
  = (0, [ev_transaction_commit_for_id 0; ev_transaction_free false]).
Proof. reflexivity. Qed.

(** ** RECV *)

Lemma queue_peek_empty : bus1_queue_peek (mk_queue rb_nil) = None.
Proof. reflexivity. Qed.

Lemma put_users_events e :
  forall values k, Forall ev_is_put_user (snd (put_users e k values)).
Proof.
  induction values as [| v values IH]; intros k; simpl; [constructor |].
  destruct (env_put_user e k); [| constructor].
  specialize (IH (S k)). destruct (put_users e (S k) values) as [ok evs].
  simpl in *. constructor; [by eexists | exact IH].
Qed.

Lemma put_users_ok e :
  forall values k,
    (forall i, env_put_user e i = true) ->
    put_users e k values = (true, map ev_put_user values).
Proof.
  induction values as [| v values IH]; intros k Hok; simpl; [reflexivity |].
  by rewrite Hok, IH.
Qed.

Lemma recv_exit_success e param :
  recv_exit e 0 param []
  = (if fst (put_users e 0%nat
               [recv_msg_offset param; recv_msg_size param;
                recv_msg_ids param; recv_msg_fds param])
     then 0 else - EFAULT,
     snd (put_users e 0%nat
            [recv_msg_offset param; recv_msg_size param;
             recv_msg_ids param; recv_msg_fds param])).
Proof.
  unfold recv_exit. cbn [Z.leb Z.compare].
  destruct (put_users e 0 _) as [ok evs]. cbn [fst snd].
  unfold put_unused_fds. simpl. by rewrite app_nil_r.
Qed.

(** C5: a RECV with flag PEEK and cleared output fields returns WouldBlock
    on a queue without a message at its front.  Otherwise it publishes
    the slice of the first queued message, takes offset, size and the
    number of attached files from that message and copies them out (Fault
    if a copy fails, 0 if none does).  The peer info afterwards is the
    one it found with that slice published and nothing else changed: the
    queue is the same, with the message still at its front.  The trace
    holds the warning of the first peek if the front node is no message,
    the publication under the lock and the copies, and nothing else:
    nothing is dequeued and no file descriptor is reserved or
    installed. *)
Theorem recv_peek fuel e info param :
  recv_flags param = BUS1_RECV_FLAG_PEEK ->
  recv_precleared param ->
  (bus1_queue_peek (info_queue info) = None ->
   bus1_peer_ioctl_recv fuel e info (inr param)
   = Some (- EAGAIN, info, []))
  /\ (forall node,
        bus1_queue_peek (info_queue info) = Some node ->
        let message := bus1_message_from_node node in
        let ok := fst (put_users e 0%nat (recv_output message)) in
        let written := snd (put_users e 0%nat (recv_output message)) in
        bus1_peer_ioctl_recv fuel e info (inr param)
        = Some (if ok then 0 else - EFAULT, info_peeked info message,
                WARN_ON (negb (bus1_queue_node_is_message node))
                ++ [ev_mutex_lock;
                    ev_pool_publish (slice_offset (msg_slice message));
                    ev_mutex_unlock] ++ written)
        /\ info_queue (info_peeked info message) = info_queue info
        /\ bus1_queue_peek (info_queue (info_peeked info message))
           = Some node
        /\ Forall ev_is_put_user written
        /\ ((forall i, env_put_user e i = true) ->
            ok = true /\ written = map ev_put_user (recv_output message))).
Proof.
  intros Hflags (Hoffset & Hsize & Hids & Hfds).
  unfold bus1_peer_ioctl_recv.
  rewrite Hflags, Hoffset, Hsize, Hids, Hfds.
  cbn -[recv_exit bus1_queue_peek put_users recv_output WARN_ON]. split.
  - by intros ->.
  - intros node Hpeek. rewrite Hpeek.
    rewrite (recv_exit_success e
               (mk_cmd_recv BUS1_RECV_FLAG_PEEK
                  (slice_offset (msg_slice (bus1_message_from_node node)))
                  (slice_size (msg_slice (bus1_message_from_node node))) 0
                  (msg_n_files (bus1_message_from_node node)))).
    change [recv_msg_offset _; recv_msg_size _; recv_msg_ids _;
            recv_msg_fds _]
      with (recv_output (bus1_message_from_node node)).
    split; [reflexivity |]. split; [reflexivity |].
    split; [reflexivity |]. split; [apply put_users_events |].
    intros Hok. by rewrite put_users_ok.
Qed.

Lemma recv_peek_witness :
  bus1_peer_ioctl_recv 2 env_ok info_queued
    (inr (recv_cleared BUS1_RECV_FLAG_PEEK))
  = Some (0, info_peeked info_queued message_1,
          [] ++ [ev_mutex_lock; ev_pool_publish 128; ev_mutex_unlock]
          ++ [ev_put_user 128; ev_put_user 64; ev_put_user 0;
              ev_put_user 2])
  /\ info_queue (info_peeked info_queued message_1) = info_queue info_queued
  /\ bus1_queue_peek (info_queue (info_peeked info_queued message_1))
     = Some node_1
  /\ Forall ev_is_put_user
            [ev_put_user 128; ev_put_user 64; ev_put_user 0; ev_put_user 2]
  /\ ((forall i, env_put_user env_ok i = true) ->
      true = true
      /\ [ev_put_user 128; ev_put_user 64; ev_put_user 0; ev_put_user 2]
         = map ev_put_user (recv_output message_1)).
Proof.
  apply (proj2 (recv_peek 2 env_ok info_queued
                  (recv_cleared BUS1_RECV_FLAG_PEEK) eq_refl
                  (conj eq_refl (conj eq_refl (conj eq_refl eq_refl))))
           node_1).
  reflexivity.
Defined.

(** A front node that is no message: the lock-free peek warns, and the
    call goes on as the code does. *)
Example recv_peek_stray :
  bus1_peer_ioctl_recv 2 env_ok info_stray
    (inr (recv_cleared BUS1_RECV_FLAG_PEEK))
  = Some (0, info_peeked info_stray message_2,
          [ev_warn; ev_mutex_lock; ev_pool_publish 256; ev_mutex_unlock;
           ev_put_user 256; ev_put_user 32; ev_put_user 0; ev_put_user 0])
  /\ bus1_peer_ioctl_recv 2 env_ok info_stray (inr (recv_cleared 0))
     = Some (0, info_dequeued info_stray message_2,
             [ev_warn; ev_mutex_lock; ev_queue_remove 12%nat;
              ev_pool_publish 256; ev_message_deallocate 12%nat;
              ev_mutex_unlock; ev_message_free 12%nat;
              ev_put_user 256; ev_put_user 32; ev_put_user 0;
              ev_put_user 0]).
Proof. split; reflexivity. Qed.

(** Scenario "peek then receive": the message with two files is peeked at
    and then received, with the same offset and size; only the receive
    installs the two files. *)
Example peek_then_receive :
  exists info',
    bus1_peer_ioctl_recv 2 env_ok info_queued
      (inr (recv_cleared BUS1_RECV_FLAG_PEEK))
    = Some (0, info',
            [ev_mutex_lock; ev_pool_publish 128; ev_mutex_unlock;
             ev_put_user 128; ev_put_user 64; ev_put_user 0; ev_put_user 2])
    /\ exists info'',
         bus1_peer_ioctl_recv 2 env_ok info' (inr (recv_cleared 0))
         = Some (0, info'',
                 [ev_get_unused_fd 3; ev_get_unused_fd 4;
                  ev_mutex_lock; ev_queue_remove 11%nat; ev_pool_publish 128;
                  ev_mutex_unlock;
                  ev_pool_write 128 [3; 4];
                  ev_mutex_lock; ev_message_deallocate 11%nat;
                  ev_mutex_unlock;
                  ev_fd_install 4 22; ev_fd_install 3 21;
                  ev_message_free 11%nat;
                  ev_put_user 128; ev_put_user 64; ev_put_user 0;
                  ev_put_user 2])
         /\ bus1_queue_peek (info_queue info'') = None.
Proof.
  eexists. split; [reflexivity |]. eexists. split; reflexivity.
Qed.

Lemma recv_reserve_fds_length e :
  forall left fds,
    let '(r, fds', _) := recv_reserve_fds e left fds in
    r < 0 \/ (r = 0 /\ length fds' = (length fds + left)%nat).
Proof.
  induction left as [| left IH]; intros fds; simpl.
  - right. split; [reflexivity | lia].
  - destruct (Z.ltb_spec (env_get_unused_fd e (length fds)) 0);
      [by left |].
    specialize (IH (fds ++ [env_get_unused_fd e (length fds)])).
    destruct (recv_reserve_fds e left _) as [[r fds'] evs].
    destruct IH as [IH | [-> IH]]; [by left |].
    right. split; [reflexivity |]. rewrite IH, length_app. simpl. lia.
Qed.

(** Without interference one round of the dequeue loop is enough: the
    message seen under the lock is the one whose files were counted. *)
Lemma recv_loop_returns e info param node fuel :
  bus1_queue_peek (info_queue info) = Some node ->
  is_Some (recv_loop (S fuel) e info param
             (msg_n_files (bus1_message_from_node node)) []).
Proof.
  intros Hpeek. cbn [recv_loop length]. change (Z.of_nat 0) with 0.
  set (wanted := msg_n_files (bus1_message_from_node node)).
  destruct (Z.ltb_spec 0 wanted) as [Hwanted | Hwanted].
  - destruct (negb (env_krealloc e)); [by eexists |].
    pose proof (recv_reserve_fds_length e (Z.to_nat (wanted - 0)) []) as Hlen.
    destruct (recv_reserve_fds e _ _) as [[r fds] evs].
    destruct Hlen as [Hr | [-> Hlen]].
    + destruct (Z.ltb_spec r 0); [by eexists | lia].
    + cbn [Z.ltb Z.compare]. rewrite Hpeek. fold wanted.
      simpl in Hlen.
      destruct (Z.ltb_spec (Z.of_nat (length fds)) wanted); [lia |].
      cbn [bus1_pool_publish]. by eexists.
  - cbn [Z.ltb Z.compare length Z.of_nat]. rewrite Hpeek. fold wanted.
    change (Z.of_nat 0) with 0.
    destruct (Z.ltb_spec 0 wanted); [lia |].
    cbn [bus1_pool_publish]. by eexists.
Qed.

(** [bus1_peer_ioctl_recv] returns as soon as the loop is granted one
    round. *)
Lemma recv_total fuel e info imported :
  is_Some (bus1_peer_ioctl_recv (S fuel) e info imported).
Proof.
  unfold bus1_peer_ioctl_recv.
  destruct imported as [r | param]; [by eexists |].
  destruct (negb _); [by eexists |].
  destruct (_ || _); [by eexists |].
  destruct (bus1_queue_peek (info_queue info)) as [node |] eqn:Hpeek;
    [| by eexists].
  destruct (has_flag _ _).
  - cbn [bus1_pool_publish]. destruct (recv_exit _ _ _ _). by eexists.
  - destruct (recv_loop_returns e info param node fuel Hpeek)
      as [[[[[res info'] param'] fds] evs] ->].
    cbn [mbind option_bind].
    destruct res as [r | [node' |]].
    + destruct (recv_exit _ _ _ _). by eexists.
    + cbn zeta.
      destruct (0 <? length _)%nat; [destruct (0 <=? _) |];
        destruct (recv_exit _ _ _ _); by eexists.
    + destruct (recv_exit _ _ _ _). by eexists.
Qed.

(** ** CONNECT on a connected peer: name lists without repetition *)

Lemma nulstr_nil_iff names : nulstr names = [] <-> names = [].
Proof.
  split; [| by intros ->].
  destruct names as [| name names]; [done |].
  rewrite nulstr_cons. by destruct name.
Qed.

(** [bus1_peer_name_check]: not a name of the peer, a name that is not
    the last of the list, or the last name and with it the length of the
    list. *)
Lemma name_check_loop_spec names :
  forall c name,
    NoDup (map pn_name names) ->
    name_check_loop names c name
    = if bool_decide (name ∈ map pn_name names)
      then if bool_decide (last (map pn_name names) = Some name)
           then c + Z.of_nat (length names) else 0
      else - EREMCHG.
Proof.
  induction names as [| peer_name next IH]; intros c name Hnodup;
    [reflexivity |].
  simpl in Hnodup. apply NoDup_cons in Hnodup as [Hnotin Hnodup].
  cbn [name_check_loop]. unfold streq. rewrite IH by exact Hnodup.
  destruct next as [| peer_name' next].
  - cbn [map last length].
    repeat case_bool_decide; subst; try lia; try reflexivity;
      exfalso; set_unfold; intuition congruence.
  - cbn [map] in *. rewrite last_cons_cons.
    assert (Hlast : last (pn_name peer_name' :: map pn_name next)
                    <> Some (pn_name peer_name)).
    { intros Hlast. apply last_Some_elem_of in Hlast. by apply Hnotin. }
    cbn [length].
    repeat case_bool_decide; subst; try lia; try reflexivity;
      try congruence; exfalso; set_unfold; intuition congruence.
Qed.

(** The loop of [bus1_peer_names_check] on a well-formed blob: every
    name must be one of the peer's, and the number of names supplied is
    compared with the length of the peer's list if its last name was
    supplied, with the old count otherwise. *)
Lemma names_check_loop_spec peer names :
  forall fuel n_names n_names_old,
    NoDup (peer_name_list peer) ->
    Forall name_ok names ->
    (length (nulstr names) <= fuel)%nat ->
    names_check_loop fuel peer (nulstr names) n_names n_names_old
    = Some
        (if bool_decide (Forall (fun name => name ∈ peer_name_list peer)
                                names)
         then
           if n_names + Z.of_nat (length names)
              =? (if bool_decide
                       (Exists (fun name =>
                                  last (peer_name_list peer) = Some name)
                               names)
                  then Z.of_nat (length (peer_names peer))
                  else n_names_old)
           then 0 else - EREMCHG
         else - EREMCHG).
Proof.
  induction names as [| name names IH];
    intros fuel n_names n_names_old Hnodup Hok Hfuel.
  - assert (Hnil : names_check_loop fuel peer [] n_names n_names_old
                   = Some (if negb (n_names =? n_names_old)
                           then - EREMCHG else 0)) by (by destruct fuel).
    change (nulstr []) with (@nil ascii). rewrite Hnil.
    rewrite bool_decide_eq_true_2 by constructor.
    rewrite bool_decide_eq_false_2 by (inversion 1).
    cbn [length Z.of_nat]. rewrite Z.add_0_r.
    by destruct (n_names =? n_names_old).
  - apply Forall_cons in Hok as [Hname Hok].
    destruct (nulstr_round name names Hname) as (Htest & Htake & Hdrop & Hlt).
    destruct fuel as [| fuel]; [lia |].
    destruct (nulstr (name :: names)) as [| c blob] eqn:Hblob;
      [simpl in Hlt; lia |].
    cbn [names_check_loop]. rewrite Htest, Htake, Hdrop.
    simpl in Hfuel, Hlt.
    rewrite IH by (try assumption; lia).
    unfold bus1_peer_name_check.
    rewrite name_check_loop_spec by exact Hnodup.
    fold (peer_name_list peer).
    destruct (decide (name ∈ peer_name_list peer)) as [Hin | Hnin].
    + rewrite (bool_decide_eq_true_2 (name ∈ _)) by exact Hin.
      assert (Hlen : 0 < Z.of_nat (length (peer_names peer))).
      { unfold peer_name_list in Hin. destruct (peer_names peer);
          [by apply not_elem_of_nil in Hin | simpl; lia]. }
      destruct (decide (last (peer_name_list peer) = Some name))
        as [Hlast | Hlast].
      * rewrite (bool_decide_eq_true_2 (last _ = _)) by exact Hlast.
        rewrite Z.add_0_l.
        destruct (Z.ltb_spec (Z.of_nat (length (peer_names peer))) 0);
          [lia |].
        destruct (Z.ltb_spec 0 (Z.of_nat (length (peer_names peer))));
          [| lia].
        rewrite (bool_decide_eq_true_2 (Exists _ (name :: names)))
          by (by apply Exists_cons_hd).
        destruct (decide (Forall (fun name => name ∈ peer_name_list peer)
                                 names)) as [Hall | Hall].
        -- rewrite !(bool_decide_eq_true_2 (Forall _ _));
             [| by apply Forall_cons | exact Hall].
           replace (n_names + 1 + Z.of_nat (length names))
             with (n_names + Z.of_nat (length (name :: names)))
             by (simpl length; lia).
           by destruct (bool_decide (Exists _ names)).
        -- rewrite !(bool_decide_eq_false_2 (Forall _ _));
             [reflexivity | | exact Hall].
           intros Hcons. apply Forall_cons in Hcons. tauto.
      * rewrite (bool_decide_eq_false_2 (last _ = _)) by exact Hlast.
        cbn [Z.ltb Z.compare].
        destruct (decide (Forall (fun name => name ∈ peer_name_list peer)
                                 names)) as [Hall | Hall].
        -- rewrite !(bool_decide_eq_true_2 (Forall _ _));
             [| by apply Forall_cons | exact Hall].
           replace (n_names + 1 + Z.of_nat (length names))
             with (n_names + Z.of_nat (length (name :: names)))
             by (simpl length; lia).
           destruct (decide (Exists (fun name =>
                                       last (peer_name_list peer) = Some name)
                                    names)) as [Hex | Hex].
           ++ rewrite !(bool_decide_eq_true_2 (Exists _ _));
                [reflexivity | by apply Exists_cons_tl | exact Hex].
           ++ rewrite !(bool_decide_eq_false_2 (Exists _ _));
                [reflexivity | | exact Hex].
              intros Hcons. apply Exists_cons in Hcons. tauto.
        -- rewrite !(bool_decide_eq_false_2 (Forall _ _));
             [reflexivity | | exact Hall].
           intros Hcons. apply Forall_cons in Hcons. tauto.
    + rewrite (bool_decide_eq_false_2 (name ∈ _)) by exact Hnin.
      rewrite (bool_decide_eq_false_2 (Forall _ (name :: names)));
        [reflexivity |].
      intros Hcons. apply Forall_cons in Hcons. tauto.
Qed.

Lemma peer_name_list_length peer :
  length (peer_name_list peer) = length (peer_names peer).
Proof. unfold peer_name_list. apply length_map. Qed.

(** On name lists without repetition, [bus1_peer_names_check] does what
    its comment says: 0 if the blob holds exactly the names of the peer,
    -EREMCHG if it does not. *)
Lemma names_check_spec peer names :
  NoDup (peer_name_list peer) ->
  NoDup names ->
  Forall name_ok names ->
  (same_names names (peer_name_list peer) ->
   bus1_peer_names_check peer (nulstr names) = Some 0)
  /\ (~ same_names names (peer_name_list peer) ->
      bus1_peer_names_check peer (nulstr names) = Some (- EREMCHG)).
Proof.
  intros Hpeer Hnames Hok.
  assert (Hloop := names_check_loop_spec peer names
                     (length (nulstr names)) 0 0 Hpeer Hok (le_n _)).
  destruct names as [| name names'].
  - unfold same_names, peer_name_list, bus1_peer_names_check.
    change (nulstr []) with (@nil ascii).
    destruct (peer_names peer) as [| peer_name next]; split; intros Hsame.
    + reflexivity.
    + exfalso. by apply Hsame.
    + exfalso. specialize (Hsame (pn_name peer_name)). simpl in Hsame.
      eapply not_elem_of_nil, Hsame, list_elem_of_here.
    + reflexivity.
  - set (l := name :: names') in *.
    assert (Hcheck : bus1_peer_names_check peer (nulstr l)
                     = names_check_loop (length (nulstr l)) peer (nulstr l)
                                        0 0).
    { unfold bus1_peer_names_check.
      destruct (nulstr l) eqn:Hblob; [| reflexivity].
      by apply nulstr_nil_iff in Hblob. }
    rewrite Hcheck, Hloop. clear Hcheck Hloop.
    rewrite <- peer_name_list_length. split; intros Hsame.
    + rewrite bool_decide_eq_true_2
        by (apply Forall_forall; intros x Hx; by apply Hsame).
      assert (Hperm : l ≡ₚ peer_name_list peer)
        by (by apply NoDup_Permutation).
      destruct (last (peer_name_list peer)) as [y |] eqn:Hlast.
      * rewrite bool_decide_eq_true_2.
        -- rewrite Z.add_0_l, (Permutation_length Hperm), Z.eqb_refl.
           reflexivity.
        -- apply Exists_exists. exists y. split; [| reflexivity].
           apply Hsame. by apply last_Some_elem_of.
      * apply last_None in Hlast. rewrite Hlast in Hperm.
        apply Permutation_nil_r in Hperm. discriminate Hperm.
    + case_bool_decide as Hall; [| reflexivity].
      rewrite Forall_forall in Hall.
      case_bool_decide as Hex.
      * destruct (Z.eqb_spec (0 + Z.of_nat (length l))
                             (Z.of_nat (length (peer_name_list peer))))
          as [Hlen | Hlen]; [| reflexivity].
        exfalso. apply Hsame.
        assert (Hperm : l ≡ₚ peer_name_list peer).
        { apply submseteq_length_Permutation; [| lia].
          by apply NoDup_submseteq. }
        intros x. by rewrite Hperm.
      * destruct (Z.eqb_spec (0 + Z.of_nat (length l)) 0) as [Hlen | Hlen];
          [| reflexivity].
        unfold l in Hlen. simpl in Hlen. lia.
Qed.

(** CONNECT(PEER or MONITOR) on a connected peer, for name lists without
    repetition: AlreadyConnected exactly when pool size and name set
    match, RemoteChanged otherwise, and nothing changes. *)
Lemma reconnect_spec e self peer domain uid flags pool names info :
  bus1_active_is_new (peer_active peer) = false ->
  peer_info peer = Some info ->
  NoDup (peer_name_list peer) ->
  NoDup names ->
  Forall name_ok names ->
  (pool = pool_size (info_pool info)
   /\ same_names names (peer_name_list peer) ->
   bus1_peer_connect_new e self peer domain uid
     (mk_cmd_connect flags pool (nulstr names))
   = Some (- EISCONN, peer, domain, []))
  /\ (~ (pool = pool_size (info_pool info)
         /\ same_names names (peer_name_list peer)) ->
      bus1_peer_connect_new e self peer domain uid
        (mk_cmd_connect flags pool (nulstr names))
      = Some (- EREMCHG, peer, domain, [])).
Proof.
  intros Hnew Hinfo Hpeer Hnames Hok.
  destruct (names_check_spec peer names Hpeer Hnames Hok) as [Hsame Hdiff].
  unfold bus1_peer_connect_new. rewrite Hnew, Hinfo. simpl. split.
  - intros [-> Hs]. rewrite Z.eqb_refl, (Hsame Hs). reflexivity.
  - intros Hno.
    destruct (Z.eqb_spec pool (pool_size (info_pool info))) as [-> | Hpool];
      [| reflexivity].
    simpl. rewrite Hdiff by tauto. reflexivity.
Qed.

(** ** End-to-end scenarios *)

(** "Connect with name": the name resolves while peer 7 is connected and
    is not found after its DISCONNECT. *)
Example resolve_connected :
  bus1_peer_ioctl_resolve env_ok {[ 7%nat := peer_ab ]} domain_ab
    (inr (mk_cmd_resolve 0 0 (nulstr [name_a])))
  = Some (0, [ev_put_user 0]).
Proof. reflexivity. Qed.

Example resolve_disconnected :
  bus1_peer_ioctl_resolve env_ok
    {[ 7%nat := mk_peer ACTIVE_DEAD None [] false ]} domain_empty
    (inr (mk_cmd_resolve 0 0 (nulstr [name_a])))
  = Some (- ENXIO, []).
Proof. reflexivity. Qed.

(** "Duplicate name": a second peer that asks for a name of peer 7 gets
    NameExists and leaves no trace in the domain. *)
Example connect_taken_name :
  bus1_peer_connect_new env_ok 8%nat bus1_peer_new domain_ab 1000
    (mk_cmd_connect BUS1_CONNECT_FLAG_PEER 4096 (nulstr [name_a]))
  = Some (- EISNAM, bus1_peer_new, domain_ab,
          [ev_name_free name_a; ev_user_release 1000;
           ev_mutex_lock; ev_queue_post_flush; ev_pool_flush;
           ev_mutex_unlock;
           ev_queue_destroy; ev_pool_destroy; ev_quota_destroy;
           ev_kfree_info]).
Proof. vm_compute. reflexivity. Qed.

(** "Reset flushes": after CONNECT(RESET) the pool size is reported and
    the next RECV finds nothing. *)
Example reset_then_receive :
  exists peer,
    bus1_peer_ioctl_connect env_ok 7%nat
      (mk_peer ACTIVE_ACTIVE (Some info_queued) [] true) domain_empty
      (mk_file true 1000)
      (inr (mk_cmd_connect
              (Z.lor BUS1_CONNECT_FLAG_RESET BUS1_CONNECT_FLAG_QUERY) 0 []))
    = Some (0, peer, domain_empty,
            [ev_mutex_lock;
             ev_rb_clear_node 11%nat; ev_message_deallocate 11%nat;
             ev_message_free 11%nat;
             ev_rb_clear_node 12%nat;
             ev_queue_post_flush; ev_pool_flush; ev_mutex_unlock;
             ev_put_user 4096])
    /\ exists info,
         peer_info peer = Some info
         /\ bus1_peer_ioctl_recv 1 env_ok info (inr (recv_cleared 0))
            = Some (- EAGAIN, info, []).
Proof.
  eexists. split; [reflexivity |]. eexists. split; reflexivity.
Qed.

(** * Further properties *)

(** ** The name index and its counter *)

Lemma wrap64_add_l x y : wrap64 (wrap64 x + y) = wrap64 (x + y).
Proof. unfold wrap64. apply Zplus_mod_idemp_l. Qed.

Lemma wrap64_sub_l x y : wrap64 (wrap64 x - y) = wrap64 (x - y).
Proof. unfold wrap64. apply Zminus_mod_idemp_l. Qed.

Lemma wrap64_pred_succ x : is_u64 x -> wrap64 (wrap64 (x - 1) + 1) = x.
Proof.
  intros H. rewrite wrap64_add_l. replace (x - 1 + 1) with x by lia.
  by apply wrap64_id.
Qed.

(** Linking, whatever its outcome, is undone by the loop at
    [error_unlock]. *)
Lemma link_names_unlink_restores names :
  forall domain r names' domain',
    Forall pn_unlinked names ->
    is_u64 (domain_n_names domain) ->
    connect_link_names names domain = (r, names', domain') ->
    connect_unlink_names names' domain' = (names, domain).
Proof.
  induction names as [| peer_name next IH];
    intros domain r names' domain' Hnames Hn Hlink; simpl in Hlink.
  - by injection Hlink as _ <- <-.
  - apply Forall_cons in Hnames as [Hpn Hnext].
    destruct (name_add_result peer_name domain Hpn)
      as [(_ & pn1 & d1 & Hadd & _) | (_ & Hadd)];
      rewrite Hadd in Hlink.
    + simpl in Hlink.
      destruct (connect_link_names next d1) as [[r1 next1] d2] eqn:Hrec.
      injection Hlink as _ <- <-.
      destruct (name_add_remove _ _ _ _ Hpn Hn Hadd) as [Hremove Hn1].
      pose proof (IH d1 r1 next1 d2 Hnext Hn1 Hrec) as Hunlink.
      simpl.
      destruct (bus1_peer_name_remove pn1 d2) as [pn2 d3] eqn:Hrm.
      assert (Hpn2 : pn2 = peer_name).
      { change pn2 with (fst (pn2, d3)). rewrite <- Hrm.
        rewrite (name_remove_fst pn1 d2 d1), Hremove. reflexivity. }
      assert (Hd3 : d3 = snd (bus1_peer_name_remove pn1 d2)) by by rewrite Hrm.
      rewrite Hd3, unlink_names_after_remove, Hunlink. simpl.
      by rewrite Hremove, Hpn2.
    + simpl in Hlink. injection Hlink as _ <- <-.
      by apply unlink_names_unlinked, Forall_cons.
Qed.

(** The loop of the cleanup callback changes the domain the way the
    unlink loop does. *)
Lemma cleanup_names_domain names :
  forall domain,
    fst (cleanup_names names domain)
    = snd (connect_unlink_names names domain).
Proof.
  induction names as [| peer_name next IH]; intros domain; [reflexivity |].
  simpl. destruct (bus1_peer_name_remove peer_name domain) as [pn d].
  specialize (IH d).
  destruct (cleanup_names next d) as [d1 evs].
  destruct (connect_unlink_names next d) as [next' d2].
  simpl in *. exact IH.
Qed.

(** What a successful pass over the names leaves in the index. *)
Lemma link_names_success names :
  forall domain,
    Forall pn_unlinked names ->
    NoDup (map pn_name names) ->
    Forall (fun pn => domain_map_names domain !! pn_name pn = None) names ->
    is_u64 (domain_n_names domain) ->
    exists names' domain',
      connect_link_names names domain = (0, names', domain')
      /\ map pn_name names' = map pn_name names
      /\ map pn_peer names' = map pn_peer names
      /\ Forall (fun pn => pn_linked pn = true) names'
      /\ (forall pn, pn ∈ names ->
            domain_map_names domain' !! pn_name pn = Some (pn_peer pn))
      /\ (forall k, k ∉ map pn_name names ->
            domain_map_names domain' !! k = domain_map_names domain !! k)
      /\ domain_n_names domain'
         = wrap64 (domain_n_names domain + Z.of_nat (length names))
      /\ domain_list_peers domain' = domain_list_peers domain
      /\ domain_n_peers domain' = domain_n_peers domain.
Proof.
  induction names as [| peer_name next IH];
    intros domain Hunl Hnodup Hfree Hn.
  - exists [], domain. simpl. repeat split; try constructor.
    + intros pn Hin. by apply not_elem_of_nil in Hin.
    + rewrite Z.add_0_r. symmetry. by apply wrap64_id.
  - apply Forall_cons in Hunl as [Hpn Hunl].
    simpl in Hnodup. apply NoDup_cons in Hnodup as [Hnotin Hnodup].
    apply Forall_cons in Hfree as [Hhead Hfree].
    set (d1 := mk_domain (<[pn_name peer_name := pn_peer peer_name]>
                            (domain_map_names domain))
                         (wrap64 (domain_n_names domain + 1))
                         (domain_list_peers domain)
                         (domain_n_peers domain)).
    assert (Hadd : bus1_peer_name_add peer_name domain
                   = (0, mk_peer_name (pn_peer peer_name) true
                                      (pn_name peer_name), d1)).
    { unfold bus1_peer_name_add. unfold pn_unlinked in Hpn.
      by rewrite Hpn, Hhead. }
    assert (Hfree1 : Forall (fun pn => domain_map_names d1 !! pn_name pn
                                       = None) next).
    { rewrite Forall_forall in Hfree |- *. intros pn Hin. simpl.
      rewrite lookup_insert_ne; [by apply Hfree |].
      intros Heq. apply Hnotin. rewrite Heq.
      by apply list_elem_of_fmap_2. }
    destruct (IH d1 Hunl Hnodup Hfree1 (wrap64_range _))
      as (next' & d2 & Hlink & Hnames & Hpeers & Hlinked & Hin & Hout
          & Hcount & Hlist & Hnp).
    eexists _, d2. simpl. rewrite Hadd, Hlink. simpl.
    split; [reflexivity |]. repeat split.
    + cbn [map pn_name]. by rewrite Hnames.
    + cbn [map pn_peer]. by rewrite Hpeers.
    + by constructor.
    + intros pn Hpn'. apply elem_of_cons in Hpn' as [-> | Hpn'].
      * rewrite Hout by exact Hnotin. simpl. apply lookup_insert_eq.
      * by apply Hin.
    + intros k Hk. apply not_elem_of_cons in Hk as [Hne Hk].
      rewrite Hout by exact Hk. simpl. by rewrite lookup_insert_ne.
    + rewrite Hcount. simpl domain_n_names. rewrite wrap64_add_l.
      f_equal. lia.
    + by rewrite Hlist.
    + by rewrite Hnp.
Qed.

(** Each link keeps the counter of the index in step with the index. *)
Lemma name_add_counted peer_name domain :
  index_counted domain ->
  index_counted (snd (bus1_peer_name_add peer_name domain)).
Proof.
  unfold bus1_peer_name_add, index_counted. intros Hcount.
  destruct (pn_linked peer_name); [exact Hcount |].
  destruct (domain_map_names domain !! pn_name peer_name) eqn:Hlookup;
    [exact Hcount |].
  simpl. rewrite map_size_insert_None by exact Hlookup.
  rewrite Hcount, wrap64_add_l. f_equal. lia.
Qed.

Lemma link_names_counted names :
  forall domain,
    index_counted domain ->
    index_counted (snd (connect_link_names names domain)).
Proof.
  induction names as [| peer_name next IH]; intros domain Hcount;
    [exact Hcount |].
  simpl. pose proof (name_add_counted peer_name domain Hcount) as Hadd.
  destruct (bus1_peer_name_add peer_name domain) as [[r pn] d1].
  simpl in Hadd. destruct (r <? 0); [exact Hadd |].
  specialize (IH d1 Hadd).
  by destruct (connect_link_names next d1) as [[r1 next1] d2].
Qed.

Lemma index_counted_u64 domain :
  index_counted domain -> is_u64 (domain_n_names domain).
Proof. unfold index_counted. intros ->. apply wrap64_range. Qed.

(** ** The name blob of a CONNECT *)

Lemma is_nul_true c : is_nul c = true -> c = Ascii.zero.
Proof. unfold is_nul. apply Ascii.eqb_eq. Qed.

(** A buffer whose first string ends inside it splits into that string,
    its terminator and the rest. *)
Lemma strnlen_split s :
  (strnlen s < length s)%nat ->
  s = take (strnlen s) s ++ Ascii.zero :: drop (S (strnlen s)) s
  /\ Forall (fun c => is_nul c = false) (take (strnlen s) s).
Proof.
  induction s as [| c s IH]; simpl; [lia |].
  destruct (is_nul c) eqn:Hc; simpl.
  - intros _. apply is_nul_true in Hc as ->. rewrite drop_0.
    split; [reflexivity | constructor].
  - intros Hlt. destruct IH as [Hsplit Hnz]; [lia |].
    split; [by rewrite <- Hsplit | by constructor].
Qed.

(** The allocation loop accepts nothing but a nulstr of names that are
    not empty, fit the size limit and could be allocated; it builds their
    nodes last name first. *)
Lemma alloc_names_sound e self :
  forall fuel blob acc r nodes,
    connect_alloc_names fuel e self blob acc = Some (r, nodes) ->
    0 <= r ->
    exists names,
      blob = nulstr names
      /\ Forall name_ok names
      /\ Forall (fun name => Z.of_nat (length name) + 1 <= BUS1_NAME_MAX_SIZE
                             /\ env_kmalloc_name e name = true) names
      /\ nodes = reverse (map (mk_peer_name self false) names) ++ acc.
Proof.
  induction fuel as [| fuel IH]; intros blob acc r nodes Halloc Hr.
  - destruct blob; [| discriminate]. injection Halloc as _ <-.
    exists []. repeat split; constructor.
  - destruct blob as [| c blob].
    { injection Halloc as _ <-. exists []. repeat split; constructor. }
    cbn [connect_alloc_names] in Halloc.
    destruct (_ || _) eqn:Htest.
    { injection Halloc as <- _. unfold EMSGSIZE in Hr. lia. }
    apply orb_false_iff in Htest as [Hn0 Hnlen].
    apply Nat.eqb_neq in Hn0, Hnlen.
    pose proof (strnlen_le (c :: blob)) as Hle.
    destruct (strnlen_split (c :: blob)) as [Hsplit Hnz]; [lia |].
    set (name := take (strnlen (c :: blob)) (c :: blob)) in *.
    unfold bus1_peer_name_new in Halloc.
    destruct (Z.ltb_spec (Z.of_nat (length name) + 1) 2) as [Hshort | Hshort].
    { simpl in Halloc. injection Halloc as <- _. unfold EMSGSIZE in Hr. lia. }
    destruct (Z.ltb_spec BUS1_NAME_MAX_SIZE (Z.of_nat (length name) + 1))
      as [Hlong | Hlong].
    { simpl in Halloc. injection Halloc as <- _. unfold EMSGSIZE in Hr. lia. }
    simpl in Halloc.
    destruct (env_kmalloc_name e name) eqn:Hmem; simpl in Halloc.
    2: { injection Halloc as <- _. unfold ENOMEM in Hr. lia. }
    destruct (IH _ _ _ _ Halloc Hr) as (names & Hrest & Hok & Henv & Hnodes).
    exists (name :: names). repeat split.
    + rewrite nulstr_cons, <- Hrest. exact Hsplit.
    + constructor; [| exact Hok]. split; [| exact Hnz].
      intros Hnil. rewrite Hnil in Hshort. simpl in Hshort. lia.
    + constructor; [| exact Henv]. split; [lia | exact Hmem].
    + rewrite Hnodes. simpl. rewrite reverse_cons, <- app_assoc.
      reflexivity.
Qed.

Lemma nodes_names self names :
  map pn_name (reverse (map (mk_peer_name self false) names))
  = reverse names.
Proof.
  rewrite <- fmap_reverse.
  change (map pn_name (map (mk_peer_name self false) (reverse names)))
    with (pn_name <$> (mk_peer_name self false <$> reverse names)).
  rewrite <- list_fmap_compose. apply list_fmap_id.
Qed.

Lemma nodes_peers self names :
  Forall (fun pn => pn_peer pn = self)
         (reverse (map (mk_peer_name self false) names)).
Proof. apply Forall_reverse, Forall_fmap, Forall_true. reflexivity. Qed.

Lemma nodes_unlinked self names :
  Forall pn_unlinked (reverse (map (mk_peer_name self false) names)).
Proof. apply Forall_reverse, Forall_fmap, Forall_true. reflexivity. Qed.

(** What [bus1_peer_connect_new] does on a NEW peer once the names are
    allocated. *)
Lemma connect_new_prepared e self peer domain uid flags pool names :
  bus1_active_is_new (peer_active peer) = true ->
  peer_info peer = None ->
  connect_prepares e pool names ->
  bus1_peer_connect_new e self peer domain uid
    (mk_cmd_connect flags pool (nulstr names))
  = let nodes := reverse (map (mk_peer_name self false) names) in
    let info := info_connected uid pool in
    let '(r, names', domain') := connect_link_names nodes domain in
    if r <? 0 then
      let '(names'', domain'') := connect_unlink_names names' domain' in
      Some (r, peer, domain'', [] ++ connect_error names'' info)
    else
      Some (0,
            mk_peer (bus1_active_activate (peer_active peer)) (Some info)
                    names' true,
            mk_domain (domain_map_names domain') (domain_n_names domain')
                      (self :: domain_list_peers domain')
                      (wrap64 (domain_n_peers domain' + 1)),
            []).
Proof.
  intros Hnew Hinfo (Hpool & Halign & Hmem & Hcreate & Huser & Hok & Henv).
  unfold bus1_peer_connect_new, bus1_peer_info_new.
  rewrite Hnew, Hinfo. simpl.
  apply Z.eqb_neq in Hpool. rewrite Hpool, Halign, Hmem. simpl.
  destruct (Z.ltb_spec (env_pool_create e) 0); [lia |].
  destruct (Z.ltb_spec (env_user_acquire e) 0); [lia |].
  unfold connect_names_len. simpl connect_names.
  rewrite (alloc_names_nulstr e self names _ [] Hok Henv) by lia.
  rewrite app_nil_r. reflexivity.
Qed.

(** ** The peer list and the cleanup of names *)

Lemma filter_other_absent (self : peer_id) (l : list peer_id) :
  self ∉ l -> filter (fun p => p <> self) l = l.
Proof.
  induction l as [| p l IH]; intros Hnotin; [reflexivity |].
  apply not_elem_of_cons in Hnotin as [Hne Hnotin].
  rewrite filter_cons_True by congruence. by rewrite IH.
Qed.

Lemma filter_other_once (self : peer_id) (l : list peer_id) :
  NoDup l -> self ∈ l ->
  S (length (filter (fun p => p <> self) l)) = length l.
Proof.
  induction 1 as [| p l Hnotin Hnodup IH]; intros Hin.
  - by apply not_elem_of_nil in Hin.
  - apply elem_of_cons in Hin as [<- | Hin].
    + rewrite filter_cons_False by (intros H; by apply H).
      by rewrite filter_other_absent.
    + rewrite filter_cons_True by (intros ->; by apply Hnotin).
      simpl. by rewrite IH.
Qed.

(** The name loops leave the peer list and its counter alone. *)
Lemma name_remove_peers peer_name domain :
  domain_list_peers (snd (bus1_peer_name_remove peer_name domain))
  = domain_list_peers domain
  /\ domain_n_peers (snd (bus1_peer_name_remove peer_name domain))
     = domain_n_peers domain.
Proof. unfold bus1_peer_name_remove. by destruct (negb _). Qed.

Lemma cleanup_names_peers names :
  forall domain,
    domain_list_peers (fst (cleanup_names names domain))
    = domain_list_peers domain
    /\ domain_n_peers (fst (cleanup_names names domain))
       = domain_n_peers domain.
Proof.
  induction names as [| peer_name next IH]; intros domain; [done |].
  simpl. destruct (name_remove_peers peer_name domain) as [Hl Hn].
  destruct (bus1_peer_name_remove peer_name domain) as [pn d].
  specialize (IH d). destruct (cleanup_names next d) as [d1 evs].
  simpl in *. destruct IH as [-> ->]. by rewrite Hl, Hn.
Qed.

Lemma link_names_peers names :
  forall domain,
    domain_list_peers (snd (connect_link_names names domain))
    = domain_list_peers domain
    /\ domain_n_peers (snd (connect_link_names names domain))
       = domain_n_peers domain.
Proof.
  induction names as [| peer_name next IH]; intros domain; [done |].
  simpl.
  assert (Hadd : domain_list_peers (snd (bus1_peer_name_add peer_name domain))
                 = domain_list_peers domain
                 /\ domain_n_peers (snd (bus1_peer_name_add peer_name domain))
                    = domain_n_peers domain).
  { unfold bus1_peer_name_add. destruct (pn_linked peer_name); [done |].
    by destruct (_ !! _). }
  destruct (bus1_peer_name_add peer_name domain) as [[r pn] d1].
  simpl in Hadd. destruct (r <? 0); [exact Hadd |].
  specialize (IH d1). destruct (connect_link_names next d1) as [[r1 n1] d2].
  simpl in *. destruct IH as [-> ->]. exact Hadd.
Qed.

(** The name loops do not look at the peer list: they do the same to the
    index whatever the list is. *)
Lemma name_remove_with_peers peer_name domain l np :
  bus1_peer_name_remove peer_name
    (mk_domain (domain_map_names domain) (domain_n_names domain) l np)
  = (fst (bus1_peer_name_remove peer_name domain),
     mk_domain
       (domain_map_names (snd (bus1_peer_name_remove peer_name domain)))
       (domain_n_names (snd (bus1_peer_name_remove peer_name domain)))
       l np).
Proof. unfold bus1_peer_name_remove. by destruct (negb _). Qed.

Lemma cleanup_names_with_peers names :
  forall domain l np,
    cleanup_names names
      (mk_domain (domain_map_names domain) (domain_n_names domain) l np)
    = (mk_domain
         (domain_map_names (fst (cleanup_names names domain)))
         (domain_n_names (fst (cleanup_names names domain)))
         l np,
       snd (cleanup_names names domain)).
Proof.
  induction names as [| peer_name next IH]; intros domain l np;
    [reflexivity |].
  cbn [cleanup_names]. rewrite name_remove_with_peers.
  destruct (bus1_peer_name_remove peer_name domain) as [pn d].
  cbn [fst snd]. rewrite IH.
  by destruct (cleanup_names next d) as [d1 evs].
Qed.

(** What the loop of the cleanup callback leaves in the index. *)
Lemma cleanup_names_lookup names :
  forall domain,
    Forall (fun pn => pn_linked pn = true) names ->
    (forall k, k ∈ map pn_name names ->
       domain_map_names (fst (cleanup_names names domain)) !! k = None)
    /\ (forall k, k ∉ map pn_name names ->
          domain_map_names (fst (cleanup_names names domain)) !! k
          = domain_map_names domain !! k).
Proof.
  induction names as [| peer_name next IH]; intros domain Hlinked.
  - split; [intros k Hk; by apply not_elem_of_nil in Hk | done].
  - apply Forall_cons in Hlinked as [Hpn Hlinked]. cbn [cleanup_names].
    assert (Hrm : domain_map_names
                    (snd (bus1_peer_name_remove peer_name domain))
                  = delete (pn_name peer_name) (domain_map_names domain)).
    { unfold bus1_peer_name_remove. by rewrite Hpn. }
    destruct (bus1_peer_name_remove peer_name domain) as [pn d].
    cbn [snd] in Hrm. destruct (IH d Hlinked) as [Hin Hout].
    destruct (cleanup_names next d) as [d1 evs]. cbn [fst] in *. split.
    + intros k Hk. cbn [map] in Hk.
      destruct (decide (k ∈ map pn_name next)) as [Hnext | Hnext];
        [by apply Hin |].
      apply elem_of_cons in Hk as [-> | Hk]; [| done].
      rewrite Hout by exact Hnext. rewrite Hrm. apply lookup_delete_eq.
    + intros k Hk. cbn [map] in Hk.
      apply not_elem_of_cons in Hk as [Hne Hk].
      rewrite Hout by exact Hk. rewrite Hrm. by apply lookup_delete_ne.
Qed.

(** The loop of the cleanup callback keeps the counter of the index in
    step with the index. *)
Lemma cleanup_names_counted names :
  forall domain,
    names_indexed names domain ->
    index_counted domain ->
    index_counted (fst (cleanup_names names domain)).
Proof.
  induction names as [| peer_name next IH];
    intros domain [Hnodup Hnames] Hcount; [exact Hcount |].
  cbn [map] in Hnodup. apply NoDup_cons in Hnodup as [Hnotin Hnodup].
  apply Forall_cons in Hnames as [[Hpn [owner Hpresent]] Hnames].
  cbn [cleanup_names].
  assert (Hd : snd (bus1_peer_name_remove peer_name domain)
               = mk_domain (delete (pn_name peer_name)
                                   (domain_map_names domain))
                           (wrap64 (domain_n_names domain - 1))
                           (domain_list_peers domain)
                           (domain_n_peers domain)).
  { unfold bus1_peer_name_remove. by rewrite Hpn. }
  destruct (bus1_peer_name_remove peer_name domain) as [pn d].
  cbn [snd] in Hd. subst d.
  match goal with |- context [cleanup_names next ?d] => set (d1 := d) end.
  assert (Hcount1 : index_counted d1).
  { unfold index_counted in Hcount |- *. unfold d1. simpl.
    rewrite map_size_delete_Some by (by eexists).
    rewrite Hcount, wrap64_sub_l. f_equal.
    assert (size (domain_map_names domain) <> O).
    { intros Hsize. apply map_size_empty_iff in Hsize.
      rewrite Hsize, lookup_empty in Hpresent. discriminate. }
    lia. }
  assert (Hnames1 : names_indexed next d1).
  { split; [exact Hnodup |]. rewrite Forall_forall in Hnames |- *.
    intros pn' Hin. destruct (Hnames pn' Hin) as [Hl Hp].
    split; [exact Hl |]. unfold d1. simpl.
    rewrite lookup_delete_ne; [exact Hp |].
    intros Heq. apply Hnotin. rewrite Heq. by apply list_elem_of_fmap_2. }
  specialize (IH d1 Hnames1 Hcount1).
  by destruct (cleanup_names next d1) as [d2 evs].
Qed.

(** ** CONNECT and DISCONNECT of one peer *)

(** What [bus1_peer_teardown] does to a peer that has its info and was not
    torn down before. *)
Lemma teardown_fires self peer domain info :
  peer_active peer <> ACTIVE_DEAD ->
  peer_info peer = Some info ->
  exists evs,
    bus1_peer_teardown self peer domain
    = (0, mk_peer ACTIVE_DEAD None [] false,
       mk_domain
         (domain_map_names (fst (cleanup_names (peer_names peer) domain)))
         (domain_n_names (fst (cleanup_names (peer_names peer) domain)))
         (filter (fun p => p <> self) (domain_list_peers domain))
         (wrap64 (domain_n_peers domain - 1)),
       evs).
Proof.
  intros Hactive Hinfo.
  destruct (cleanup_names_peers (peer_names peer) domain) as [Hl Hn].
  unfold bus1_peer_teardown, teardown_locked, teardown_deactivate,
    peer_active_cleanup, bus1_active_cleanup, bus1_peer_cleanup.
  cbn [peer_active peer_info peer_names peer_link_domain].
  assert (Hdeact : bus1_active_drain (bus1_active_deactivate (peer_active peer))
                   = ACTIVE_DEACTIVATING)
    by (by destruct (peer_active peer)).
  rewrite Hdeact, Hinfo.
  destruct (cleanup_names (peer_names peer) domain) as [d evs].
  cbn [fst] in *. rewrite Hl, Hn. eexists. reflexivity.
Qed.

(** What a CONNECT that gets as far as the name index does on a NEW peer
    when the names are distinct and free: the peer is activated, owns its
    info and its names, and the domain lists the peer and indexes the
    names. *)
Lemma connect_new_linked e self peer domain uid flags pool names :
  bus1_active_is_new (peer_active peer) = true ->
  peer_info peer = None ->
  connect_prepares e pool names ->
  NoDup names ->
  names_free names domain ->
  is_u64 (domain_n_names domain) ->
  exists peer' domain',
    bus1_peer_connect_new e self peer domain uid
      (mk_cmd_connect flags pool (nulstr names))
    = Some (0, peer', domain', [])
    /\ peer_active peer' = ACTIVE_ACTIVE
    /\ peer_info peer' = Some (info_connected uid pool)
    /\ peer_name_list peer' = reverse names
    /\ Forall (fun pn => pn_linked pn = true /\ pn_peer pn = self)
              (peer_names peer')
    /\ peer_link_domain peer' = true
    /\ (forall k, k ∈ names -> domain_map_names domain' !! k = Some self)
    /\ (forall k, k ∉ names ->
          domain_map_names domain' !! k = domain_map_names domain !! k)
    /\ domain_n_names domain'
       = wrap64 (domain_n_names domain + Z.of_nat (length names))
    /\ domain_list_peers domain' = self :: domain_list_peers domain
    /\ domain_n_peers domain' = wrap64 (domain_n_peers domain + 1).
Proof.
  intros Hnew Hinfo Hprep Hnodup Hfree Hn.
  rewrite (connect_new_prepared e self peer domain uid flags pool names
             Hnew Hinfo Hprep).
  cbn zeta.
  set (nodes := reverse (map (mk_peer_name self false) names)).
  assert (Hnames : map pn_name nodes = reverse names)
    by apply nodes_names.
  destruct (link_names_success nodes domain) as
    (names' & domain' & Hlink & Hnm & Hpeers & Hlinked & Hin & Hout & Hcount
     & Hlist & Hnp).
  { apply nodes_unlinked. }
  { rewrite Hnames. by rewrite reverse_Permutation. }
  { unfold nodes. apply Forall_reverse, Forall_fmap.
    unfold names_free in Hfree. exact Hfree. }
  { exact Hn. }
  rewrite Hlink. cbn [Z.ltb Z.compare].
  eexists _, _. split; [reflexivity |].
  cbn [peer_active peer_info peer_names peer_link_domain domain_map_names
       domain_n_names domain_list_peers domain_n_peers].
  repeat split.
  - by destruct (peer_active peer).
  - unfold peer_name_list. cbn [peer_names]. by rewrite Hnm.
  - assert (Hself : Forall (fun pn => pn_peer pn = self) names').
    { apply Forall_forall. intros pn Hpn.
      assert (Hmem : pn_peer pn ∈ map pn_peer names')
        by (by apply list_elem_of_fmap_2).
      rewrite Hpeers in Hmem.
      apply list_elem_of_fmap in Hmem as (node & -> & Hnode).
      pose proof (nodes_peers self names) as Hall.
      rewrite Forall_forall in Hall. by apply Hall. }
    rewrite Forall_forall in Hlinked, Hself |- *. intros pn Hpn.
    split; [by apply Hlinked | by apply Hself].
  - intros k Hk.
    apply (Hin (mk_peer_name self false k)).
    unfold nodes. apply elem_of_reverse. by apply list_elem_of_fmap_2.
  - intros k Hk. apply Hout. rewrite Hnames.
    intros Hrev. apply Hk. by apply elem_of_reverse.
  - rewrite Hcount. unfold nodes. by rewrite length_reverse, length_map.
  - by rewrite Hlist.
  - by rewrite Hnp.
Qed.

Lemma is_aligned_page x :
  IS_ALIGNED x PAGE_SIZE = true <-> x mod PAGE_SIZE = 0.
Proof.
  unfold IS_ALIGNED, PAGE_SIZE. change (4096 - 1) with (Z.ones 12).
  rewrite Z.land_ones by lia. change (2 ^ 12) with 4096.
  apply Z.eqb_eq.
Qed.

(** A CONNECT that succeeds on a NEW peer got as far as the name index
    with a list of distinct names, none of them taken. *)
Lemma connect_new_success_prepared e self peer domain uid param
    peer' domain' evs :
  bus1_active_is_new (peer_active peer) = true ->
  bus1_peer_connect_new e self peer domain uid param
  = Some (0, peer', domain', evs) ->
  peer_info peer = None
  /\ exists names,
       connect_names param = nulstr names
       /\ connect_prepares e (connect_pool_size param) names
       /\ NoDup names
       /\ names_free names domain.
Proof.
  intros Hnew. unfold bus1_peer_connect_new, bus1_peer_info_new.
  rewrite Hnew. cbn [negb].
  destruct (peer_info peer); [discriminate |].
  destruct (Z.eqb_spec (connect_pool_size param) 0) as [Hzero | Hzero];
    [discriminate |].
  destruct (IS_ALIGNED (connect_pool_size param) PAGE_SIZE) eqn:Halign;
    [| discriminate].
  cbn [orb negb].
  destruct (env_kmalloc_info e) eqn:Hmem; [| discriminate]. cbn [negb].
  destruct (Z.ltb_spec (env_pool_create e) 0) as [Hc | Hc].
  { intros [= Hr _ _ _]. lia. }
  destruct (Z.ltb_spec (env_user_acquire e) 0) as [Hu | Hu].
  { intros [= Hr _ _ _]. lia. }
  destruct (connect_alloc_names _ _ _ _ _) as [[r nodes] |] eqn:Halloc;
    [| discriminate].
  cbn [mbind option_bind].
  destruct (Z.ltb_spec r 0) as [Hr | Hr].
  { intros [= Hr0 _ _ _]. lia. }
  destruct (alloc_names_sound _ _ _ _ _ _ _ Halloc Hr)
    as (names & Hblob & Hok & Henv & Hnodes).
  rewrite app_nil_r in Hnodes. subst nodes.
  pose proof (link_names_collision
                (reverse (map (mk_peer_name self false) names)) domain
                (nodes_unlinked self names)) as Hcoll.
  destruct (connect_link_names _ domain) as [[r1 names1] d1].
  cbn [fst] in Hcoll.
  destruct (Z.ltb_spec r1 0) as [Hr1 | Hr1].
  { destruct (connect_unlink_names names1 d1). intros [= Hr0 _ _ _]. lia. }
  intros _. split; [reflexivity |].
  exists names. split; [exact Hblob |].
  split; [by repeat split |].
  destruct (decide (NoDup (map pn_name
                             (reverse (map (mk_peer_name self false) names)))
                    /\ Forall (fun pn => domain_map_names domain
                                         !! pn_name pn = None)
                              (reverse (map (mk_peer_name self false) names))))
    as [[Hnodup Hfree] | Hno].
  - rewrite nodes_names in Hnodup. rewrite reverse_Permutation in Hnodup.
    split; [exact Hnodup |].
    apply Forall_reverse, Forall_fmap in Hfree. exact Hfree.
  - specialize (Hcoll Hno). unfold EISNAM in Hcoll. lia.
Qed.

(** X1: a CONNECT(PEER or MONITOR) that returns 0 on a NEW peer was
    well-formed: the peer had no info, the pool size is a positive
    multiple of the page size, and the name blob is a sequence of
    zero-terminated names that are non-empty, shorter than
    BUS1_NAME_MAX_SIZE, pairwise distinct and all absent from the name
    index of the domain. *)
Theorem connect_new_success_inv e self peer domain uid param
    peer' domain' evs :
  bus1_active_is_new (peer_active peer) = true ->
  bus1_peer_connect_new e self peer domain uid param
  = Some (0, peer', domain', evs) ->
  peer_info peer = None
  /\ connect_pool_size param <> 0
  /\ connect_pool_size param mod PAGE_SIZE = 0
  /\ exists names,
       connect_names param = nulstr names
       /\ Forall name_ok names
       /\ Forall (fun name => Z.of_nat (length name) < BUS1_NAME_MAX_SIZE)
                 names
       /\ NoDup names
       /\ names_free names domain.
Proof.
  intros Hnew Hres.
  destruct (connect_new_success_prepared _ _ _ _ _ _ _ _ _ Hnew Hres)
    as (Hinfo & names & Hblob & Hprep & Hnodup & Hfree).
  destruct Hprep as (Hpool & Halign & _ & _ & _ & Hok & Henv).
  split; [exact Hinfo |]. split; [exact Hpool |].
  split; [by apply is_aligned_page |].
  exists names. repeat split; auto.
  eapply Forall_impl; [exact Henv |]. simpl. intros name [Hlen _]. lia.
Qed.

(** X2: [bus1_peer_connect_new] never returns a positive value, and
    whenever it fails, at whichever step, it hands back the peer and the
    domain exactly as it found them: names linked before the failure are
    unlinked again and [n_names] is back at its value. *)
Theorem connect_new_failure_restores e self peer domain uid param
    r peer' domain' evs :
  is_u64 (domain_n_names domain) ->
  bus1_peer_connect_new e self peer domain uid param
  = Some (r, peer', domain', evs) ->
  r <= 0 /\ (r < 0 -> peer' = peer /\ domain' = domain).
Proof.
  intros Hn Hres. split.
  - revert Hres. unfold bus1_peer_connect_new, bus1_peer_info_new.
    destruct (negb _).
    + destruct (peer_info peer); [| intros [= <- _ _ _]; done].
      destruct (negb _); [intros [= <- _ _ _]; done |].
      destruct (bus1_peer_names_check _ _) as [r0 |]; [| discriminate].
      cbn [mbind option_bind].
      destruct (Z.ltb_spec r0 0); intros [= <- _ _ _]; [lia | done].
    + destruct (peer_info peer); [intros [= <- _ _ _]; done |].
      destruct (_ || _); [intros [= <- _ _ _]; done |].
      destruct (negb _); [intros [= <- _ _ _]; done |].
      destruct (Z.ltb_spec (env_pool_create e) 0);
        [intros [= <- _ _ _]; lia |].
      destruct (Z.ltb_spec (env_user_acquire e) 0);
        [intros [= <- _ _ _]; lia |].
      destruct (connect_alloc_names _ _ _ _ _) as [[r0 nodes] |];
        [| discriminate].
      cbn [mbind option_bind].
      destruct (Z.ltb_spec r0 0); [intros [= <- _ _ _]; lia |].
      destruct (connect_link_names nodes domain) as [[r1 names1] d1].
      destruct (Z.ltb_spec r1 0).
      * destruct (connect_unlink_names names1 d1).
        intros [= <- _ _ _]. lia.
      * intros [= <- _ _ _]. done.
  - intros Hr. by eapply connect_new_failure_unchanged.
Qed.

(** CONNECT followed by DISCONNECT: the teardown succeeds and the domain
    is the one the CONNECT found. *)
Lemma connect_disconnect_round_trip e self peer domain uid flags pool
    names :
  bus1_active_is_new (peer_active peer) = true ->
  peer_info peer = None ->
  connect_prepares e pool names ->
  NoDup names ->
  names_free names domain ->
  is_u64 (domain_n_names domain) ->
  is_u64 (domain_n_peers domain) ->
  self ∉ domain_list_peers domain ->
  exists peer' domain' evs,
    bus1_peer_connect_new e self peer domain uid
      (mk_cmd_connect flags pool (nulstr names))
    = Some (0, peer', domain', [])
    /\ bus1_peer_teardown self peer' domain'
       = (0, mk_peer ACTIVE_DEAD None [] false, domain, evs).
Proof.
  intros Hnew Hinfo Hprep Hnodup Hfree Hn Hnp Hself.
  rewrite (connect_new_prepared e self peer domain uid flags pool names
             Hnew Hinfo Hprep).
  cbn zeta.
  set (nodes := reverse (map (mk_peer_name self false) names)).
  destruct (link_names_success nodes domain) as
    (names' & domain' & Hlink & _ & _ & _ & _ & _ & _ & Hlist & Hpeers).
  { apply nodes_unlinked. }
  { unfold nodes. rewrite nodes_names. by rewrite reverse_Permutation. }
  { unfold nodes. apply Forall_reverse, Forall_fmap. exact Hfree. }
  { exact Hn. }
  pose proof (link_names_unlink_restores nodes domain 0 names' domain'
                (nodes_unlinked self names) Hn Hlink) as Hrestore.
  rewrite Hlink. cbn [Z.ltb Z.compare].
  set (peer1 := mk_peer (bus1_active_activate (peer_active peer))
                        (Some (info_connected uid pool)) names' true).
  set (domain1 := mk_domain (domain_map_names domain')
                            (domain_n_names domain')
                            (self :: domain_list_peers domain')
                            (wrap64 (domain_n_peers domain' + 1))).
  destruct (teardown_fires self peer1 domain1 (info_connected uid pool))
    as [evs Hdown].
  { unfold peer1. simpl. by destruct (peer_active peer). }
  { reflexivity. }
  exists peer1, domain1, evs. split; [reflexivity |].
  rewrite Hdown. f_equal. f_equal.
  unfold domain1 at 1 2. cbn [peer_names peer1].
  rewrite cleanup_names_with_peers. cbn [fst domain_map_names domain_n_names].
  rewrite cleanup_names_domain, Hrestore. cbn [snd].
  unfold domain1. cbn [domain_list_peers domain_n_peers].
  rewrite filter_cons_False by (intros H; by apply H).
  rewrite Hlist, Hpeers, filter_other_absent by exact Hself.
  rewrite wrap64_succ_pred by exact Hnp.
  by destruct domain.
Qed.

(** ** Counters under CONNECT, names under teardown *)

(** Whatever its outcome, a CONNECT(PEER or MONITOR) leaves [n_names] the
    size of the index and [n_peers] the length of the peer list. *)
Lemma connect_new_counted e self peer domain uid param
    r peer' domain' evs :
  index_counted domain ->
  peers_counted domain ->
  bus1_peer_connect_new e self peer domain uid param
  = Some (r, peer', domain', evs) ->
  index_counted domain' /\ peers_counted domain'.
Proof.
  intros Hindex Hpeers Hres.
  destruct (Z.ltb_spec r 0) as [Hr | Hr].
  { destruct (connect_new_failure_unchanged e self peer domain uid param
                r peer' domain' evs (index_counted_u64 _ Hindex) Hres Hr)
      as [_ ->].
    by split. }
  revert Hres. unfold bus1_peer_connect_new.
  destruct (negb _).
  - destruct (peer_info peer); [| by intros [= _ _ <- _]].
    destruct (negb _); [by intros [= _ _ <- _] |].
    destruct (bus1_peer_names_check _ _) as [r0 |]; [| discriminate].
    cbn [mbind option_bind].
    destruct (r0 <? 0); by intros [= _ _ <- _].
  - destruct (peer_info peer); [by intros [= _ _ <- _] |].
    destruct (bus1_peer_info_new e param) as [[r0 | info] evs0];
      [by intros [= _ _ <- _] |].
    destruct (_ <? 0); [by intros [= _ _ <- _] |].
    destruct (connect_alloc_names _ _ _ _ _) as [[r0 nodes] |];
      [| discriminate].
    cbn [mbind option_bind].
    destruct (r0 <? 0); [by intros [= _ _ <- _] |].
    pose proof (link_names_counted nodes domain Hindex) as Hlinked.
    destruct (link_names_peers nodes domain) as [Hl Hn].
    destruct (connect_link_names nodes domain) as [[r1 names1] d1].
    cbn [snd] in *.
    destruct (Z.ltb_spec r1 0) as [Hr1 | Hr1].
    { destruct (connect_unlink_names names1 d1). intros [= <- _ _ _]. lia. }
    intros [= _ _ <- _]. split; [exact Hlinked |].
    unfold peers_counted in *. cbn [domain_n_peers domain_list_peers].
    rewrite Hl, Hn, Hpeers, wrap64_add_l. cbn [length]. f_equal. lia.
Qed.

(** X7: [bus1_peer_teardown] of a peer that has its info, was not torn
    down before and whose name nodes are linked returns 0 and leaves the
    peer DEAD, without info and without names; every name of the peer is
    gone from the index, every other entry of the index is untouched, and
    the peer, and only the peer, is gone from the peer list of the
    domain. *)
Theorem teardown_removes_names self peer domain info :
  peer_active peer <> ACTIVE_DEAD ->
  peer_info peer = Some info ->
  Forall (fun pn => pn_linked pn = true) (peer_names peer) ->
  exists peer' domain' evs,
    bus1_peer_teardown self peer domain = (0, peer', domain', evs)
    /\ peer_active peer' = ACTIVE_DEAD
    /\ peer_info peer' = None
    /\ peer_names peer' = []
    /\ (forall k, k ∈ peer_name_list peer ->
          domain_map_names domain' !! k = None)
    /\ (forall k, k ∉ peer_name_list peer ->
          domain_map_names domain' !! k = domain_map_names domain !! k)
    /\ (self ∉ domain_list_peers domain')
    /\ (forall p, p <> self ->
          (p ∈ domain_list_peers domain') <-> (p ∈ domain_list_peers domain)).
Proof.
  intros Hlive Hinfo Hlinked.
  destruct (teardown_fires self peer domain info Hlive Hinfo) as [evs ->].
  destruct (cleanup_names_lookup (peer_names peer) domain Hlinked)
    as [Hgone Hkept].
  eexists _, _, _. split; [reflexivity |].
  cbn [peer_active peer_info peer_names domain_map_names domain_list_peers].
  repeat split; try assumption.
  - intros Hin. apply list_elem_of_filter in Hin as [Hne _]. by apply Hne.
  - intros Hin. by apply list_elem_of_filter in Hin as [_ Hin].
  - intros Hin. by apply list_elem_of_filter.
Qed.

(** ** SEND: the life of the transaction *)

Lemma send_unprepared e param :
  ~ send_prepares e param ->
  exists r, r < 0 /\ bus1_peer_ioctl_send e (inr param) = (r, []).
Proof.
  intros Hnot. unfold bus1_peer_ioctl_send.
  destruct (Z.eqb_spec (clear_bits (send_flags param)
                          (Z.lor BUS1_SEND_FLAG_IGNORE_UNKNOWN
                                 BUS1_SEND_FLAG_CONVEY_ERRORS)) 0)
    as [Hflags | Hflags]; cbn [negb];
    [| exists (- EINVAL); by split].
  destruct (Z.ltb_spec BUS1_VEC_MAX (send_n_vecs param)) as [Hvecs | Hvecs];
    cbn [orb]; [exists (- EMSGSIZE); by split |].
  destruct (Z.ltb_spec BUS1_FD_MAX (send_n_fds param)) as [Hfds | Hfds];
    [exists (- EMSGSIZE); by split |].
  destruct (Z.eqb_spec (send_ptr_destinations param)
              (cast_unsigned_long e (send_ptr_destinations param)))
    as [Hp1 | Hp1]; cbn [negb orb]; [| exists (- EFAULT); by split].
  destruct (Z.eqb_spec (send_ptr_vecs param)
              (cast_unsigned_long e (send_ptr_vecs param)))
    as [Hp2 | Hp2]; cbn [negb orb]; [| exists (- EFAULT); by split].
  destruct (Z.eqb_spec (send_ptr_ids param)
              (cast_unsigned_long e (send_ptr_ids param)))
    as [Hp3 | Hp3]; cbn [negb orb]; [| exists (- EFAULT); by split].
  destruct (Z.eqb_spec (send_ptr_fds param)
              (cast_unsigned_long e (send_ptr_fds param)))
    as [Hp4 | Hp4]; cbn [negb orb]; [| exists (- EFAULT); by split].
  destruct (Z.ltb_spec (env_transaction_new e) 0) as [Hnew | Hnew];
    [exists (env_transaction_new e); by split |].
  exfalso. apply Hnot. by repeat split.
Qed.

Lemma send_loop_shape e :
  forall left i,
    fst (send_loop e left i) <= 0
    /\ count_events is_transaction_free (snd (send_loop e left i)) = O
    /\ count_events is_transaction_commit (snd (send_loop e left i)) = O.
Proof.
  induction left as [| left IH]; intros i; simpl; [by repeat split |].
  destruct (env_get_user e i) as [destination |]; [| by repeat split].
  destruct (Z.ltb_spec (env_instantiate_for_id e i destination) 0);
    [simpl; repeat split; lia |].
  specialize (IH (S i)). destruct (send_loop e left (S i)) as [r evs].
  exact IH.
Qed.

Lemma send_loop_success e ids :
  forall i,
    (forall k id, ids !! k = Some id ->
       env_get_user e (i + k) = Some id
       /\ 0 <= env_instantiate_for_id e (i + k) id) ->
    send_loop e (length ids) i
    = (0, map ev_transaction_instantiate_for_id ids).
Proof.
  induction ids as [| id ids IH]; intros i Hids; [reflexivity |].
  cbn [length send_loop map].
  destruct (Hids O id eq_refl) as [Hget Hinst].
  rewrite Nat.add_0_r in Hget, Hinst. rewrite Hget.
  destruct (Z.ltb_spec (env_instantiate_for_id e i id) 0); [lia |].
  rewrite (IH (S i)); [reflexivity |].
  intros k id' Hk. replace (S i + k)%nat with (i + S k)%nat by lia.
  by apply Hids.
Qed.

Lemma send_loop_refused e ids r :
  forall left i,
    (length ids < left)%nat ->
    (forall k id, ids !! k = Some id ->
       env_get_user e (i + k) = Some id
       /\ 0 <= env_instantiate_for_id e (i + k) id) ->
    forall id,
      env_get_user e (i + length ids) = Some id ->
      env_instantiate_for_id e (i + length ids) id = r ->
      r < 0 ->
      send_loop e left i
      = (r, map ev_transaction_instantiate_for_id (ids ++ [id])).
Proof.
  induction ids as [| id0 ids IH]; intros left i Hlt Hids id Hget Hinst Hr.
  - destruct left as [| left]; [simpl in Hlt; lia |].
    cbn [length] in Hget, Hinst. rewrite Nat.add_0_r in Hget, Hinst.
    cbn [send_loop]. rewrite Hget, Hinst.
    destruct (Z.ltb_spec r 0); [reflexivity | lia].
  - destruct left as [| left]; [simpl in Hlt; lia |].
    cbn [send_loop].
    destruct (Hids O id0 eq_refl) as [Hget0 Hinst0].
    rewrite Nat.add_0_r in Hget0, Hinst0. rewrite Hget0.
    destruct (Z.ltb_spec (env_instantiate_for_id e i id0) 0); [lia |].
    cbn [length] in Hlt, Hget, Hinst.
    rewrite (IH left (S i) ltac:(lia)) with (id := id).
    + reflexivity.
    + intros k id' Hk. replace (S i + k)%nat with (i + S k)%nat by lia.
      by apply Hids.
    + by replace (S i + length ids)%nat with (i + S (length ids))%nat by lia.
    + by replace (S i + length ids)%nat with (i + S (length ids))%nat by lia.
    + exact Hr.
Qed.

(** X10: the life of the transaction in a SEND.  The call never returns
    a positive value.  If the request passes validation and the
    transaction can be built, the trace ends with the one
    [bus1_transaction_free] of that transaction; otherwise the call fails
    with an empty trace: nothing was built and nothing is freed.  The
    multicast commit is in the trace only if the call returns 0. *)
Theorem send_transaction_lifetime e param r evs :
  bus1_peer_ioctl_send e (inr param) = (r, evs) ->
  r <= 0
  /\ (send_prepares e param ->
      exists evs0,
        evs = evs0 ++ [ev_transaction_free (negb (env_transaction_in_buf e))]
        /\ count_events is_transaction_free evs0 = O)
  /\ (~ send_prepares e param -> r < 0 /\ evs = [])
  /\ (count_events is_transaction_commit evs <> O -> r = 0).
Proof.
  intros Hres.
  assert (Hcases : send_prepares e param \/ ~ send_prepares e param).
  { unfold send_prepares.
    destruct (Z.eq_dec (clear_bits (send_flags param)
                          (Z.lor BUS1_SEND_FLAG_IGNORE_UNKNOWN
                                 BUS1_SEND_FLAG_CONVEY_ERRORS)) 0);
      [| right; tauto].
    destruct (Z_le_dec (send_n_vecs param) BUS1_VEC_MAX); [| right; tauto].
    destruct (Z_le_dec (send_n_fds param) BUS1_FD_MAX); [| right; tauto].
    destruct (Z.eq_dec (send_ptr_destinations param)
                (cast_unsigned_long e (send_ptr_destinations param)));
      [| right; tauto].
    destruct (Z.eq_dec (send_ptr_vecs param)
                (cast_unsigned_long e (send_ptr_vecs param)));
      [| right; tauto].
    destruct (Z.eq_dec (send_ptr_ids param)
                (cast_unsigned_long e (send_ptr_ids param)));
      [| right; tauto].
    destruct (Z.eq_dec (send_ptr_fds param)
                (cast_unsigned_long e (send_ptr_fds param)));
      [| right; tauto].
    destruct (Z_le_dec 0 (env_transaction_new e)); [| right; tauto].
    left. tauto. }
  destruct Hcases as [Hprep | Hnot].
  - rewrite (send_prepares_dispatch e param Hprep) in Hres. cbn zeta in Hres.
    assert (Hgoal :
      r <= 0
      /\ (exists evs0,
            evs = evs0 ++ [ev_transaction_free
                             (negb (env_transaction_in_buf e))]
            /\ count_events is_transaction_free evs0 = O)
      /\ (count_events is_transaction_commit evs <> O -> r = 0));
      [| destruct Hgoal as (H1 & H2 & H3); repeat split; tauto].
    destruct (send_n_destinations param =? 1).
    + destruct (env_get_user e 0%nat) as [destination |].
      * destruct (Z.ltb_spec (env_commit_for_id e destination) 0);
          injection Hres as <- <-;
          (split; [lia |]);
          (split; [by exists [ev_transaction_commit_for_id destination] |]);
          simpl; lia.
      * injection Hres as <- <-. split; [unfold EFAULT; lia |].
        split; [by exists [] |]. simpl. lia.
    + pose proof (send_loop_shape e
                    (Z.to_nat (send_n_destinations param)) O)
        as (Hr & Hfree & Hcommit).
      destruct (send_loop e _ _) as [r0 evs0]. cbn [fst snd] in *.
      destruct (Z.ltb_spec r0 0); injection Hres as <- <-.
      * split; [lia |]. split; [by exists evs0 |].
        rewrite count_events_app, Hcommit. simpl. lia.
      * split; [lia |]. split; [| done].
        exists (evs0 ++ [ev_transaction_commit]).
        split; [by rewrite <- app_assoc |].
        rewrite count_events_app, Hfree. reflexivity.
  - destruct (send_unprepared e param Hnot) as (r0 & Hr0 & Heq).
    rewrite Heq in Hres. injection Hres as <- <-.
    repeat split; try tauto; try lia.
Qed.

(** X11: a multicast SEND (a number of destinations other than 1, zero
    included) whose destination ids can all be read and instantiated
    returns 0; it instantiates the transaction for the ids in the order of
    the user array, commits once, and frees the transaction. *)
Theorem send_multicast_success e param ids :
  send_prepares e param ->
  send_n_destinations param = Z.of_nat (length ids) ->
  length ids <> 1%nat ->
  (forall k id, ids !! k = Some id ->
     env_get_user e k = Some id /\ 0 <= env_instantiate_for_id e k id) ->
  bus1_peer_ioctl_send e (inr param)
  = (0, map ev_transaction_instantiate_for_id ids
        ++ [ev_transaction_commit;
            ev_transaction_free (negb (env_transaction_in_buf e))]).
Proof.
  intros Hprep Hn Hmulti Hids.
  rewrite (send_prepares_dispatch e param Hprep). cbn zeta.
  destruct (Z.eqb_spec (send_n_destinations param) 1) as [H1 | _]; [lia |].
  rewrite Hn, Nat2Z.id, (send_loop_success e ids O Hids). reflexivity.
Qed.

(** X12: a multicast SEND in which the instantiation for a destination
    fails stops there: it returns the error of that instantiation, later
    destinations are neither read nor instantiated, nothing is committed,
    and the transaction is freed. *)
Theorem send_multicast_refused e param ids id r :
  send_prepares e param ->
  send_n_destinations param <> 1 ->
  (length ids < Z.to_nat (send_n_destinations param))%nat ->
  (forall k id, ids !! k = Some id ->
     env_get_user e k = Some id /\ 0 <= env_instantiate_for_id e k id) ->
  env_get_user e (length ids) = Some id ->
  env_instantiate_for_id e (length ids) id = r ->
  r < 0 ->
  bus1_peer_ioctl_send e (inr param)
  = (r, map ev_transaction_instantiate_for_id (ids ++ [id])
        ++ [ev_transaction_free (negb (env_transaction_in_buf e))]).
Proof.
  intros Hprep Hmulti Hlt Hids Hget Hinst Hr.
  rewrite (send_prepares_dispatch e param Hprep). cbn zeta.
  destruct (Z.eqb_spec (send_n_destinations param) 1) as [H1 | _]; [lia |].
  rewrite (send_loop_refused e ids r _ O Hlt Hids id Hget Hinst Hr).
  destruct (Z.ltb_spec r 0); [reflexivity | lia].
Qed.

(** ** RECV: file descriptors and the fate of the message *)

Lemma count_events_map_true {A} P (f : A -> event) l :
  (forall x, P (f x) = true) -> count_events P (map f l) = length l.
Proof.
  intros HP. induction l as [| x l IH]; simpl; [reflexivity |].
  by rewrite HP, IH.
Qed.

Lemma count_events_map_false {A} P (f : A -> event) l :
  (forall x, P (f x) = false) -> count_events P (map f l) = O.
Proof.
  intros HP. induction l as [| x l IH]; simpl; [reflexivity |].
  by rewrite HP, IH.
Qed.

Lemma put_users_count P e values k :
  (forall v, P (ev_put_user v) = false) ->
  count_events P (snd (put_users e k values)) = O.
Proof.
  intros HP. apply count_events_none.
  eapply Forall_impl; [apply put_users_events |].
  intros ev [v ->]. apply HP.
Qed.

Lemma recv_exit_count P e r param fds :
  (forall v, P (ev_put_user v) = false) ->
  count_events P (snd (recv_exit e r param fds))
  = count_events P (put_unused_fds fds).
Proof.
  intros HP. unfold recv_exit.
  destruct (0 <=? r).
  - pose proof (put_users_count P e
                  [recv_msg_offset param; recv_msg_size param;
                   recv_msg_ids param; recv_msg_fds param] 0 HP) as Hput.
    destruct (put_users e 0 _) as [ok evs]. cbn [snd] in *.
    by rewrite count_events_app, Hput.
  - reflexivity.
Qed.

Lemma put_unused_fds_count fds :
  count_events is_get_unused_fd (put_unused_fds fds) = O
  /\ count_events is_put_unused_fd (put_unused_fds fds) = length fds
  /\ count_events is_fd_install (put_unused_fds fds) = O
  /\ count_events is_queue_remove (put_unused_fds fds) = O
  /\ count_events is_message_free (put_unused_fds fds) = O.
Proof.
  unfold put_unused_fds.
  rewrite (count_events_map_true is_put_unused_fd) by done.
  rewrite !count_events_map_false by done.
  by rewrite length_reverse.
Qed.

Lemma recv_install_fds_count n fds files :
  count_events is_get_unused_fd (recv_install_fds n fds files) = O
  /\ count_events is_put_unused_fd (recv_install_fds n fds files) = O
  /\ count_events is_fd_install (recv_install_fds n fds files) = n
  /\ count_events is_queue_remove (recv_install_fds n fds files) = O
  /\ count_events is_message_free (recv_install_fds n fds files) = O.
Proof.
  induction n as [| n (H1 & H2 & H3 & H4 & H5)]; [done |].
  simpl. by rewrite H1, H2, H3, H4, H5.
Qed.

(** The reservation loop asks for the descriptors one by one and stops at
    the first refusal. *)
Lemma recv_reserve_fds_spec e :
  forall left fds,
    exists got,
      snd (fst (recv_reserve_fds e left fds)) = fds ++ got
      /\ snd (recv_reserve_fds e left fds) = map ev_get_unused_fd got
      /\ got = map (env_get_unused_fd e) (seq (length fds) (length got))
      /\ Forall (fun fd => 0 <= fd) got
      /\ ((fst (fst (recv_reserve_fds e left fds)) < 0
           /\ (length got < left)%nat
           /\ fst (fst (recv_reserve_fds e left fds))
              = env_get_unused_fd e (length fds + length got))
          \/ (fst (fst (recv_reserve_fds e left fds)) = 0
              /\ length got = left)).
Proof.
  induction left as [| left IH]; intros fds.
  - exists []. simpl. rewrite app_nil_r. repeat split; auto.
  - simpl.
    destruct (Z.ltb_spec (env_get_unused_fd e (length fds)) 0) as [Hr | Hr].
    + exists []. simpl. rewrite app_nil_r, Nat.add_0_r.
      repeat split; auto. left. repeat split; [lia | lia].
    + destruct (IH (fds ++ [env_get_unused_fd e (length fds)]))
        as (got & Hfds & Hevs & Hgot & Hpos & Hres).
      destruct (recv_reserve_fds e left _) as [[r fds'] evs].
      cbn [fst snd] in *.
      exists (env_get_unused_fd e (length fds) :: got).
      rewrite length_app in Hgot, Hres. cbn [length] in Hgot, Hres.
      replace (length fds + 1)%nat with (S (length fds)) in Hgot, Hres
        by lia.
      split; [by rewrite Hfds, <- app_assoc |].
      split; [by rewrite Hevs |].
      split; [cbn [length seq map]; by rewrite <- Hgot |].
      split; [by constructor |].
      destruct Hres as [(Hneg & Hlen & Heq) | [-> Hlen]].
      * left. cbn [length]. repeat split; [lia | lia |].
        rewrite Heq. f_equal. lia.
      * right. cbn [length]. split; [reflexivity | lia].
Qed.

Lemma recv_reserve_fds_ok e left :
  (forall k, (k < left)%nat -> 0 <= env_get_unused_fd e k) ->
  recv_reserve_fds e left []
  = (0, recv_reserved e left, map ev_get_unused_fd (recv_reserved e left)).
Proof.
  intros Hok.
  destruct (recv_reserve_fds_spec e left [])
    as (got & Hfds & Hevs & Hgot & _ & Hres).
  destruct (recv_reserve_fds e left []) as [[r fds'] evs].
  cbn [fst snd length app] in *.
  destruct Hres as [(Hneg & Hlen & Heq) | [-> Hlen]].
  - specialize (Hok (length got) Hlen). cbn in Heq. lia.
  - rewrite Hlen in Hgot. unfold recv_reserved. by rewrite Hfds, Hevs, Hgot.
Qed.

Lemma recv_reserve_fds_refused e left k :
  (k < left)%nat ->
  env_get_unused_fd e k < 0 ->
  fst (fst (recv_reserve_fds e left [])) < 0.
Proof.
  intros Hk Hneg.
  destruct (recv_reserve_fds_spec e left [])
    as (got & _ & _ & Hgot & Hpos & Hres).
  destruct Hres as [(Hr & _) | [_ Hlen]]; [exact Hr |].
  exfalso. rewrite Hgot in Hpos. cbn [length] in Hpos.
  rewrite Forall_forall in Hpos.
  specialize (Hpos (env_get_unused_fd e k)).
  assert (0 <= env_get_unused_fd e k); [| lia].
  apply Hpos. apply list_elem_of_fmap. exists k. split; [reflexivity |].
  apply elem_of_seq. lia.
Qed.

Ltac count_step :=
  repeat (progress
    (rewrite ?count_events_app;
     cbn [count_events is_get_unused_fd is_put_unused_fd is_fd_install
          is_queue_remove is_message_free])).

(** What the dequeue loop leaves behind: the descriptors it holds are the
    ones it reserved, it gives none back and installs none, and it
    dequeues exactly when it ends with a message in hand. *)
Lemma recv_loop_spec e :
  forall fuel info param wanted fds res info' param' fds' evs,
    recv_loop fuel e info param wanted fds
    = Some (res, info', param', fds', evs) ->
    (count_events is_get_unused_fd evs + length fds)%nat = length fds'
    /\ count_events is_put_unused_fd evs = O
    /\ count_events is_fd_install evs = O
    /\ count_events is_message_free evs = O
    /\ match res with
       | recv_goto_exit r =>
         r < 0 /\ info' = info /\ count_events is_queue_remove evs = O
       | recv_leave None =>
         bus1_queue_peek (info_queue info) = None
         /\ info' = info /\ count_events is_queue_remove evs = O
       | recv_leave (Some node) =>
         bus1_queue_peek (info_queue info) = Some node
         /\ info' = info_dequeued info (bus1_message_from_node node)
         /\ count_events is_queue_remove evs = 1%nat
         /\ msg_n_files (bus1_message_from_node node)
            <= Z.of_nat (length fds')
       end.
Proof.
  induction fuel as [| fuel IH];
    intros info param wanted fds res info' param' fds' evs; [discriminate |].
  cbn [recv_loop].
  set (step := if Z.of_nat (length fds) <? wanted
               then if negb (env_krealloc e) then (- ENOMEM, fds, [])
                    else recv_reserve_fds e
                           (Z.to_nat (wanted - Z.of_nat (length fds))) fds
               else (0, fds, [])).
  assert (Hstep :
    (count_events is_get_unused_fd (snd step) + length fds)%nat
    = length (snd (fst step))
    /\ count_events is_put_unused_fd (snd step) = O
    /\ count_events is_fd_install (snd step) = O
    /\ count_events is_message_free (snd step) = O
    /\ count_events is_queue_remove (snd step) = O
    /\ (fst (fst step) < 0
        \/ (fst (fst step) = 0
            /\ wanted <= Z.of_nat (length (snd (fst step)))))).
  { unfold step.
    destruct (Z.ltb_spec (Z.of_nat (length fds)) wanted) as [Hlt | Hge].
    - destruct (negb (env_krealloc e)).
      + simpl. repeat split; auto. left. unfold ENOMEM. lia.
      + destruct (recv_reserve_fds_spec e
                    (Z.to_nat (wanted - Z.of_nat (length fds))) fds)
          as (got & Hfds & Hevs & _ & _ & Hres).
        destruct (recv_reserve_fds e _ fds) as [[r1 fds1] evs1].
        cbn [fst snd] in *. subst fds1 evs1.
        rewrite (count_events_map_true is_get_unused_fd) by done.
        rewrite !count_events_map_false by done.
        rewrite length_app.
        repeat split; auto; [lia |].
        destruct Hres as [(Hr & _) | [-> Hlen]]; [by left | right].
        split; [reflexivity | lia].
    - simpl. repeat split; auto; try (right; split; [reflexivity | lia]). }
  destruct step as [[r1 fds1] evs1]. cbn [fst snd] in Hstep.
  destruct Hstep as (Hget & Hput & Hinst & Hfree & Hrem & Hr1).
  destruct (Z.ltb_spec r1 0) as [Hneg | Hnonneg].
  { intros [= <- <- <- <- <-]. repeat split; auto. }
  destruct Hr1 as [Hr1 | [-> Hwanted]]; [lia |].
  destruct (bus1_queue_peek (info_queue info)) as [nd |] eqn:Hpeek.
  - destruct (Z.ltb_spec (Z.of_nat (length fds1))
                (msg_n_files (bus1_message_from_node nd))) as [Hmore | Hfits].
    + destruct (recv_loop fuel e info param _ fds1)
        as [[[[[res2 info2] param2] fds2] evs2] |] eqn:Hrec;
        [| discriminate].
      cbn [mbind option_bind]. intros [= <- <- <- <- <-].
      destruct (IH _ _ _ _ _ _ _ _ _ Hrec)
        as (Hget2 & Hput2 & Hinst2 & Hfree2 & Hres2).
      count_step. rewrite Hput, Hinst, Hfree, Hput2, Hinst2, Hfree2.
      split; [lia |]. repeat split; auto.
      destruct res2 as [r2 | [node2 |]]; rewrite Hrem.
      all: cbn [Nat.add]; rewrite ?Hpeek in Hres2; tauto.
    + cbn [bus1_pool_publish].
      destruct (Z.ltb_spec (Z.of_nat (length fds1)) wanted); [lia |].
      intros [= <- <- <- <- <-].
      count_step. rewrite Hput, Hinst, Hfree, Hrem.
      destruct (msg_n_files (bus1_message_from_node nd) =? 0);
        cbn [app count_events is_get_unused_fd is_put_unused_fd
             is_fd_install is_queue_remove is_message_free];
        repeat split; auto; lia.
  - destruct (Z.ltb_spec (Z.of_nat (length fds1)) wanted); [lia |].
    intros [= <- <- <- <- <-].
    count_step. rewrite Hput, Hinst, Hfree, Hrem.
    repeat split; auto; lia.
Qed.

Lemma recv_exit_counts e r param fds :
  count_events is_get_unused_fd (snd (recv_exit e r param fds)) = O
  /\ count_events is_put_unused_fd (snd (recv_exit e r param fds))
     = length fds
  /\ count_events is_fd_install (snd (recv_exit e r param fds)) = O
  /\ count_events is_queue_remove (snd (recv_exit e r param fds)) = O
  /\ count_events is_message_free (snd (recv_exit e r param fds)) = O.
Proof.
  rewrite !recv_exit_count by done. apply put_unused_fds_count.
Qed.

Lemma count_events_warn_on P cond evs :
  P ev_warn = false ->
  count_events P (WARN_ON cond ++ evs) = count_events P evs.
Proof. intros HP. destruct cond; simpl; by rewrite ?HP. Qed.

(** X13: what a RECV leaves behind, whatever its outcome.  Every file
    descriptor number it reserved is either given back or installed, none
    is leaked; every message it dequeued is freed and nothing else is
    freed; it dequeues at most one message, and the queue of the peer
    changes exactly when the trace holds the dequeue. *)
Theorem recv_balance fuel e info imported r info' evs :
  bus1_peer_ioctl_recv fuel e info imported = Some (r, info', evs) ->
  count_events is_get_unused_fd evs
  = (count_events is_put_unused_fd evs + count_events is_fd_install evs)%nat
  /\ count_events is_queue_remove evs = count_events is_message_free evs
  /\ ((count_events is_queue_remove evs = O
       /\ info_queue info' = info_queue info)
      \/ (count_events is_queue_remove evs = 1%nat
          /\ info_queue info' = bus1_queue_remove (info_queue info))).
Proof.
  unfold bus1_peer_ioctl_recv.
  destruct imported as [r0 | param]; [intros [= _ <- <-]; auto |].
  destruct (negb _); [intros [= _ <- <-]; auto |].
  destruct (_ || _); [intros [= _ <- <-]; auto |].
  destruct (bus1_queue_peek (info_queue info)) as [node |] eqn:Hpeek;
    [| intros [= _ <- <-]; auto].
  destruct (has_flag _ _).
  - cbn [bus1_pool_publish].
    match goal with
    | |- context [recv_exit e 0 ?p []] =>
      pose proof (recv_exit_counts e 0 p []) as (H1 & H2 & H3 & H4 & H5);
      destruct (recv_exit e 0 p []) as [r1 evs1]
    end.
    cbn [snd length] in *. intros [= _ <- <-].
    rewrite !count_events_warn_on by reflexivity. count_step. rewrite H1, H2, H3, H4, H5. auto.
  - destruct (recv_loop fuel e info param _ [])
      as [[[[[res info1] param1] fds1] evs1] |] eqn:Hloop; [| discriminate].
    cbn [mbind option_bind].
    destruct (recv_loop_spec e _ _ _ _ _ _ _ _ _ _ Hloop)
      as (Hget & Hput & Hinst & Hfree & Hres).
    cbn [length] in Hget. rewrite Nat.add_0_r in Hget.
    destruct res as [r1 | [node1 |]].
    + destruct Hres as (_ & -> & Hrem).
      pose proof (recv_exit_counts e r1 param1 fds1)
        as (H1 & H2 & H3 & H4 & H5).
      destruct (recv_exit e r1 param1 fds1) as [r2 evs2]. cbn [snd] in *.
      intros [= _ <- <-]. rewrite !count_events_warn_on by reflexivity. count_step.
      rewrite Hget, Hput, Hinst, Hfree, Hrem, H1, H2, H3, H4, H5. auto.
    + destruct Hres as (_ & -> & Hrem & Hfits).
      set (message := bus1_message_from_node node1) in *.
      set (n := Z.to_nat (msg_n_files message)).
      pose proof (put_unused_fds_count (drop n fds1))
        as (P1 & P2 & P3 & P4 & P5).
      rewrite length_drop in P2.
      assert (Htake : length (take n fds1) = Nat.min n (length fds1))
        by apply length_take.
      destruct (Nat.ltb_spec 0 (length (take n fds1))) as [Hsome | Hnone].
      * destruct (Z.leb_spec 0 (env_pool_write e)) as [Hok | Hfail].
        -- pose proof (recv_exit_counts e (env_pool_write e) param1 [])
             as (H1 & H2 & H3 & H4 & H5).
           destruct (recv_exit e (env_pool_write e) param1 [])
             as [r2 evs2].
           cbn [snd length] in *. intros [= _ <- <-].
           pose proof (recv_install_fds_count (length (take n fds1))
                         (take n fds1) (msg_files message))
             as (I1 & I2 & I3 & I4 & I5).
           rewrite !count_events_warn_on by reflexivity. count_step.
           rewrite Hget, Hput, Hinst, Hfree, Hrem, H1, H2, H3, H4, H5,
             P1, P2, P3, P4, P5, I1, I2, I3, I4, I5.
           split; [lia |]. split; [lia |]. right. split; [lia | done].
        -- pose proof (recv_exit_counts e (env_pool_write e) param1
                         (take n fds1)) as (H1 & H2 & H3 & H4 & H5).
           destruct (recv_exit e (env_pool_write e) param1 (take n fds1))
             as [r2 evs2].
           cbn [snd] in *. intros [= _ <- <-].
           rewrite !count_events_warn_on by reflexivity. count_step.
           rewrite Hget, Hput, Hinst, Hfree, Hrem, H1, H2, H3, H4, H5,
             P1, P2, P3, P4, P5.
           split; [lia |]. split; [lia |]. right. split; [lia | done].
      * pose proof (recv_exit_counts e 0 param1 (take n fds1))
          as (H1 & H2 & H3 & H4 & H5).
        destruct (recv_exit e 0 param1 (take n fds1)) as [r2 evs2].
        cbn [snd] in *. intros [= _ <- <-].
        rewrite !count_events_warn_on by reflexivity. count_step.
        rewrite Hget, Hput, Hinst, Hfree, Hrem, H1, H2, H3, H4, H5,
          P1, P2, P3, P4, P5.
        split; [lia |]. split; [lia |]. right. split; [lia | done].
    + destruct Hres as (_ & -> & Hrem).
      pose proof (recv_exit_counts e (- EAGAIN) param1 fds1)
        as (H1 & H2 & H3 & H4 & H5).
      destruct (recv_exit e (- EAGAIN) param1 fds1) as [r2 evs2].
      cbn [snd] in *.
      intros [= _ <- <-]. rewrite !count_events_warn_on by reflexivity. count_step.
      rewrite Hget, Hput, Hinst, Hfree, Hrem, H1, H2, H3, H4, H5. auto.
Qed.

Lemma recv_reserved_length e n : length (recv_reserved e n) = n.
Proof. unfold recv_reserved. by rewrite length_map, length_seq. Qed.

(** Installation pairs descriptor [k] with file [k], the last pair
    first. *)
Lemma recv_install_fds_zip :
  forall fds files,
    length files = length fds ->
    recv_install_fds (length fds) fds files
    = reverse (zip_with ev_fd_install fds files).
Proof.
  assert (Hprefix : forall fds files k fds2 files2,
             length files = length fds -> (k <= length fds)%nat ->
             recv_install_fds k (fds ++ fds2) (files ++ files2)
             = reverse (zip_with ev_fd_install (take k fds) (take k files))).
  { intros fds files k. revert fds files.
    induction k as [| k IH]; intros fds files fds2 files2 Hlen Hk;
      [reflexivity |].
    cbn [recv_install_fds].
    destruct (lookup_lt_is_Some_2 fds k ltac:(lia)) as [fd Hfd].
    destruct (lookup_lt_is_Some_2 files k ltac:(lia)) as [file Hfile].
    rewrite (take_S_r fds k fd Hfd), (take_S_r files k file Hfile).
    rewrite zip_with_app by (rewrite !length_take; lia).
    cbn [zip_with]. rewrite reverse_app. cbn [reverse rev_append app].
    rewrite <- (IH fds files fds2 files2 Hlen ltac:(lia)).
    f_equal. f_equal.
    - apply nth_lookup_Some. by rewrite lookup_app_l_Some with (x := fd).
    - apply nth_lookup_Some. by rewrite lookup_app_l_Some with (x := file). }
  intros fds files Hlen.
  rewrite <- (app_nil_r fds) at 2. rewrite <- (app_nil_r files) at 1.
  rewrite (Hprefix fds files (length fds) [] [] Hlen (le_n _)).
  rewrite firstn_all. rewrite <- Hlen, firstn_all. reflexivity.
Qed.

(** Without interference the dequeue loop takes one round: it reserves
    the descriptors the front message needs and dequeues that message. *)
Lemma recv_loop_one_round fuel e info param node :
  bus1_queue_peek (info_queue info) = Some node ->
  let message := bus1_message_from_node node in
  let n := Z.to_nat (msg_n_files message) in
  0 <= msg_n_files message ->
  ((0 < n)%nat -> env_krealloc e = true) ->
  (forall k, (k < n)%nat -> 0 <= env_get_unused_fd e k) ->
  recv_loop (S fuel) e info param (msg_n_files message) []
  = Some (recv_leave (Some node), info_dequeued info message,
          mk_cmd_recv (recv_flags param) (slice_offset (msg_slice message))
                      (slice_size (msg_slice message)) (recv_msg_ids param)
                      (msg_n_files message),
          recv_reserved e n,
          map ev_get_unused_fd (recv_reserved e n)
          ++ [ev_mutex_lock; ev_queue_remove (msg_addr message);
              ev_pool_publish (slice_offset (msg_slice message))]
          ++ (if msg_n_files message =? 0
              then [ev_message_deallocate (msg_addr message)] else [])
          ++ [ev_mutex_unlock]).
Proof.
  intros Hpeek message n Hfiles Hrealloc Hget.
  cbn [recv_loop length]. change (Z.of_nat 0) with 0.
  rewrite Z.sub_0_r. fold message. fold n.
  assert (Hstep :
    (if 0 <? msg_n_files message
     then if negb (env_krealloc e) then (- ENOMEM, [], [])
          else recv_reserve_fds e n []
     else (0, [], []))
    = (0, recv_reserved e n, map ev_get_unused_fd (recv_reserved e n))).
  { destruct (Z.ltb_spec 0 (msg_n_files message)) as [Hpos | Hzero].
    - rewrite Hrealloc by lia. cbn [negb]. by apply recv_reserve_fds_ok.
    - replace n with O by lia. reflexivity. }
  rewrite Hstep. cbn [Z.ltb Z.compare]. rewrite Hpeek. fold message.
  rewrite recv_reserved_length.
  destruct (Z.ltb_spec (Z.of_nat n) (msg_n_files message)); [lia |].
  reflexivity.
Qed.

Lemma recv_validated fuel e info param node :
  recv_flags param = 0 ->
  recv_precleared param ->
  bus1_queue_peek (info_queue info) = Some node ->
  bus1_peer_ioctl_recv fuel e info (inr param)
  = let evs_peek := WARN_ON (negb (bus1_queue_node_is_message node)) in
    '(res, info1, param1, fds, evs) ←
      recv_loop fuel e info param
        (msg_n_files (bus1_message_from_node node)) [];
    match res with
    | recv_goto_exit r =>
      let '(r, evs') := recv_exit e r param1 fds in
      Some (r, info1, evs_peek ++ evs ++ evs')
    | recv_leave None =>
      let '(r, evs') := recv_exit e (- EAGAIN) param1 fds in
      Some (r, info1, evs_peek ++ evs ++ evs')
    | recv_leave (Some node) =>
      let message := bus1_message_from_node node in
      let n_files := Z.to_nat (msg_n_files message) in
      let evs_put := put_unused_fds (drop n_files fds) in
      let fds := take n_files fds in
      let '(r, fds, evs_fds) :=
        if (0 <? length fds)%nat then
          let r := env_pool_write e in
          let evs :=
            [ev_pool_write (slice_offset (msg_slice message)) fds;
             ev_mutex_lock; ev_message_deallocate (msg_addr message);
             ev_mutex_unlock] in
          if 0 <=? r
          then (r, [],
                evs ++ recv_install_fds (length fds) fds
                                        (msg_files message))
          else (r, fds, evs)
        else (0, fds, []) in
      let '(r, evs') := recv_exit e r param1 fds in
      Some (r, info1,
            evs_peek ++ evs ++ evs_put ++ evs_fds
            ++ [ev_message_free (msg_addr message)] ++ evs')
    end.
Proof.
  intros Hflags (Hoffset & Hsize & Hids & Hfds) Hpeek.
  unfold bus1_peer_ioctl_recv.
  rewrite Hflags, Hoffset, Hsize, Hids, Hfds, Hpeek.
  reflexivity.
Qed.

(** X14: a RECV without PEEK on a queue whose front node carries [n]
    files, when descriptors, pool write and copy-out succeed: it warns if
    the front node is no message, reserves [n] descriptor numbers,
    dequeues the front node and publishes its slice under one lock,
    writes the numbers into the slice, installs descriptor [k] for file
    [k] (the last pair first), frees the message and copies out offset,
    size and file count.  With files it returns what the pool write
    returned, without files 0. *)
Theorem recv_dequeues_front fuel e info param node :
  recv_flags param = 0 ->
  recv_precleared param ->
  bus1_queue_peek (info_queue info) = Some node ->
  let message := bus1_message_from_node node in
  let n := Z.to_nat (msg_n_files message) in
  let fds := recv_reserved e n in
  0 <= msg_n_files message ->
  length (msg_files message) = n ->
  ((0 < n)%nat -> env_krealloc e = true /\ 0 <= env_pool_write e) ->
  (forall k, (k < n)%nat -> 0 <= env_get_unused_fd e k) ->
  (forall i, env_put_user e i = true) ->
  bus1_peer_ioctl_recv (S fuel) e info (inr param)
  = Some (if msg_n_files message =? 0 then 0 else env_pool_write e,
          info_dequeued info message,
          WARN_ON (negb (bus1_queue_node_is_message node))
          ++ map ev_get_unused_fd fds
          ++ [ev_mutex_lock; ev_queue_remove (msg_addr message);
              ev_pool_publish (slice_offset (msg_slice message))]
          ++ (if msg_n_files message =? 0
              then [ev_message_deallocate (msg_addr message);
                    ev_mutex_unlock]
              else [ev_mutex_unlock;
                    ev_pool_write (slice_offset (msg_slice message)) fds;
                    ev_mutex_lock;
                    ev_message_deallocate (msg_addr message);
                    ev_mutex_unlock]
                   ++ reverse (zip_with ev_fd_install fds
                                        (msg_files message)))
          ++ [ev_message_free (msg_addr message)]
          ++ map ev_put_user (recv_output message)).
Proof.
  intros Hflags Hclear Hpeek message n fds Hfiles Hlen Hres Hget Hput.
  rewrite (recv_validated _ _ _ _ node Hflags Hclear Hpeek). cbn zeta.
  rewrite (recv_loop_one_round fuel e info param node Hpeek Hfiles
             (fun H => proj1 (Hres H)) Hget).
  cbn [mbind option_bind]. fold message. fold n. fold fds.
  assert (Hfds : length fds = n) by apply recv_reserved_length.
  rewrite drop_ge by lia. rewrite take_ge by lia.
  unfold recv_exit. rewrite put_users_ok by exact Hput.
  cbn [recv_msg_offset recv_msg_size recv_msg_ids recv_msg_fds].
  destruct Hclear as (_ & _ & Hids & _). rewrite Hids.
  change [slice_offset (msg_slice message); slice_size (msg_slice message);
          0; msg_n_files message] with (recv_output message).
  destruct (Z.eqb_spec (msg_n_files message) 0) as [Hzero | Hsome].
  - assert (Hn : n = O) by lia.
    destruct (Nat.ltb_spec 0 (length fds)); [lia |].
    assert (Hnil : fds = []) by (apply length_zero_iff_nil; lia).
    rewrite Hnil. cbn -[WARN_ON]. reflexivity.
  - destruct (Nat.ltb_spec 0 (length fds)); [| lia].
    destruct (Hres ltac:(lia)) as [_ Hwrite].
    destruct (Z.leb_spec 0 (env_pool_write e)); [| lia].
    rewrite recv_install_fds_zip by lia.
    destruct (Z.leb_spec 0 (env_pool_write e)); [| lia].
    unfold put_unused_fds. cbn [reverse rev_append map].
    rewrite app_nil_r. rewrite <- !app_assoc. reflexivity.
Qed.

(** X15: a RECV that cannot get the descriptors for the files of the
    front node does not touch the queue: after the warning of the first
    peek, if the front node is no message, it returns -ENOMEM without
    another action if the array cannot be allocated; if the reservation
    of descriptor [k] fails it returns that error and gives back, last
    first, the [k] numbers it had reserved.  The message stays queued. *)
Theorem recv_fd_exhaustion fuel e info param node k :
  recv_flags param = 0 ->
  recv_precleared param ->
  bus1_queue_peek (info_queue info) = Some node ->
  let n := Z.to_nat (msg_n_files (bus1_message_from_node node)) in
  (k < n)%nat ->
  (env_krealloc e = false ->
   bus1_peer_ioctl_recv (S fuel) e info (inr param)
   = Some (- ENOMEM, info,
           WARN_ON (negb (bus1_queue_node_is_message node))))
  /\ (env_krealloc e = true ->
      env_get_unused_fd e k < 0 ->
      (forall j, (j < k)%nat -> 0 <= env_get_unused_fd e j) ->
      bus1_peer_ioctl_recv (S fuel) e info (inr param)
      = Some (env_get_unused_fd e k, info,
              WARN_ON (negb (bus1_queue_node_is_message node))
              ++ map ev_get_unused_fd (recv_reserved e k)
              ++ map ev_put_unused_fd (reverse (recv_reserved e k)))).
Proof.
  intros Hflags Hclear Hpeek n Hk.
  rewrite (recv_validated _ _ _ _ node Hflags Hclear Hpeek). cbn zeta.
  cbn [recv_loop length]. change (Z.of_nat 0) with 0.
  rewrite Z.sub_0_r. fold n.
  destruct (Z.ltb_spec 0 (msg_n_files (bus1_message_from_node node)));
    [| lia].
  split.
  - intros ->. by destruct (bus1_queue_node_is_message node).
  - intros -> Hneg Hbefore. cbn [negb].
    destruct (recv_reserve_fds_spec e n [])
      as (got & Hfds & Hevs & Hgot & Hpos & Hres).
    destruct (recv_reserve_fds e n []) as [[r fds] evs].
    cbn [fst snd app length Nat.add] in *. subst fds evs.
    assert (Hlen : length got = k).
    { rewrite Hgot in Hpos. rewrite Forall_forall in Hpos.
      destruct (Nat.lt_trichotomy (length got) k) as [Hlt | [Heq | Hgt]];
        [| exact Heq |].
      - destruct Hres as [(Hr & _ & Hreq) | [_ Hall]]; [| lia].
        specialize (Hbefore (length got) Hlt). lia.
      - assert (0 <= env_get_unused_fd e k); [| lia].
        apply Hpos. apply list_elem_of_fmap. exists k.
        split; [reflexivity |]. apply elem_of_seq. lia. }
    destruct Hres as [(Hr & _ & Hreq) | [_ Hall]]; [| lia].
    rewrite Hlen in Hreq, Hgot. rewrite Hreq.
    destruct (Z.ltb_spec (env_get_unused_fd e k) 0); [| lia].
    cbn [mbind option_bind]. unfold recv_exit.
    destruct (Z.leb_spec 0 (env_get_unused_fd e k)); [lia |].
    unfold put_unused_fds, recv_reserved. rewrite <- Hgot. reflexivity.
Qed.

(** X16: a RECV whose pool write fails loses the message, as the code
    says it does: after the warning of the first peek, if the front node
    is no message, the message is dequeued, deallocated and freed, no
    descriptor is installed, all reserved numbers are given back, and the
    call returns the error of the pool write without copying anything
    out. *)
Theorem recv_pool_write_failure fuel e info param node :
  recv_flags param = 0 ->
  recv_precleared param ->
  bus1_queue_peek (info_queue info) = Some node ->
  let message := bus1_message_from_node node in
  let n := Z.to_nat (msg_n_files message) in
  let fds := recv_reserved e n in
  (0 < n)%nat ->
  env_krealloc e = true ->
  (forall k, (k < n)%nat -> 0 <= env_get_unused_fd e k) ->
  env_pool_write e < 0 ->
  bus1_peer_ioctl_recv (S fuel) e info (inr param)
  = Some (env_pool_write e, info_dequeued info message,
          WARN_ON (negb (bus1_queue_node_is_message node))
          ++ map ev_get_unused_fd fds
          ++ [ev_mutex_lock; ev_queue_remove (msg_addr message);
              ev_pool_publish (slice_offset (msg_slice message));
              ev_mutex_unlock;
              ev_pool_write (slice_offset (msg_slice message)) fds;
              ev_mutex_lock; ev_message_deallocate (msg_addr message);
              ev_mutex_unlock;
              ev_message_free (msg_addr message)]
          ++ map ev_put_unused_fd (reverse fds)).
Proof.
  intros Hflags Hclear Hpeek message n fds Hn Hrealloc Hget Hwrite.
  rewrite (recv_validated _ _ _ _ node Hflags Hclear Hpeek). cbn zeta.
  assert (Hfiles : 0 <= msg_n_files message) by (unfold n in Hn; lia).
  rewrite (recv_loop_one_round fuel e info param node Hpeek Hfiles
             (fun _ => Hrealloc) Hget).
  cbn [mbind option_bind]. fold message. fold n. fold fds.
  assert (Hfds : length fds = n) by apply recv_reserved_length.
  rewrite drop_ge by lia. rewrite take_ge by lia.
  destruct (Z.eqb_spec (msg_n_files message) 0); [lia |].
  destruct (Nat.ltb_spec 0 (length fds)); [| lia].
  destruct (Z.leb_spec 0 (env_pool_write e)); [lia |].
  unfold recv_exit.
  destruct (Z.leb_spec 0 (env_pool_write e)); [lia |].
  unfold put_unused_fds. cbn [reverse rev_append map app].
  rewrite <- !app_assoc. reflexivity.
Qed.

(** ** RESOLVE *)

Lemma resolve_loop_found peers domain param :
  forall retry id,
    resolve_loop retry peers domain param = Some (Some id) ->
    resolve_walk peers domain param = Some (Some id).
Proof.
  induction retry as [| retry IH]; intros id; cbn [resolve_loop];
    destruct (resolve_walk peers domain param) as [[id0 |] |];
    cbn [mbind option_bind]; try discriminate; auto.
Qed.

(** X8: a RESOLVE that returns 0 was well-formed and found its name:
    flags and id were cleared, the buffer has between 2 and
    BUS1_NAME_MAX_SIZE bytes and ends in a zero byte, the string in it is
    a key of the name index, and the only action is the copy-out of the
    id, which is 0. *)
Theorem resolve_success_sound e peers domain param evs :
  bus1_peer_ioctl_resolve e peers domain (inr param) = Some (0, evs) ->
  resolve_flags param = 0
  /\ resolve_id param = 0
  /\ 2 <= Z.of_nat (length (resolve_name param)) <= BUS1_NAME_MAX_SIZE
  /\ last_byte_is_nul (resolve_name param) = true
  /\ (exists owner,
        domain_map_names domain
          !! take (strnlen (resolve_name param)) (resolve_name param)
        = Some owner
        /\ is_Some (peers !! owner))
  /\ env_put_user e 0%nat = true
  /\ evs = [ev_put_user 0].
Proof.
  unfold bus1_peer_ioctl_resolve.
  destruct (Z.eqb_spec (resolve_flags param) 0) as [Hflags | _];
    [| discriminate].
  destruct (Z.eqb_spec (resolve_id param) 0) as [Hid | _]; [| discriminate].
  cbn [negb].
  destruct (Z.ltb_spec (Z.of_nat (length (resolve_name param))) 2);
    [discriminate |].
  destruct (Z.ltb_spec BUS1_NAME_MAX_SIZE
              (Z.of_nat (length (resolve_name param)))); [discriminate |].
  cbn [orb].
  destruct (last_byte_is_nul (resolve_name param)); [| discriminate].
  cbn [negb].
  destruct (resolve_loop _ peers domain param) as [[id |] |] eqn:Hloop;
    cbn [mbind option_bind]; try discriminate.
  destruct (env_put_user e 0%nat); [| discriminate].
  intros [= <-].
  apply resolve_loop_found in Hloop. unfold resolve_walk in Hloop.
  destruct (domain_map_names domain !! _) as [owner |] eqn:Hname;
    [| discriminate].
  destruct (peers !! owner) as [peer |] eqn:Hpeer; [| discriminate].
  cbn [mbind option_bind] in Hloop.
  assert (id = 0) as ->
    by (destruct (bus1_active_is_active _); congruence).
  repeat split; auto; try lia. exists owner. split; [reflexivity | by eexists].
Qed.

(** ** The CONNECT ioctl *)

Lemma connect_new_nonneg e self peer domain uid param r peer' domain' evs :
  bus1_peer_connect_new e self peer domain uid param
  = Some (r, peer', domain', evs) ->
  0 <= r ->
  exists info',
    peer_info peer' = Some info'
    /\ pool_size (info_pool info') = connect_pool_size param.
Proof.
  unfold bus1_peer_connect_new, bus1_peer_info_new.
  destruct (negb _).
  - destruct (peer_info peer); [| intros [= <- _ _ _]; unfold ESHUTDOWN; lia].
    destruct (negb _); [intros [= <- _ _ _]; unfold EREMCHG; lia |].
    destruct (bus1_peer_names_check _ _) as [r0 |]; [| discriminate].
    cbn [mbind option_bind].
    destruct (Z.ltb_spec r0 0); intros [= <- _ _ _];
      [lia | unfold EISCONN; lia].
  - destruct (peer_info peer); [intros [= <- _ _ _]; unfold EISCONN; lia |].
    destruct (_ || _); [intros [= <- _ _ _]; unfold EINVAL; lia |].
    destruct (negb _); [intros [= <- _ _ _]; unfold ENOMEM; lia |].
    destruct (Z.ltb_spec (env_pool_create e) 0);
      [intros [= <- _ _ _]; lia |].
    destruct (Z.ltb_spec (env_user_acquire e) 0);
      [intros [= <- _ _ _]; lia |].
    destruct (connect_alloc_names _ _ _ _ _) as [[r0 nodes] |];
      [| discriminate].
    cbn [mbind option_bind].
    destruct (Z.ltb_spec r0 0); [intros [= <- _ _ _]; lia |].
    destruct (connect_link_names nodes domain) as [[r1 names1] d1].
    destruct (Z.ltb_spec r1 0).
    + destruct (connect_unlink_names names1 d1).
      intros [= <- _ _ _]. lia.
    + intros [= _ <- _ _] _. eexists. split; reflexivity.
Qed.

Lemma connect_reset_result peer param r peer' param' evs :
  bus1_peer_connect_reset peer param = (r, peer', param', evs) ->
  (r < 0 /\ peer' = peer)
  \/ (r = 0
      /\ exists info',
           peer_info peer' = Some info'
           /\ pool_size (info_pool info') = connect_pool_size param').
Proof.
  unfold bus1_peer_connect_reset.
  destruct (bus1_active_is_new _);
    [intros [= <- <- _ _]; left; by split |].
  destruct (_ || _); [intros [= <- <- _ _]; left; by split |].
  destruct (peer_info peer) as [info |];
    [| intros [= <- <- _ _]; left; by split].
  unfold bus1_peer_info_reset. intros [= <- <- <- _]. right.
  split; [reflexivity |]. eexists. split; reflexivity.
Qed.

Lemma connect_query_result peer param r peer' param' evs :
  bus1_peer_connect_query peer param = (r, peer', param', evs) ->
  peer' = peer
  /\ (r < 0
      \/ (r = 0
          /\ exists info',
               peer_info peer' = Some info'
               /\ pool_size (info_pool info') = connect_pool_size param')).
Proof.
  unfold bus1_peer_connect_query.
  destruct (bus1_active_is_new _);
    [intros [= <- <- _ _]; split; [done | by left] |].
  destruct (peer_info peer) as [info |] eqn:Hinfo;
    [| intros [= <- <- _ _]; split; [done | by left]].
  intros [= <- <- <- _]. split; [done |]. right.
  split; [reflexivity |]. exists info. by split.
Qed.

(** X5: whenever a CONNECT ioctl with the QUERY flag succeeds, in
    whichever mode (PEER, MONITOR, RESET or QUERY alone), the peer has an
    info afterwards and the last action of the call is the copy-out of the
    pool size of that info. *)
Theorem connect_query_reports_pool e self peer domain f param
    r peer' domain' evs :
  bus1_peer_ioctl_connect e self peer domain f (inr param)
  = Some (r, peer', domain', evs) ->
  0 <= r ->
  has_flag (connect_flags param) BUS1_CONNECT_FLAG_QUERY = true ->
  exists info' evs0,
    peer_info peer' = Some info'
    /\ evs = evs0 ++ [ev_put_user (pool_size (info_pool info'))].
Proof.
  intros Hres Hr Hquery. unfold bus1_peer_ioctl_connect in Hres.
  destruct (negb (clear_bits _ _ =? 0));
    [injection Hres as <- _ _ _; unfold EINVAL in Hr; lia |].
  destruct (1 <? _);
    [injection Hres as <- _ _ _; unfold EINVAL in Hr; lia |].
  destruct (negb (file_cap_sys_admin f));
    [injection Hres as <- _ _ _; unfold EPERM in Hr; lia |].
  rewrite Hquery in Hres.
  destruct (bus1_active_is_deactivated _).
  { cbn in Hres. injection Hres as <- _ _ _. unfold ESHUTDOWN in Hr. lia. }
  destruct (has_flag _ (Z.lor _ _)).
  { destruct (bus1_peer_connect_new e self peer domain (file_uid f) param)
      as [[[[r1 peer1] domain1] evs1] |] eqn:Hnew; [| discriminate].
    cbn [mbind option_bind] in Hres.
    destruct (Z.leb_spec 0 r1) as [Hr1 | Hr1]; cbn [andb] in Hres.
    - destruct (connect_new_nonneg _ _ _ _ _ _ _ _ _ _ Hnew Hr1)
        as (info' & Hinfo & Hpool).
      destruct (env_put_user e 0%nat); injection Hres as <- <- _ <-;
        [| unfold EFAULT in Hr; lia].
      exists info', evs1. by rewrite Hpool.
    - injection Hres as <- _ _ _. lia. }
  destruct (has_flag _ BUS1_CONNECT_FLAG_RESET).
  { destruct (bus1_peer_connect_reset peer param)
      as [[[r1 peer1] param1] evs1] eqn:Hreset.
    cbn [mbind option_bind] in Hres.
    destruct (connect_reset_result _ _ _ _ _ _ Hreset)
      as [[Hneg _] | [-> (info' & Hinfo & Hpool)]].
    - destruct (Z.leb_spec 0 r1); [lia |]. cbn [andb] in Hres.
      injection Hres as <- _ _ _. lia.
    - cbn [Z.leb Z.compare andb] in Hres.
      destruct (env_put_user e 0%nat); injection Hres as <- <- _ <-;
        [| unfold EFAULT in Hr; lia].
      exists info', evs1. by rewrite Hpool. }
  destruct (bus1_peer_connect_query peer param)
    as [[[r1 peer1] param1] evs1] eqn:Hq.
  cbn [mbind option_bind] in Hres.
  destruct (connect_query_result _ _ _ _ _ _ Hq)
    as [_ [Hneg | [-> (info' & Hinfo & Hpool)]]].
  - destruct (Z.leb_spec 0 r1); [lia |]. cbn [andb] in Hres.
    injection Hres as <- _ _ _. lia.
  - cbn [Z.leb Z.compare andb] in Hres.
    destruct (env_put_user e 0%nat); injection Hres as <- <- _ <-;
      [| unfold EFAULT in Hr; lia].
    exists info', evs1. by rewrite Hpool.
Qed.

(** ** The domain and its peers *)

Lemma peer_eta peer :
  mk_peer (peer_active peer) (peer_info peer) (peer_names peer)
          (peer_link_domain peer) = peer.
Proof. by destruct peer. Qed.

Lemma domain_eta domain :
  mk_domain (domain_map_names domain) (domain_n_names domain)
            (domain_list_peers domain) (domain_n_peers domain) = domain.
Proof. by destruct domain. Qed.

(** Replacing a peer by one with the same names and the same link state
    keeps the shape of the world. *)
Lemma world_wf_same peers domain self peer peer' :
  world_wf peers domain ->
  peers !! self = Some peer ->
  peer_wf self peer' ->
  peer_connected peer' = peer_connected peer ->
  peer_name_list peer' = peer_name_list peer ->
  world_wf (<[self := peer']> peers) domain.
Proof.
  intros (Hindex & Hcount & Hnodup & Hlist & Hnames & Hpeers)
    Hself Hwf Hconn Hsame.
  refine (conj Hindex (conj Hcount (conj Hnodup (conj _ (conj _ _)))));
    [intros p; split | intros name owner; split |].
  - intros Hp. apply Hlist in Hp as (peer0 & Hpeer0 & Hc).
    destruct (decide (p = self)) as [-> | Hne].
    + exists peer'. rewrite lookup_insert_eq. split; [done |].
      rewrite Hconn. congruence.
    + exists peer0. by rewrite lookup_insert_ne.
  - intros (peer0 & Hpeer0 & Hc). apply Hlist.
    destruct (decide (p = self)) as [-> | Hne].
    + rewrite lookup_insert_eq in Hpeer0. injection Hpeer0 as <-.
      exists peer. split; [done | congruence].
    + rewrite lookup_insert_ne in Hpeer0 by done. by exists peer0.
  - intros Hn. apply Hnames in Hn as (peer0 & Hpeer0 & Hin).
    destruct (decide (owner = self)) as [-> | Hne].
    + exists peer'. rewrite lookup_insert_eq. split; [done |].
      rewrite Hsame. congruence.
    + exists peer0. by rewrite lookup_insert_ne.
  - intros (peer0 & Hpeer0 & Hin). apply Hnames.
    destruct (decide (owner = self)) as [-> | Hne].
    + rewrite lookup_insert_eq in Hpeer0. injection Hpeer0 as <-.
      exists peer. split; [done | congruence].
    + rewrite lookup_insert_ne in Hpeer0 by done. by exists peer0.
  - by apply map_Forall_insert_2.
Qed.

Lemma world_wf_id peers domain self peer :
  world_wf peers domain ->
  peers !! self = Some peer ->
  world_wf (<[self := peer]> peers) domain.
Proof. intros Hwf Hself. by rewrite insert_id. Qed.

(** A peer gets a new info. *)
Lemma world_wf_info peers domain self peer info info' :
  world_wf peers domain ->
  peers !! self = Some peer ->
  peer_info peer = Some info ->
  world_wf (<[self := with_info peer (Some info')]> peers) domain.
Proof.
  intros Hwf Hself Hinfo.
  apply (world_wf_same peers domain self peer); auto.
  destruct Hwf as (_ & _ & _ & _ & _ & Hpeers).
  destruct (Hpeers self peer Hself) as (H1 & H2 & H3 & H4).
  unfold peer_wf, with_info, peer_connected, peer_name_list in *.
  cbn [peer_active peer_info peer_names peer_link_domain].
  split; [exact H1 |]. split; [exact H2 |]. split.
  - intros Hc. split; [by eexists | by apply H3].
  - intros Hc. destruct (H4 Hc) as [Hnone _]. congruence.
Qed.

Lemma peer_wf_unconnected peers domain self peer :
  world_wf peers domain ->
  peers !! self = Some peer ->
  peer_connected peer = false ->
  peer_info peer = None /\ peer_names peer = []
  /\ self ∉ domain_list_peers domain.
Proof.
  intros (_ & _ & _ & Hlist & _ & Hpeers) Hself Hconn.
  destruct (Hpeers self peer Hself) as (_ & _ & _ & H4).
  destruct (H4 Hconn) as (Hinfo & Hnames & _).
  split; [exact Hinfo |]. split; [exact Hnames |].
  intros Hin. apply Hlist in Hin as (peer0 & Hpeer0 & Hc). congruence.
Qed.

(** A successful CONNECT of a NEW peer keeps the shape of the world. *)
Lemma world_wf_connect e peers domain self peer uid param
    peer' domain' evs :
  world_wf peers domain ->
  peers !! self = Some peer ->
  bus1_active_is_new (peer_active peer) = true ->
  bus1_peer_connect_new e self peer domain uid param
  = Some (0, peer', domain', evs) ->
  world_wf (<[self := peer']> peers) domain'.
Proof.
  intros Hwf Hself Hnew Hres.
  assert (Hconn : peer_connected peer = false).
  { unfold peer_connected. by destruct (peer_active peer). }
  destruct (peer_wf_unconnected _ _ _ _ Hwf Hself Hconn)
    as (Hinfo & Hnonames & Hnotin).
  pose proof Hwf as (Hindex & Hcount & Hnodup & Hlist & Hnames & Hpeers).
  destruct (connect_new_counted _ _ _ _ _ _ _ _ _ _ Hindex Hcount Hres)
    as [Hindex' Hcount'].
  destruct (connect_new_success_prepared _ _ _ _ _ _ _ _ _ Hnew Hres)
    as (_ & names & Hblob & Hprep & Hdistinct & Hfree).
  destruct param as [flags pool blob]. cbn [connect_names connect_pool_size]
    in Hblob, Hprep. subst blob.
  destruct (connect_new_linked e self peer domain uid flags pool names
              Hnew Hinfo Hprep Hdistinct Hfree
              (index_counted_u64 _ Hindex))
    as (peer1 & domain1 & Heq & Hactive & Hinfo1 & Hlist1 & Hlinked & Hlink
        & Hmine & Hother & _ & Hpeers1 & _).
  rewrite Heq in Hres. injection Hres as <- <- <-.
  assert (Hc1 : peer_connected peer1 = true)
    by (unfold peer_connected; by rewrite Hactive).
  refine (conj Hindex' (conj Hcount' (conj _ (conj _ (conj _ _)))));
    [| intros p; split | intros name owner; split |].
  - rewrite Hpeers1. apply NoDup_cons. by split.
  - rewrite Hpeers1. intros Hp.
    destruct (decide (p = self)) as [-> | Hne].
    + exists peer1. by rewrite lookup_insert_eq.
    + apply elem_of_cons in Hp as [-> | Hp]; [done |].
      apply Hlist in Hp as (peer0 & Hpeer0 & Hc).
      exists peer0. by rewrite lookup_insert_ne.
  - rewrite Hpeers1. intros (peer0 & Hpeer0 & Hc).
    destruct (decide (p = self)) as [-> | Hne]; [apply list_elem_of_here |].
    rewrite lookup_insert_ne in Hpeer0 by done.
    apply list_elem_of_further, Hlist. by exists peer0.
  - intros Hn. destruct (decide (name ∈ names)) as [Hin | Hout].
    + rewrite (Hmine name Hin) in Hn. injection Hn as <-.
      exists peer1. rewrite lookup_insert_eq. split; [done |].
      rewrite Hlist1. by apply elem_of_reverse.
    + rewrite (Hother name Hout) in Hn.
      apply Hnames in Hn as (peer0 & Hpeer0 & Hin0).
      destruct (decide (owner = self)) as [-> | Hne].
      * exfalso. rewrite Hself in Hpeer0. injection Hpeer0 as <-.
        unfold peer_name_list in Hin0. rewrite Hnonames in Hin0.
        by apply not_elem_of_nil in Hin0.
      * exists peer0. by rewrite lookup_insert_ne.
  - intros (peer0 & Hpeer0 & Hin0).
    destruct (decide (owner = self)) as [-> | Hne].
    + rewrite lookup_insert_eq in Hpeer0. injection Hpeer0 as <-.
      rewrite Hlist1, elem_of_reverse in Hin0.
      by apply Hmine.
    + rewrite lookup_insert_ne in Hpeer0 by done.
      assert (Hold : domain_map_names domain !! name = Some owner)
        by (apply Hnames; by exists peer0).
      rewrite Hother; [exact Hold |].
      intros Hin. unfold names_free in Hfree.
      rewrite Forall_forall in Hfree. specialize (Hfree name Hin).
      congruence.
  - apply map_Forall_insert_2; [| exact Hpeers].
    split; [rewrite Hlist1; by rewrite reverse_Permutation |].
    split; [exact Hlinked |]. split.
    + intros _. split; [by eexists | exact Hlink].
    + congruence.
Qed.

(** [bus1_peer_teardown] keeps the shape of the world; it fails exactly
    on a peer that is DEAD, which it leaves alone, and leaves every other
    peer DEAD, without info and names. *)
Lemma world_wf_teardown peers domain self peer r peer' domain' evs :
  world_wf peers domain ->
  peers !! self = Some peer ->
  bus1_peer_teardown self peer domain = (r, peer', domain', evs) ->
  world_wf (<[self := peer']> peers) domain'
  /\ (peer_active peer = ACTIVE_DEAD ->
      r = - ESHUTDOWN /\ peer' = peer /\ domain' = domain /\ evs = [])
  /\ (peer_active peer <> ACTIVE_DEAD ->
      r = 0 /\ peer' = mk_peer ACTIVE_DEAD None [] false).
Proof.
  intros Hwf Hself.
  pose proof Hwf as (Hindex & Hcount & Hnodup & Hlist & Hnames & Hpeers).
  pose proof (Hpeers self peer Hself) as (Hdistinct & Hlinked & Hon & Hoff).
  destruct (peer_connected peer) eqn:Hconn.
  - destruct (Hon eq_refl) as [[info Hinfo] Hlink].
    assert (Hlive : peer_active peer <> ACTIVE_DEAD).
    { unfold peer_connected in Hconn. intros Hd. by rewrite Hd in Hconn. }
    destruct (teardown_fires self peer domain info Hlive Hinfo)
      as [evs0 ->].
    intros [= <- <- <- <-].
    split; [| split; [done | by intros _]].
    assert (Hin : self ∈ domain_list_peers domain)
      by (apply Hlist; by exists peer).
    assert (Hlinked' : Forall (fun pn => pn_linked pn = true)
                              (peer_names peer)).
    { eapply Forall_impl; [exact Hlinked |]. by intros pn [? _]. }
    destruct (cleanup_names_lookup (peer_names peer) domain Hlinked')
      as [Hgone Hkept].
    refine (conj _ (conj _ (conj _ (conj _ (conj _ _)))));
      [| | | intros p; split | intros name owner; split |].
    + apply (cleanup_names_counted (peer_names peer) domain);
        [| exact Hindex].
      split; [exact Hdistinct |].
      rewrite Forall_forall. intros pn Hpn.
      rewrite Forall_forall in Hlinked.
      split; [by apply Hlinked |].
      exists self. apply Hnames. exists peer. split; [done |].
      unfold peer_name_list. apply list_elem_of_fmap. by exists pn.
    + unfold peers_counted in *.
      cbn [domain_n_peers domain_list_peers].
      rewrite Hcount, wrap64_sub_l. f_equal.
      rewrite <- (filter_other_once self (domain_list_peers domain))
        by assumption.
      lia.
    + cbn [domain_list_peers]. by apply NoDup_filter.
    + cbn [domain_list_peers]. intros Hp.
      apply list_elem_of_filter in Hp as [Hne Hp].
      apply Hlist in Hp as (peer0 & Hpeer0 & Hc).
      exists peer0. by rewrite lookup_insert_ne.
    + cbn [domain_list_peers]. intros (peer0 & Hpeer0 & Hc).
      destruct (decide (p = self)) as [-> | Hne].
      * rewrite lookup_insert_eq in Hpeer0. injection Hpeer0 as <-.
        discriminate.
      * rewrite lookup_insert_ne in Hpeer0 by done.
        apply list_elem_of_filter. split; [done |].
        apply Hlist. by exists peer0.
    + cbn [domain_map_names]. intros Hn.
      destruct (decide (name ∈ map pn_name (peer_names peer)))
        as [Hmine | Hother].
      { rewrite (Hgone name Hmine) in Hn. discriminate. }
      rewrite (Hkept name Hother) in Hn.
      pose proof Hn as Hold.
      apply Hnames in Hn as (peer0 & Hpeer0 & Hin0).
      destruct (decide (owner = self)) as [-> | Hne].
      * exfalso. rewrite Hself in Hpeer0. injection Hpeer0 as <-.
        by apply Hother.
      * exists peer0. by rewrite lookup_insert_ne.
    + cbn [domain_map_names]. intros (peer0 & Hpeer0 & Hin0).
      destruct (decide (owner = self)) as [-> | Hne].
      * rewrite lookup_insert_eq in Hpeer0. injection Hpeer0 as <-.
        by apply not_elem_of_nil in Hin0.
      * rewrite lookup_insert_ne in Hpeer0 by done.
        assert (Hold : domain_map_names domain !! name = Some owner)
          by (apply Hnames; by exists peer0).
        rewrite Hkept; [exact Hold |].
        intros Hmine.
        assert (domain_map_names domain !! name = Some self)
          by (apply Hnames; by exists peer).
        congruence.
    + apply map_Forall_insert_2; [| exact Hpeers].
      split; [constructor |]. split; [constructor |]. split; [done |].
      by intros _.
  - destruct (Hoff eq_refl) as (Hinfo & Hnonames & Hlink).
    unfold bus1_peer_teardown, teardown_locked, teardown_deactivate,
      peer_active_cleanup, bus1_active_cleanup, bus1_peer_cleanup.
    cbn [peer_active peer_info peer_names peer_link_domain].
    rewrite Hinfo, Hnonames, Hlink.
    unfold peer_connected in Hconn.
    destruct (peer_active peer) eqn:Hactive; try discriminate; cbn.
    + intros [= <- <- <- <-].
      split; [| split; [done | by intros _]].
      apply (world_wf_same peers domain self peer); auto.
      * split; [constructor |]. split; [constructor |]. split; [done |].
        by intros _.
      * unfold peer_connected. by rewrite Hactive.
      * unfold peer_name_list. by rewrite Hnonames.
    + intros [= <- <- <- <-].
      assert (Hpeer : mk_peer ACTIVE_DEAD None [] false = peer).
      { rewrite <- (peer_eta peer). by rewrite Hactive, Hinfo, Hnonames, Hlink. }
      rewrite Hpeer.
      split; [by apply world_wf_id |]. split; [by intros _ | done].
Qed.

(** ** The handlers as steps of the world *)

Lemma connect_new_result e self peer domain uid param r peer' domain' evs :
  bus1_peer_connect_new e self peer domain uid param
  = Some (r, peer', domain', evs) ->
  r <= 0 /\ (r = 0 -> bus1_active_is_new (peer_active peer) = true).
Proof.
  unfold bus1_peer_connect_new, bus1_peer_info_new.
  destruct (bus1_active_is_new (peer_active peer)); cbn [negb].
  - intros Hres. split; [| done]. revert Hres.
    destruct (peer_info peer); [intros [= <- _ _ _]; done |].
    destruct (_ || _); [intros [= <- _ _ _]; done |].
    destruct (negb _); [intros [= <- _ _ _]; done |].
    destruct (Z.ltb_spec (env_pool_create e) 0);
      [intros [= <- _ _ _]; lia |].
    destruct (Z.ltb_spec (env_user_acquire e) 0);
      [intros [= <- _ _ _]; lia |].
    destruct (connect_alloc_names _ _ _ _ _) as [[r0 nodes] |];
      [| discriminate].
    cbn [mbind option_bind].
    destruct (Z.ltb_spec r0 0); [intros [= <- _ _ _]; lia |].
    destruct (connect_link_names nodes domain) as [[r1 names1] d1].
    destruct (Z.ltb_spec r1 0).
    + destruct (connect_unlink_names names1 d1).
      intros [= <- _ _ _]. lia.
    + intros [= <- _ _ _]. done.
  - destruct (peer_info peer); [| intros [= <- _ _ _]; done].
    destruct (negb _); [intros [= <- _ _ _]; done |].
    destruct (bus1_peer_names_check _ _) as [r0 |]; [| discriminate].
    cbn [mbind option_bind].
    destruct (Z.ltb_spec r0 0); intros [= <- _ _ _]; [split; lia | done].
Qed.

Lemma connect_reset_state peer param r peer' param' evs :
  bus1_peer_connect_reset peer param = (r, peer', param', evs) ->
  (r < 0 /\ peer' = peer)
  \/ (r = 0 /\ bus1_active_is_new (peer_active peer) = false
      /\ exists info info',
           peer_info peer = Some info
           /\ peer' = with_info peer (Some info')).
Proof.
  unfold bus1_peer_connect_reset.
  destruct (bus1_active_is_new _);
    [intros [= <- <- _ _]; left; by split |].
  destruct (_ || _); [intros [= <- <- _ _]; left; by split |].
  destruct (peer_info peer) as [info |];
    [| intros [= <- <- _ _]; left; by split].
  destruct (bus1_peer_info_reset info) as [info' evs'].
  intros [= <- <- _ _]. right. split; [done |]. split; [done |].
  by exists info, info'.
Qed.

(** What the CONNECT ioctl can do to the peer and the domain: nothing,
    connect a NEW peer, or give a connected peer a flushed info. *)
Lemma ioctl_connect_cases e self peer domain f imported r peer' domain' evs :
  is_u64 (domain_n_names domain) ->
  bus1_peer_ioctl_connect e self peer domain f imported
  = Some (r, peer', domain', evs) ->
  (peer' = peer /\ domain' = domain)
  \/ (bus1_active_is_new (peer_active peer) = true
      /\ exists param evs0,
           bus1_peer_connect_new e self peer domain (file_uid f) param
           = Some (0, peer', domain', evs0))
  \/ (domain' = domain
      /\ bus1_active_is_new (peer_active peer) = false
      /\ bus1_active_is_deactivated (peer_active peer) = false
      /\ exists info info',
           peer_info peer = Some info
           /\ peer' = with_info peer (Some info')).
Proof.
  intros Hn. unfold bus1_peer_ioctl_connect.
  destruct imported as [r0 | param]; [intros [= _ <- <- _]; by left |].
  destruct (negb (clear_bits _ _ =? 0)); [intros [= _ <- <- _]; by left |].
  destruct (1 <? _); [intros [= _ <- <- _]; by left |].
  destruct (negb (file_cap_sys_admin f)); [intros [= _ <- <- _]; by left |].
  destruct (bus1_active_is_deactivated _) eqn:Hdeact.
  { cbn [mbind option_bind].
    destruct (_ && _); [destruct (env_put_user e 0%nat) |];
      intros [= _ <- <- _]; by left. }
  destruct (has_flag _ (Z.lor _ _)).
  { destruct (bus1_peer_connect_new e self peer domain (file_uid f) param)
      as [[[[r1 peer1] domain1] evs1] |] eqn:Hnew; [| discriminate].
    cbn [mbind option_bind]. intros Hres.
    assert (peer' = peer1 /\ domain' = domain1) as [-> ->].
    { destruct (_ && _); [destruct (env_put_user e 0%nat) |];
        by injection Hres as _ <- <- _. }
    destruct (connect_new_result _ _ _ _ _ _ _ _ _ _ Hnew) as [Hle Hzero].
    destruct (Z.eq_dec r1 0) as [-> | Hne].
    - right. left. split; [by apply Hzero |]. by exists param, evs1.
    - left. eapply connect_new_failure_unchanged; [exact Hn | exact Hnew |].
      lia. }
  destruct (has_flag _ BUS1_CONNECT_FLAG_RESET).
  { destruct (bus1_peer_connect_reset peer param)
      as [[[r1 peer1] param1] evs1] eqn:Hreset.
    cbn [mbind option_bind]. intros Hres.
    assert (peer' = peer1 /\ domain' = domain) as [-> ->].
    { destruct (_ && _); [destruct (env_put_user e 0%nat) |];
        by injection Hres as _ <- <- _. }
    destruct (connect_reset_state _ _ _ _ _ _ Hreset)
      as [[_ ->] | (_ & Hnew & Hinfo)]; [by left |].
    right. right. by repeat split. }
  destruct (has_flag _ BUS1_CONNECT_FLAG_QUERY).
  { destruct (bus1_peer_connect_query peer param)
      as [[[r1 peer1] param1] evs1] eqn:Hq.
    cbn [mbind option_bind]. intros Hres.
    destruct (connect_query_result _ _ _ _ _ _ Hq) as [-> _].
    destruct (_ && _); [destruct (env_put_user e 0%nat) |];
      injection Hres as _ <- <- _; by left. }
  cbn [mbind option_bind].
  destruct (_ && _); [destruct (env_put_user e 0%nat) |];
    intros [= _ <- <- _]; by left.
Qed.

(** One ioctl keeps the shape of the world, and touches no peer but the
    one it is called on. *)
Lemma ioctl_world_wf fuel e release self peers domain_active domain f cmd
    r peers' domain' evs :
  world_wf peers domain ->
  bus1_peer_ioctl fuel e release self peers domain_active domain f cmd
  = Some (r, peers', domain', evs) ->
  world_wf peers' domain'
  /\ (forall p, p <> self -> peers' !! p = peers !! p)
  /\ is_Some (peers' !! self).
Proof.
  intros Hwf. unfold bus1_peer_ioctl.
  destruct (peers !! self) as [peer |] eqn:Hself; [| discriminate].
  cbn [mbind option_bind].
  assert (Hsame : world_wf peers domain
                  /\ (forall p, p <> self -> peers !! p = peers !! p)
                  /\ is_Some (peers !! self))
    by (split; [done | split; [done | by eexists]]).
  assert (Hframe : forall peer1 p, p <> self ->
                     <[self := peer1]> peers !! p = peers !! p)
    by (intros; by apply lookup_insert_ne).
  assert (Hthere : forall peer1, is_Some (<[self := peer1]> peers !! self))
    by (intros; rewrite lookup_insert_eq; by eexists).
  destruct cmd as [imported | imported | arg | imported | imported
                   | imported | cmd].
  - destruct (negb _); [by intros [= _ <- <- _] |].
    destruct (bus1_peer_ioctl_connect e self peer domain f imported)
      as [[[[r1 peer1] domain1] evs1] |] eqn:Hconnect; [| discriminate].
    cbn [mbind option_bind]. intros [= _ <- <- _].
    split; [| split; [by apply Hframe | by apply Hthere]].
    pose proof Hwf as (Hindex & _).
    destruct (ioctl_connect_cases _ _ _ _ _ _ _ _ _ _
                (index_counted_u64 _ Hindex) Hconnect)
      as [[-> ->] | [(Hnew & param & evs0 & Hres)
                    | (-> & Hnew & Hdeact & info & info' & Hinfo & ->)]].
    + by apply world_wf_id.
    + by eapply world_wf_connect.
    + by eapply world_wf_info.
  - destruct (negb _); [by intros [= _ <- <- _] |].
    destruct (bus1_peer_ioctl_resolve e peers domain imported)
      as [[r1 evs1] |]; [| discriminate].
    cbn [mbind option_bind]. by intros [= _ <- <- _].
  - destruct (negb _); [by intros [= _ <- <- _] |].
    destruct (bus1_peer_teardown self peer domain)
      as [[[r1 peer1] domain1] evs1] eqn:Hdown.
    intros [= _ <- <- _].
    split; [| split; [by apply Hframe | by apply Hthere]].
    by destruct (world_wf_teardown _ _ _ _ _ _ _ _ Hwf Hself Hdown).
  - destruct (negb _); [by intros [= _ <- <- _] |].
    unfold bus1_peer_dereference.
    destruct (peer_info peer) as [info |] eqn:Hinfo; [| discriminate].
    cbn [mbind option_bind].
    destruct (bus1_peer_ioctl_slice_release release info imported)
      as [[r1 info1] evs1].
    intros [= _ <- <- _].
    split; [| split; [by apply Hframe | by apply Hthere]].
    by eapply world_wf_info.
  - destruct (negb _); [by intros [= _ <- <- _] |].
    destruct (bus1_peer_ioctl_send e imported) as [r1 evs1].
    by intros [= _ <- <- _].
  - destruct (negb _); [by intros [= _ <- <- _] |].
    unfold bus1_peer_dereference.
    destruct (peer_info peer) as [info |] eqn:Hinfo; [| discriminate].
    cbn [mbind option_bind].
    destruct (bus1_peer_ioctl_recv fuel e info imported)
      as [[[r1 info1] evs1] |]; [| discriminate].
    cbn [mbind option_bind]. intros [= _ <- <- _].
    split; [| split; [by apply Hframe | by apply Hthere]].
    by eapply world_wf_info.
  - by intros [= _ <- <- _].
Qed.

(** ** Runs of ioctls *)

Lemma ioctl_connect_total e self peer domain f imported :
  is_Some (bus1_peer_ioctl_connect e self peer domain f imported).
Proof.
  unfold bus1_peer_ioctl_connect.
  destruct imported as [r | param]; [by eexists |].
  destruct (negb _); [by eexists |].
  destruct (1 <? _); [by eexists |].
  destruct (negb _); [by eexists |].
  assert (Htail : forall (r : Z) (peer' : bus1_peer) (domain' : bus1_domain)
                         (param' : bus1_cmd_connect) (evs : list event),
    is_Some
      (if (0 <=? r)
          && has_flag (connect_flags param) BUS1_CONNECT_FLAG_QUERY
       then if env_put_user e 0%nat
            then Some (r, peer', domain',
                       evs ++ [ev_put_user (connect_pool_size param')])
            else Some (- EFAULT, peer', domain', evs)
       else Some (r, peer', domain', evs))).
  { intros. destruct (_ && _); [destruct (env_put_user e 0%nat) |];
      by eexists. }
  destruct (bus1_active_is_deactivated _); [apply Htail |].
  destruct (has_flag _ (Z.lor _ _)).
  { destruct (connect_new_total e self peer domain (file_uid f) param)
      as [[[[r1 peer1] domain1] evs1] ->].
    apply Htail. }
  destruct (has_flag _ BUS1_CONNECT_FLAG_RESET).
  { destruct (bus1_peer_connect_reset peer param)
      as [[[r1 peer1] param1] evs1].
    apply Htail. }
  destruct (has_flag _ BUS1_CONNECT_FLAG_QUERY).
  { destruct (bus1_peer_connect_query peer param)
      as [[[r1 peer1] param1] evs1].
    apply Htail. }
  apply Htail.
Qed.

(** In a well-formed world every owner in the index is a peer, so the
    walk of RESOLVE never meets a dangling owner. *)
Lemma ioctl_resolve_total e peers domain imported :
  world_wf peers domain ->
  is_Some (bus1_peer_ioctl_resolve e peers domain imported).
Proof.
  intros (_ & _ & _ & _ & Hnames & _).
  unfold bus1_peer_ioctl_resolve.
  destruct imported as [r | param]; [by eexists |].
  destruct (negb _); [by eexists |].
  destruct (negb _); [by eexists |].
  destruct (_ || _); [by eexists |].
  destruct (negb _); [by eexists |].
  assert (Hwalk : is_Some (resolve_walk peers domain param)).
  { unfold resolve_walk.
    destruct (domain_map_names domain !! _) as [owner |] eqn:Hname;
      [| by eexists].
    apply Hnames in Hname as (peer & -> & _). cbn [mbind option_bind].
    destruct (bus1_active_is_active _); by eexists. }
  assert (Hloop : is_Some (resolve_loop (env_seq_retry e) peers domain
                             param)).
  { induction (env_seq_retry e) as [| retry IH]; cbn [resolve_loop];
      destruct Hwalk as [n ->]; cbn [mbind option_bind].
    - by destruct n; eexists.
    - destruct n; [by eexists | exact IH]. }
  destruct Hloop as [n ->]. cbn [mbind option_bind].
  destruct n; [destruct (env_put_user e 0%nat) |]; by eexists.
Qed.

(** In a well-formed world an ioctl that is given one round of the RECV
    loop returns: no handler follows a null info. *)
Lemma ioctl_total fuel e release self peers domain_active domain f cmd :
  world_wf peers domain ->
  is_Some (peers !! self) ->
  is_Some (bus1_peer_ioctl (S fuel) e release self peers domain_active
             domain f cmd).
Proof.
  intros Hwf [peer Hself]. unfold bus1_peer_ioctl. rewrite Hself.
  cbn [mbind option_bind].
  pose proof Hwf as (_ & _ & _ & _ & _ & Hpeers).
  destruct (Hpeers self peer Hself) as (_ & _ & Hon & _).
  assert (Hinfo : bus1_peer_acquire peer = true -> is_Some (peer_info peer)).
  { unfold bus1_peer_acquire, bus1_active_acquire, peer_connected in *.
    destruct (peer_active peer); try discriminate. intros _.
    by destruct (Hon eq_refl). }
  destruct cmd as [imported | imported | arg | imported | imported
                   | imported | cmd].
  - destruct (negb _); [by eexists |].
    destruct (ioctl_connect_total e self peer domain f imported)
      as [[[[r1 peer1] domain1] evs1] ->].
    by eexists.
  - destruct (negb _); [by eexists |].
    destruct (ioctl_resolve_total e peers domain imported Hwf)
      as [[r1 evs1] ->].
    by eexists.
  - destruct (negb _); [by eexists |].
    destruct (bus1_peer_teardown self peer domain)
      as [[[r1 peer1] domain1] evs1].
    by eexists.
  - destruct (bus1_peer_acquire peer); [| by eexists]. cbn [negb].
    destruct (Hinfo eq_refl) as [info Hi].
    unfold bus1_peer_dereference. rewrite Hi. cbn [mbind option_bind].
    destruct (bus1_peer_ioctl_slice_release release info imported)
      as [[r1 info1] evs1].
    by eexists.
  - destruct (negb _); [by eexists |].
    destruct (bus1_peer_ioctl_send e imported) as [r1 evs1].
    by eexists.
  - destruct (bus1_peer_acquire peer); [| by eexists]. cbn [negb].
    destruct (Hinfo eq_refl) as [info Hi].
    unfold bus1_peer_dereference. rewrite Hi. cbn [mbind option_bind].
    destruct (recv_total fuel e info imported) as [[[r1 info1] evs1] ->].
    by eexists.
  - by eexists.
Qed.

(** X18: ioctls keep the domain and its peers consistent.  From a world
    in which the counters count, the peer list holds exactly the linked
    peers, the name index holds exactly the names of the peers and every
    peer has its info exactly while it is linked, every sequence of
    ioctls, each on one of the peers and granted a round of the RECV
    loop, in any order and with any outcomes of the environment, runs to
    its end (no handler follows a null info or a dangling owner), gives
    one return value per call, and ends in such a world again, with the
    same set of peers. *)
Theorem run_ioctls_sound release domain_active calls :
  forall peers domain,
    world_wf peers domain ->
    Forall (fun call => is_Some (peers !! call_self call)
                        /\ (0 < call_fuel call)%nat) calls ->
    exists rs peers' domain',
      run_ioctls release domain_active calls peers domain
      = Some (rs, peers', domain')
      /\ length rs = length calls
      /\ world_wf peers' domain'
      /\ (forall p, is_Some (peers' !! p) <-> is_Some (peers !! p)).
Proof.
  induction calls as [| call calls IH]; intros peers domain Hwf Hcalls.
  - exists [], peers, domain.
    split; [reflexivity |]. split; [reflexivity |]. by split.
  - apply Forall_cons in Hcalls as [[Hself Hfuel] Hcalls].
    cbn [run_ioctls].
    destruct (call_fuel call) as [| fuel] eqn:Hf; [lia |].
    destruct (ioctl_total fuel (call_env call) release (call_self call)
                peers domain_active domain (call_file call) (call_cmd call)
                Hwf Hself)
      as [[[[r peers1] domain1] evs1] Hstep].
    rewrite Hstep. cbn [mbind option_bind].
    destruct (ioctl_world_wf _ _ _ _ _ _ _ _ _ _ _ _ _ Hwf Hstep)
      as (Hwf1 & Hframe & Hthere).
    assert (Hdom : forall p, is_Some (peers1 !! p) <-> is_Some (peers !! p)).
    { intros p. destruct (decide (p = call_self call)) as [-> | Hne].
      - tauto.
      - by rewrite Hframe. }
    destruct (IH peers1 domain1 Hwf1) as (rs & peers2 & domain2 & Hrun
                                          & Hlen & Hwf2 & Hdom2).
    { eapply Forall_impl; [exact Hcalls |].
      intros c [Hc Hcf]. split; [by apply Hdom | exact Hcf]. }
    rewrite Hrun. cbn [mbind option_bind].
    exists (r :: rs), peers2, domain2.
    split; [reflexivity |]. split; [cbn [length]; lia |].
    split; [exact Hwf2 |]. intros p. by rewrite Hdom2.
Qed.

(** ** Peers that are not alive *)

Lemma ioctl_frame fuel e release self peers domain_active domain f cmd
    r peers' domain' evs :
  bus1_peer_ioctl fuel e release self peers domain_active domain f cmd
  = Some (r, peers', domain', evs) ->
  forall p, p <> self -> peers' !! p = peers !! p.
Proof.
  unfold bus1_peer_ioctl.
  destruct (peers !! self) as [peer |]; [| discriminate].
  cbn [mbind option_bind]. intros Hres p Hp.
  assert (Hframe : forall peer1, <[self := peer1]> peers !! p = peers !! p)
    by (intros; by apply lookup_insert_ne).
  destruct cmd as [imported | imported | arg | imported | imported
                   | imported | cmd].
  - destruct (negb _); [by injection Hres as _ <- _ _ |].
    destruct (bus1_peer_ioctl_connect _ _ _ _ _ _)
      as [[[[r1 peer1] domain1] evs1] |]; [| discriminate].
    injection Hres as _ <- _ _. apply Hframe.
  - destruct (negb _); [by injection Hres as _ <- _ _ |].
    destruct (bus1_peer_ioctl_resolve _ _ _ _) as [[r1 evs1] |];
      [| discriminate].
    by injection Hres as _ <- _ _.
  - destruct (negb _); [by injection Hres as _ <- _ _ |].
    destruct (bus1_peer_teardown _ _ _) as [[[r1 peer1] domain1] evs1].
    injection Hres as _ <- _ _. apply Hframe.
  - destruct (negb _); [by injection Hres as _ <- _ _ |].
    destruct (bus1_peer_dereference peer) as [info |]; [| discriminate].
    cbn [mbind option_bind] in Hres.
    destruct (bus1_peer_ioctl_slice_release _ _ _) as [[r1 info1] evs1].
    injection Hres as _ <- _ _. apply Hframe.
  - destruct (negb _); [by injection Hres as _ <- _ _ |].
    destruct (bus1_peer_ioctl_send _ _) as [r1 evs1].
    by injection Hres as _ <- _ _.
  - destruct (negb _); [by injection Hres as _ <- _ _ |].
    destruct (bus1_peer_dereference peer) as [info |]; [| discriminate].
    cbn [mbind option_bind] in Hres.
    destruct (bus1_peer_ioctl_recv _ _ _ _) as [[[r1 info1] evs1] |];
      [| discriminate].
    injection Hres as _ <- _ _. apply Hframe.
  - by injection Hres as _ <- _ _.
Qed.

Lemma teardown_dead self peer domain :
  peer_active peer = ACTIVE_DEAD ->
  bus1_peer_teardown self peer domain = (- ESHUTDOWN, peer, domain, []).
Proof.
  intros Hdead.
  unfold bus1_peer_teardown, teardown_locked, teardown_deactivate,
    peer_active_cleanup, bus1_active_cleanup.
  cbn [peer_active peer_info peer_names peer_link_domain].
  rewrite Hdead. cbn. rewrite <- Hdead. by rewrite peer_eta.
Qed.

Lemma ioctl_connect_deactivated e self peer domain f imported
    r peer' domain' evs :
  bus1_active_is_deactivated (peer_active peer) = true ->
  bus1_peer_ioctl_connect e self peer domain f imported
  = Some (r, peer', domain', evs) ->
  peer' = peer /\ domain' = domain /\ evs = []
  /\ match imported with
     | inl r0 => r = r0
     | inr _ => r = - EINVAL \/ r = - EPERM \/ r = - ESHUTDOWN
     end.
Proof.
  intros Hdeact. unfold bus1_peer_ioctl_connect.
  destruct imported as [r0 | param]; [by intros [= <- <- <- <-] |].
  destruct (negb (clear_bits _ _ =? 0));
    [intros [= <- <- <- <-]; repeat split; auto |].
  destruct (1 <? _); [intros [= <- <- <- <-]; repeat split; auto |].
  destruct (negb (file_cap_sys_admin f));
    [intros [= <- <- <- <-]; repeat split; auto |].
  rewrite Hdeact. cbn. intros [= <- <- <- <-]. repeat split; auto.
Qed.

(** What a torn-down peer answers: the peer and the domain stay as they
    are, and a command that needs the peer fails with -ESHUTDOWN. *)
Lemma ioctl_dead fuel e release self peers domain_active domain f cmd peer
    r peers' domain' evs :
  peers !! self = Some peer ->
  peer_active peer = ACTIVE_DEAD ->
  bus1_peer_ioctl fuel e release self peers domain_active domain f cmd
  = Some (r, peers', domain', evs) ->
  peers' = peers /\ domain' = domain
  /\ (cmd_needs_peer cmd = true -> r = - ESHUTDOWN /\ evs = []).
Proof.
  intros Hself Hdead. unfold bus1_peer_ioctl. rewrite Hself.
  cbn [mbind option_bind].
  unfold bus1_peer_acquire, bus1_active_acquire. rewrite Hdead.
  destruct cmd as [imported | imported | arg | imported | imported
                   | imported | cmd]; cbn [cmd_needs_peer].
  - destruct (negb _); [by intros [= _ <- <- _] |].
    destruct (bus1_peer_ioctl_connect _ _ _ _ _ _)
      as [[[[r1 peer1] domain1] evs1] |] eqn:Hconnect; [| discriminate].
    cbn [mbind option_bind]. intros [= _ <- <- _].
    destruct (ioctl_connect_deactivated e self peer domain f imported
                r1 peer1 domain1 evs1) as (-> & -> & _);
      [by rewrite Hdead | exact Hconnect |].
    by rewrite insert_id.
  - destruct (negb _); [by intros [= _ <- <- _] |].
    destruct (bus1_peer_ioctl_resolve _ _ _ _) as [[r1 evs1] |];
      [| discriminate].
    by intros [= _ <- <- _].
  - destruct (Z.eqb_spec arg 0) as [-> | Harg]; cbn [negb].
    + rewrite (teardown_dead self peer domain Hdead).
      intros [= <- <- <- <-]. by rewrite insert_id.
    + intros [= _ <- <- _]. by repeat split.
  - cbn. by intros [= <- <- <- <-].
  - cbn. by intros [= <- <- <- <-].
  - cbn. by intros [= <- <- <- <-].
  - by intros [= _ <- <- _].
Qed.

(** X19: teardown is final.  Once a peer is DEAD, no sequence of ioctls,
    on this peer or on others, changes the peer object, and every
    SLICE_RELEASE, SEND, RECV and DISCONNECT (with a zero argument) that
    is issued on it in the sequence returns -ESHUTDOWN. *)
Theorem dead_peer_is_final release domain_active self peer calls :
  forall peers domain rs peers' domain',
    peers !! self = Some peer ->
    peer_active peer = ACTIVE_DEAD ->
    run_ioctls release domain_active calls peers domain
    = Some (rs, peers', domain') ->
    peers' !! self = Some peer
    /\ forall i call r,
         calls !! i = Some call -> rs !! i = Some r ->
         call_self call = self ->
         cmd_needs_peer (call_cmd call) = true ->
         r = - ESHUTDOWN.
Proof.
  induction calls as [| call calls IH];
    intros peers domain rs peers' domain' Hself Hdead.
  - intros [= <- <- <-]. split; [exact Hself |]. intros i call r Hi.
    by rewrite lookup_nil in Hi.
  - cbn [run_ioctls].
    destruct (bus1_peer_ioctl _ _ _ _ _ _ _ _ _)
      as [[[[r1 peers1] domain1] evs1] |] eqn:Hstep; [| discriminate].
    cbn [mbind option_bind].
    destruct (run_ioctls release domain_active calls peers1 domain1)
      as [[[rs2 peers2] domain2] |] eqn:Hrun; [| discriminate].
    cbn [mbind option_bind]. intros [= <- <- <-].
    assert (Hself1 : peers1 !! self = Some peer).
    { destruct (decide (call_self call = self)) as [Hc | Hc].
      - rewrite Hc in Hstep.
        by destruct (ioctl_dead _ _ _ _ _ _ _ _ _ _ _ _ _ _ Hself Hdead
                       Hstep) as (-> & _).
      - rewrite (ioctl_frame _ _ _ _ _ _ _ _ _ _ _ _ _ Hstep self)
          by congruence.
        exact Hself. }
    destruct (IH _ _ _ _ _ Hself1 Hdead Hrun) as [Hfinal Hrs].
    split; [exact Hfinal |].
    intros [| i] c r; cbn [lookup list_lookup].
    + intros [= <-] [= <-] Hc Hcmd. rewrite Hc in Hstep.
      destruct (ioctl_dead _ _ _ _ _ _ _ _ _ _ _ _ _ _ Hself Hdead Hstep)
        as (_ & _ & Hr).
      by destruct (Hr Hcmd).
    + apply Hrs.
Qed.

(** X17: the gates of [bus1_peer_ioctl].  CONNECT and RESOLVE on a
    domain that is not active, and SLICE_RELEASE, SEND and RECV on a peer
    that is not active (never connected, or torn down), return -ESHUTDOWN;
    DISCONNECT with a non-zero argument returns -EINVAL; an unknown
    command returns -ENOTTY.  In all these cases no handler runs: peers
    and domain are unchanged and the trace is empty. *)
Theorem ioctl_gates fuel e release self peers domain_active domain f cmd
    peer :
  peers !! self = Some peer ->
  (cmd_pins_domain cmd = true -> domain_active <> ACTIVE_ACTIVE ->
   bus1_peer_ioctl fuel e release self peers domain_active domain f cmd
   = Some (- ESHUTDOWN, peers, domain, []))
  /\ (cmd_pins_peer cmd = true -> peer_active peer <> ACTIVE_ACTIVE ->
      bus1_peer_ioctl fuel e release self peers domain_active domain f cmd
      = Some (- ESHUTDOWN, peers, domain, []))
  /\ (forall arg, cmd = BUS1_CMD_DISCONNECT arg -> arg <> 0 ->
      bus1_peer_ioctl fuel e release self peers domain_active domain f cmd
      = Some (- EINVAL, peers, domain, []))
  /\ (forall word, cmd = BUS1_CMD_OTHER word ->
      bus1_peer_ioctl fuel e release self peers domain_active domain f cmd
      = Some (- ENOTTY, peers, domain, [])).
Proof.
  intros Hself. unfold bus1_peer_ioctl. rewrite Hself.
  cbn [mbind option_bind].
  unfold bus1_domain_acquire, bus1_peer_acquire, bus1_active_acquire.
  split; [| split; [| split]].
  - intros Hcmd Hdown.
    destruct cmd; try discriminate; by destruct domain_active.
  - intros Hcmd Hdown.
    destruct cmd; try discriminate; by destruct (peer_active peer).
  - intros arg -> Harg. by destruct (Z.eqb_spec arg 0).
  - by intros word ->.
Qed.

(** ** CONNECT, RESOLVE and DISCONNECT together *)

Lemma resolve_request_found e peers domain name owner peer :
  name_ok name ->
  Z.of_nat (length name) < BUS1_NAME_MAX_SIZE ->
  domain_map_names domain !! name = Some owner ->
  peers !! owner = Some peer ->
  bus1_peer_ioctl_resolve e peers domain (resolve_request name)
  = Some (if env_put_user e 0%nat then (0, [ev_put_user 0])
          else (- EFAULT, [])).
Proof.
  intros [Hne Hnz] Hlen Hname Hpeer.
  apply (resolve_found e peers domain _ owner peer); cbn [resolve_flags
    resolve_id resolve_name]; try reflexivity.
  - rewrite length_app. cbn [length].
    destruct name; [done |]. cbn [length] in *. lia.
  - unfold last_byte_is_nul. by rewrite last_snoc.
  - rewrite (strnlen_name name [] Hnz), take_app_length. exact Hname.
  - exact Hpeer.
Qed.

Lemma resolve_request_absent e peers domain name :
  name_ok name ->
  Z.of_nat (length name) < BUS1_NAME_MAX_SIZE ->
  domain_map_names domain !! name = None ->
  bus1_peer_ioctl_resolve e peers domain (resolve_request name)
  = Some (- ENXIO, []).
Proof.
  intros [Hne Hnz] Hlen Hname.
  unfold resolve_request, bus1_peer_ioctl_resolve.
  cbn [resolve_flags resolve_id resolve_name Z.eqb negb].
  rewrite length_app. cbn [length].
  destruct (Z.ltb_spec (Z.of_nat (length name + 1)) 2) as [Hshort | _].
  { destruct name; [done |]. cbn [length] in *. lia. }
  destruct (Z.ltb_spec BUS1_NAME_MAX_SIZE (Z.of_nat (length name + 1)));
    [lia |].
  cbn [orb]. unfold last_byte_is_nul. rewrite last_snoc. cbn [is_nul negb].
  change (Ascii.eqb Ascii.zero Ascii.zero) with true. cbn [negb].
  assert (Hwalk : resolve_walk peers domain
                    (mk_cmd_resolve 0 0 (name ++ [Ascii.zero]))
                  = Some None).
  { unfold resolve_walk. cbn [resolve_name].
    rewrite (strnlen_name name [] Hnz), take_app_length.
    unfold cstring in *. by rewrite Hname. }
  assert (Hloop : resolve_loop (env_seq_retry e) peers domain
                    (mk_cmd_resolve 0 0 (name ++ [Ascii.zero]))
                  = Some None).
  { induction (env_seq_retry e) as [| retry IH]; cbn [resolve_loop];
      rewrite Hwalk; cbn [mbind option_bind]; [reflexivity | exact IH]. }
  by rewrite Hloop.
Qed.

(** X9: in a consistent world RESOLVE answers for exactly the names the
    peers hold: for a well-formed name held by some peer it copies out id
    0 and returns 0 (or -EFAULT if the copy-out faults), and for a
    well-formed name that no peer holds it returns -ENXIO with an empty
    trace. *)
Theorem resolve_finds_names e peers domain name :
  world_wf peers domain ->
  name_ok name ->
  Z.of_nat (length name) < BUS1_NAME_MAX_SIZE ->
  ((exists owner peer,
      peers !! owner = Some peer /\ name ∈ peer_name_list peer) ->
   bus1_peer_ioctl_resolve e peers domain (resolve_request name)
   = Some (if env_put_user e 0%nat then (0, [ev_put_user 0])
           else (- EFAULT, [])))
  /\ ((forall owner peer,
         peers !! owner = Some peer -> name ∉ peer_name_list peer) ->
      bus1_peer_ioctl_resolve e peers domain (resolve_request name)
      = Some (- ENXIO, [])).
Proof.
  intros (_ & _ & _ & _ & Hnames & _) Hok Hlen. split.
  - intros (owner & peer & Hpeer & Hin).
    apply (resolve_request_found e peers domain name owner peer);
      auto.
    apply Hnames. by exists peer.
  - intros Hnone. apply resolve_request_absent; auto.
    destruct (domain_map_names domain !! name) as [owner |] eqn:Hname;
      [| reflexivity].
    apply Hnames in Hname as (peer & Hpeer & Hin).
    by destruct (Hnone owner peer Hpeer).
Qed.

(** The CONNECT ioctl of a privileged caller on a NEW peer, with PEER or
    MONITOR: [bus1_peer_connect_new], and the write-back if QUERY is
    set. *)
Lemma ioctl_connect_new_dispatch e self peer domain f param :
  file_cap_sys_admin f = true ->
  In (connect_flags param)
     [BUS1_CONNECT_FLAG_PEER; BUS1_CONNECT_FLAG_MONITOR;
      Z.lor BUS1_CONNECT_FLAG_PEER BUS1_CONNECT_FLAG_QUERY;
      Z.lor BUS1_CONNECT_FLAG_MONITOR BUS1_CONNECT_FLAG_QUERY] ->
  bus1_active_is_new (peer_active peer) = true ->
  bus1_peer_ioctl_connect e self peer domain f (inr param)
  = '(r, peer', domain', evs) ←
      bus1_peer_connect_new e self peer domain (file_uid f) param;
    if (0 <=? r) && has_flag (connect_flags param) BUS1_CONNECT_FLAG_QUERY
    then
      if env_put_user e 0%nat
      then Some (r, peer', domain',
                 evs ++ [ev_put_user (connect_pool_size param)])
      else Some (- EFAULT, peer', domain', evs)
    else Some (r, peer', domain', evs).
Proof.
  intros Hcap Hflags Hnew.
  assert (Hdeact : bus1_active_is_deactivated (peer_active peer) = false)
    by (by destruct (peer_active peer)).
  unfold bus1_peer_ioctl_connect. rewrite Hcap, Hdeact. cbn [negb].
  cbn [In] in Hflags.
  destruct (bus1_peer_connect_new e self peer domain (file_uid f) param)
    as [[[[r peer'] domain'] evs] |].
  - destruct Hflags as [H | [H | [H | [H | []]]]]; rewrite <- H;
      reflexivity.
  - destruct Hflags as [H | [H | [H | [H | []]]]]; rewrite <- H;
      reflexivity.
Qed.

(** X4: the CONNECT ioctl of a privileged caller on a NEW peer, with
    PEER or MONITOR and optionally QUERY, a valid pool size and
    well-formed, distinct, free names, when no allocation fails: the peer
    becomes ACTIVE and owns an info with the requested pool and the
    caller's uid, its name list is the requested list in reverse order,
    every name is linked and indexed under the peer, other index entries
    are untouched, the peer heads the peer list and both counters are
    incremented.  Without QUERY the call returns 0 with an empty trace;
    with QUERY it copies out the pool size, and if that copy faults it
    returns -EFAULT although the peer stays connected. *)
Theorem ioctl_connect_new e self peer domain f flags pool names :
  file_cap_sys_admin f = true ->
  In flags [BUS1_CONNECT_FLAG_PEER; BUS1_CONNECT_FLAG_MONITOR;
            Z.lor BUS1_CONNECT_FLAG_PEER BUS1_CONNECT_FLAG_QUERY;
            Z.lor BUS1_CONNECT_FLAG_MONITOR BUS1_CONNECT_FLAG_QUERY] ->
  bus1_active_is_new (peer_active peer) = true ->
  peer_info peer = None ->
  connect_prepares e pool names ->
  NoDup names ->
  names_free names domain ->
  is_u64 (domain_n_names domain) ->
  exists peer' domain',
    bus1_peer_ioctl_connect e self peer domain f
      (inr (mk_cmd_connect flags pool (nulstr names)))
    = Some (if has_flag flags BUS1_CONNECT_FLAG_QUERY
               && negb (env_put_user e 0%nat)
            then - EFAULT else 0,
            peer', domain',
            if has_flag flags BUS1_CONNECT_FLAG_QUERY
               && env_put_user e 0%nat
            then [ev_put_user pool] else [])
    /\ peer_active peer' = ACTIVE_ACTIVE
    /\ peer_info peer' = Some (info_connected (file_uid f) pool)
    /\ peer_name_list peer' = reverse names
    /\ Forall (fun pn => pn_linked pn = true /\ pn_peer pn = self)
              (peer_names peer')
    /\ peer_link_domain peer' = true
    /\ (forall k, k ∈ names -> domain_map_names domain' !! k = Some self)
    /\ (forall k, k ∉ names ->
          domain_map_names domain' !! k = domain_map_names domain !! k)
    /\ domain_n_names domain'
       = wrap64 (domain_n_names domain + Z.of_nat (length names))
    /\ domain_list_peers domain' = self :: domain_list_peers domain
    /\ domain_n_peers domain' = wrap64 (domain_n_peers domain + 1).
Proof.
  intros Hcap Hflags Hnew Hinfo Hprep Hdistinct Hfree Hn.
  destruct (connect_new_linked e self peer domain (file_uid f) flags pool
              names Hnew Hinfo Hprep Hdistinct Hfree Hn)
    as (peer' & domain' & Heq & Hstate).
  exists peer', domain'. split; [| exact Hstate].
  rewrite ioctl_connect_new_dispatch by assumption.
  rewrite Heq. cbn [mbind option_bind connect_flags connect_pool_size
                    Z.leb Z.compare andb].
  by destruct (has_flag flags BUS1_CONNECT_FLAG_QUERY),
    (env_put_user e 0%nat).
Qed.

(** X20: connect/disconnect round trip through the ioctl entry point.
    On an active domain, CONNECT of a NEW peer with distinct free names,
    RESOLVE of one of the names, DISCONNECT and the same RESOLVE again
    return 0, 0, 0 and -ENXIO; the peer ends DEAD and the domain (index,
    peer list and both counters) is exactly the domain the CONNECT
    found. *)
Theorem connect_resolve_disconnect fuel e release self peers peer domain f
    flags pool names name :
  peers !! self = Some peer ->
  bus1_active_is_new (peer_active peer) = true ->
  peer_info peer = None ->
  file_cap_sys_admin f = true ->
  In flags [BUS1_CONNECT_FLAG_PEER; BUS1_CONNECT_FLAG_MONITOR] ->
  connect_prepares e pool names ->
  NoDup names ->
  names_free names domain ->
  is_u64 (domain_n_names domain) ->
  is_u64 (domain_n_peers domain) ->
  self ∉ domain_list_peers domain ->
  name ∈ names ->
  env_put_user e 0%nat = true ->
  run_ioctls release ACTIVE_ACTIVE
    [mk_ioctl_call self f
       (BUS1_CMD_CONNECT (inr (mk_cmd_connect flags pool (nulstr names))))
       e fuel;
     mk_ioctl_call self f (BUS1_CMD_RESOLVE (resolve_request name)) e fuel;
     mk_ioctl_call self f (BUS1_CMD_DISCONNECT 0) e fuel;
     mk_ioctl_call self f (BUS1_CMD_RESOLVE (resolve_request name)) e fuel]
    peers domain
  = Some ([0; 0; 0; - ENXIO],
          <[self := mk_peer ACTIVE_DEAD None [] false]> peers, domain).
Proof.
  intros Hself Hnew Hinfo Hcap Hflags Hprep Hdistinct Hfree Hn Hnp Hnotin
    Hname Hput.
  destruct (connect_disconnect_round_trip e self peer domain (file_uid f)
              flags pool names Hnew Hinfo Hprep Hdistinct Hfree Hn Hnp
              Hnotin)
    as (peer1 & domain1 & evs & Hconnect & Hdown).
  destruct (connect_new_linked e self peer domain (file_uid f) flags pool
              names Hnew Hinfo Hprep Hdistinct Hfree Hn)
    as (peer2 & domain2 & Heq & _ & _ & _ & _ & _ & Hmine & _).
  rewrite Hconnect in Heq. injection Heq as <- <-.
  assert (Hok : name_ok name
                /\ Z.of_nat (length name) < BUS1_NAME_MAX_SIZE).
  { destruct Hprep as (_ & _ & _ & _ & _ & Hok & Henv).
    rewrite Forall_forall in Hok, Henv.
    split; [by apply Hok |]. destruct (Henv name Hname). lia. }
  destruct Hok as [Hok Hlen].
  assert (Hquery : has_flag flags BUS1_CONNECT_FLAG_QUERY = false).
  { cbn [In] in Hflags. by destruct Hflags as [<- | [<- | []]]. }
  assert (H1 : bus1_peer_ioctl fuel e release self peers ACTIVE_ACTIVE
                 domain f
                 (BUS1_CMD_CONNECT
                    (inr (mk_cmd_connect flags pool (nulstr names))))
               = Some (0, <[self := peer1]> peers, domain1, [])).
  { unfold bus1_peer_ioctl. rewrite Hself. cbn [mbind option_bind].
    cbn [bus1_domain_acquire bus1_active_acquire bus1_active_is_active negb].
    rewrite ioctl_connect_new_dispatch;
      [| exact Hcap
       | cbn [connect_flags In] in *; tauto
       | exact Hnew].
    rewrite Hconnect.
    cbn [mbind option_bind connect_flags Z.leb Z.compare andb].
    by rewrite Hquery. }
  assert (H2 : bus1_peer_ioctl fuel e release self (<[self := peer1]> peers)
                 ACTIVE_ACTIVE domain1 f
                 (BUS1_CMD_RESOLVE (resolve_request name))
               = Some (0, <[self := peer1]> peers, domain1,
                       [ev_put_user 0])).
  { unfold bus1_peer_ioctl. rewrite lookup_insert_eq.
    cbn [mbind option_bind].
    cbn [bus1_domain_acquire bus1_active_acquire bus1_active_is_active negb].
    rewrite (resolve_request_found e _ domain1 name self peer1 Hok Hlen
               (Hmine name Hname) (lookup_insert_eq _ _ _)).
    by rewrite Hput. }
  assert (H3 : bus1_peer_ioctl fuel e release self (<[self := peer1]> peers)
                 ACTIVE_ACTIVE domain1 f (BUS1_CMD_DISCONNECT 0)
               = Some (0, <[self := mk_peer ACTIVE_DEAD None [] false]> peers,
                       domain, evs)).
  { unfold bus1_peer_ioctl. rewrite lookup_insert_eq.
    cbn [mbind option_bind Z.eqb negb]. rewrite Hdown.
    by rewrite insert_insert_eq. }
  assert (H4 : bus1_peer_ioctl fuel e release self
                 (<[self := mk_peer ACTIVE_DEAD None [] false]> peers)
                 ACTIVE_ACTIVE domain f
                 (BUS1_CMD_RESOLVE (resolve_request name))
               = Some (- ENXIO,
                       <[self := mk_peer ACTIVE_DEAD None [] false]> peers,
                       domain, [])).
  { unfold bus1_peer_ioctl. rewrite lookup_insert_eq.
    cbn [mbind option_bind].
    cbn [bus1_domain_acquire bus1_active_acquire bus1_active_is_active negb].
    rewrite (resolve_request_absent e _ domain name Hok Hlen);
      [reflexivity |].
    unfold names_free in Hfree. rewrite Forall_forall in Hfree.
    by apply Hfree. }
  cbn [run_ioctls call_self call_file call_cmd call_env call_fuel].
  rewrite H1. cbn [mbind option_bind].
  rewrite H2. cbn [mbind option_bind].
  rewrite H3. cbn [mbind option_bind].
  rewrite H4. reflexivity.
Qed.

(** X6: a CONNECT ioctl that fails leaves the peer and the domain as
    they were, with one exception: the request carried QUERY, the
    operation itself succeeded and the copy-out of the pool size faulted;
    then the call returns -EFAULT and keeps what it did. *)
Theorem ioctl_connect_failure e self peer domain f imported
    r peer' domain' evs :
  is_u64 (domain_n_names domain) ->
  bus1_peer_ioctl_connect e self peer domain f imported
  = Some (r, peer', domain', evs) ->
  r < 0 ->
  (peer' = peer /\ domain' = domain)
  \/ (r = - EFAULT
      /\ env_put_user e 0%nat = false
      /\ exists param,
           imported = inr param
           /\ has_flag (connect_flags param) BUS1_CONNECT_FLAG_QUERY = true).
Proof.
  intros Hn Hres Hr. unfold bus1_peer_ioctl_connect in Hres.
  destruct imported as [r0 | param]; [injection Hres as _ <- <- _; by left |].
  destruct (negb (clear_bits _ _ =? 0));
    [injection Hres as _ <- <- _; by left |].
  destruct (1 <? _); [injection Hres as _ <- <- _; by left |].
  destruct (negb (file_cap_sys_admin f));
    [injection Hres as _ <- <- _; by left |].
  assert (Htail : forall r1 peer1 domain1 param1 evs1,
    (r1 < 0 -> peer1 = peer /\ domain1 = domain) ->
    (if (0 <=? r1)
        && has_flag (connect_flags param) BUS1_CONNECT_FLAG_QUERY
     then if env_put_user e 0%nat
          then Some (r1, peer1, domain1,
                     evs1 ++ [ev_put_user (connect_pool_size param1)])
          else Some (- EFAULT, peer1, domain1, evs1)
     else Some (r1, peer1, domain1, evs1))
    = Some (r, peer', domain', evs) ->
    (peer' = peer /\ domain' = domain)
    \/ (r = - EFAULT
        /\ env_put_user e 0%nat = false
        /\ exists param0,
             inr param = @inr Z _ param0
             /\ has_flag (connect_flags param0) BUS1_CONNECT_FLAG_QUERY
                = true)).
  { intros r1 peer1 domain1 param1 evs1 Hfail.
    destruct (Z.leb_spec 0 r1) as [Hpos | Hneg]; cbn [andb].
    - destruct (has_flag _ BUS1_CONNECT_FLAG_QUERY) eqn:Hq.
      + destruct (env_put_user e 0%nat) eqn:Hput.
        * intros [= <- _ _ _]. lia.
        * intros [= <- _ _ _]. right. split; [done |]. split; [done |].
          by exists param.
      + intros [= <- _ _ _]. lia.
    - intros [= _ <- <- _]. left. by apply Hfail. }
  destruct (bus1_active_is_deactivated _).
  { cbn [mbind option_bind] in Hres. by apply Htail in Hres. }
  destruct (has_flag _ (Z.lor _ _)).
  { destruct (bus1_peer_connect_new e self peer domain (file_uid f) param)
      as [[[[r1 peer1] domain1] evs1] |] eqn:Hnew; [| discriminate].
    cbn [mbind option_bind] in Hres. apply Htail in Hres; [done |].
    intros Hneg. by eapply connect_new_failure_unchanged. }
  destruct (has_flag _ BUS1_CONNECT_FLAG_RESET).
  { destruct (bus1_peer_connect_reset peer param)
      as [[[r1 peer1] param1] evs1] eqn:Hreset.
    cbn [mbind option_bind] in Hres. apply Htail in Hres; [done |].
    intros Hneg.
    destruct (connect_reset_state _ _ _ _ _ _ Hreset) as [[_ ->] | [-> _]];
      [done | lia]. }
  destruct (has_flag _ BUS1_CONNECT_FLAG_QUERY).
  { destruct (bus1_peer_connect_query peer param)
      as [[[r1 peer1] param1] evs1] eqn:Hq.
    cbn [mbind option_bind] in Hres. apply Htail in Hres; [done |].
    intros _. by destruct (connect_query_result _ _ _ _ _ _ Hq) as [-> _]. }
  cbn [mbind option_bind] in Hres. by apply Htail in Hres.
Qed.

(** ** CONNECT on a connected peer *)

(** X3: CONNECT(PEER or MONITOR) on a peer that is connected already, for
    name lists without repetition, changes nothing and has two outcomes:
    -EISCONN exactly when the pool size is the one of the peer and the
    names are the names of the peer, in any order, and -EREMCHG
    otherwise. *)
Theorem reconnect_outcomes e self peer domain uid flags pool names info :
  bus1_active_is_new (peer_active peer) = false ->
  peer_info peer = Some info ->
  NoDup (peer_name_list peer) ->
  NoDup names ->
  Forall name_ok names ->
  exists r,
    bus1_peer_connect_new e self peer domain uid
      (mk_cmd_connect flags pool (nulstr names))
    = Some (r, peer, domain, [])
    /\ (r = - EISCONN \/ r = - EREMCHG)
    /\ (r = - EISCONN
        <-> pool = pool_size (info_pool info)
            /\ same_names names (peer_name_list peer)).
Proof.
  intros Hnew Hinfo Hpeer Hnames Hok.
  destruct (reconnect_spec e self peer domain uid flags pool names info
              Hnew Hinfo Hpeer Hnames Hok) as [Hyes Hno].
  assert (Hdec : (pool = pool_size (info_pool info)
                  /\ same_names names (peer_name_list peer))
                 \/ ~ (pool = pool_size (info_pool info)
                       /\ same_names names (peer_name_list peer))).
  { destruct (decide (pool = pool_size (info_pool info))) as [Hp | Hp];
      [| right; tauto].
    destruct (decide (names ⊆ peer_name_list peer)) as [H1 | H1];
      [| right; intros [_ Hs]; apply H1; intros x Hx; by apply Hs].
    destruct (decide (peer_name_list peer ⊆ names)) as [H2 | H2];
      [| right; intros [_ Hs]; apply H2; intros x Hx; by apply Hs].
    left. split; [exact Hp |]. intros x. split; [apply H1 | apply H2]. }
  destruct Hdec as [Hsame | Hdiff].
  - exists (- EISCONN). split; [by apply Hyes |]. split; [by left | done].
  - exists (- EREMCHG). split; [by apply Hno |]. split; [by right |].
    split; [discriminate | intros H; by destruct Hdiff].
Qed.

(** ** The properties at work *)

Lemma connect_prepares_ab : connect_prepares env_ok 4096 [name_a; name_b].
Proof.
  unfold connect_prepares, name_ok. simpl.
  repeat split; try discriminate; try lia; repeat constructor;
    try discriminate; simpl; lia.
Qed.

Lemma connect_new_success_inv_witness :
  peer_info bus1_peer_new = None
  /\ 4096 <> 0
  /\ 4096 mod PAGE_SIZE = 0
  /\ exists names,
       nulstr [name_a; name_b] = nulstr names
       /\ Forall name_ok names
       /\ Forall (fun name => Z.of_nat (length name) < BUS1_NAME_MAX_SIZE)
                 names
       /\ NoDup names
       /\ names_free names domain_empty.
Proof.
  apply (connect_new_success_inv env_ok 7%nat bus1_peer_new domain_empty
           1000 (mk_cmd_connect BUS1_CONNECT_FLAG_PEER 4096
                   (nulstr [name_a; name_b]))
           peer_ab domain_ab []).
  - reflexivity.
  - vm_compute. reflexivity.
Defined.

Lemma connect_new_failure_restores_witness :
  - EISNAM <= 0
  /\ (- EISNAM < 0 ->
      bus1_peer_new = bus1_peer_new /\ domain_ab = domain_ab).
Proof.
  apply (connect_new_failure_restores env_ok 8%nat bus1_peer_new domain_ab
           1000 (mk_cmd_connect BUS1_CONNECT_FLAG_PEER 4096
                   (nulstr [name_a]))
           (- EISNAM) bus1_peer_new domain_ab
           [ev_name_free name_a; ev_user_release 1000;
            ev_mutex_lock; ev_queue_post_flush; ev_pool_flush;
            ev_mutex_unlock;
            ev_queue_destroy; ev_pool_destroy; ev_quota_destroy;
            ev_kfree_info]).
  - unfold is_u64, u64_max. simpl. lia.
  - vm_compute. reflexivity.
Defined.

Lemma reconnect_outcomes_witness :
  exists r,
    bus1_peer_connect_new env_ok 7%nat peer_ab domain_ab 1000
      (mk_cmd_connect BUS1_CONNECT_FLAG_PEER 4096
                      (nulstr [name_a; name_b]))
    = Some (r, peer_ab, domain_ab, [])
    /\ (r = - EISCONN \/ r = - EREMCHG)
    /\ (r = - EISCONN
        <-> 4096 = pool_size (info_pool info_4096)
            /\ same_names [name_a; name_b] (peer_name_list peer_ab)).
Proof.
  apply (reconnect_outcomes env_ok 7%nat peer_ab domain_ab 1000
           BUS1_CONNECT_FLAG_PEER 4096 [name_a; name_b] info_4096).
  - reflexivity.
  - reflexivity.
  - compute_done.
  - compute_done.
  - repeat constructor; discriminate.
Defined.

Lemma ioctl_connect_new_witness :
  exists peer' domain',
    bus1_peer_ioctl_connect env_ok 7%nat bus1_peer_new domain_empty
      file_root
      (inr (mk_cmd_connect
              (Z.lor BUS1_CONNECT_FLAG_PEER BUS1_CONNECT_FLAG_QUERY) 4096
              (nulstr [name_a; name_b])))
    = Some (0, peer', domain', [ev_put_user 4096])
    /\ peer_active peer' = ACTIVE_ACTIVE
    /\ peer_name_list peer' = [name_b; name_a]
    /\ domain_map_names domain' !! name_a = Some 7%nat
    /\ domain_list_peers domain' = [7%nat].
Proof.
  destruct (ioctl_connect_new env_ok 7%nat bus1_peer_new domain_empty
              file_root
              (Z.lor BUS1_CONNECT_FLAG_PEER BUS1_CONNECT_FLAG_QUERY) 4096
              [name_a; name_b])
    as (peer' & domain' & Heq & Hactive & _ & Hnames & _ & _ & Hmine & _ & _
        & Hlist & _).
  - reflexivity.
  - simpl. tauto.
  - reflexivity.
  - reflexivity.
  - exact connect_prepares_ab.
  - compute_done.
  - repeat constructor.
  - unfold is_u64, u64_max. simpl. lia.
  - exists peer', domain'. split; [exact Heq |]. split; [exact Hactive |].
    split; [exact Hnames |]. split; [| exact Hlist].
    apply Hmine. compute_done.
Defined.

Lemma connect_query_reports_pool_witness :
  exists info' evs0,
    peer_info peer_ab = Some info'
    /\ [ev_put_user 4096]
       = evs0 ++ [ev_put_user (pool_size (info_pool info'))].
Proof.
  apply (connect_query_reports_pool env_ok 7%nat peer_ab domain_ab file_root
           (mk_cmd_connect BUS1_CONNECT_FLAG_QUERY 0 [])
           0 peer_ab domain_ab [ev_put_user 4096]).
  - vm_compute. reflexivity.
  - lia.
  - reflexivity.
Defined.

Lemma ioctl_connect_failure_witness :
  (bus1_peer_new = bus1_peer_new /\ domain_ab = domain_ab)
  \/ (- EISNAM = - EFAULT
      /\ env_put_user env_ok 0%nat = false
      /\ exists param,
           @inr Z _ (mk_cmd_connect BUS1_CONNECT_FLAG_PEER 4096
                                    (nulstr [name_a]))
           = inr param
           /\ has_flag (connect_flags param) BUS1_CONNECT_FLAG_QUERY = true).
Proof.
  apply (ioctl_connect_failure env_ok 8%nat bus1_peer_new domain_ab
           file_root
           (inr (mk_cmd_connect BUS1_CONNECT_FLAG_PEER 4096
                                (nulstr [name_a])))
           (- EISNAM) bus1_peer_new domain_ab
           [ev_name_free name_a; ev_user_release 1000;
            ev_mutex_lock; ev_queue_post_flush; ev_pool_flush;
            ev_mutex_unlock;
            ev_queue_destroy; ev_pool_destroy; ev_quota_destroy;
            ev_kfree_info]).
  - unfold is_u64, u64_max. simpl. lia.
  - vm_compute. reflexivity.
  - vm_compute. reflexivity.
Defined.

Lemma teardown_removes_names_witness :
  exists peer' domain' evs,
    bus1_peer_teardown 7%nat peer_ab domain_ab = (0, peer', domain', evs)
    /\ peer_active peer' = ACTIVE_DEAD
    /\ peer_info peer' = None
    /\ peer_names peer' = []
    /\ (forall k, k ∈ peer_name_list peer_ab ->
          domain_map_names domain' !! k = None)
    /\ (forall k, k ∉ peer_name_list peer_ab ->
          domain_map_names domain' !! k = domain_map_names domain_ab !! k)
    /\ (7%nat ∉ domain_list_peers domain')
    /\ (forall p, p <> 7%nat ->
          (p ∈ domain_list_peers domain') <-> (p ∈ domain_list_peers domain_ab)).
Proof.
  apply (teardown_removes_names 7%nat peer_ab domain_ab info_4096).
  - discriminate.
  - reflexivity.
  - repeat constructor.
Defined.

Lemma resolve_success_sound_witness :
  resolve_flags (mk_cmd_resolve 0 0 (nulstr [name_a])) = 0
  /\ resolve_id (mk_cmd_resolve 0 0 (nulstr [name_a])) = 0
  /\ 2 <= Z.of_nat (length (nulstr [name_a])) <= BUS1_NAME_MAX_SIZE
  /\ last_byte_is_nul (nulstr [name_a]) = true
  /\ (exists owner,
        domain_map_names domain_ab
          !! take (strnlen (nulstr [name_a])) (nulstr [name_a])
        = Some owner
        /\ is_Some (peers_ab !! owner))
  /\ env_put_user env_ok 0%nat = true
  /\ [ev_put_user 0] = [ev_put_user 0].
Proof.
  apply (resolve_success_sound env_ok peers_ab domain_ab
           (mk_cmd_resolve 0 0 (nulstr [name_a])) [ev_put_user 0]).
  reflexivity.
Defined.

Lemma world_wf_new : world_wf peers_new domain_empty.
Proof.
  refine (conj _ (conj _ (conj _ (conj _ (conj _ _)))));
    [reflexivity | reflexivity | constructor
     | intros p; split | intros name owner; split |].
  - intros Hp. by apply not_elem_of_nil in Hp.
  - intros (peer & Hpeer & Hc). unfold peers_new in Hpeer.
    apply lookup_singleton_Some in Hpeer as [_ <-]. discriminate.
  - intros Hn. cbn in Hn. by rewrite lookup_empty in Hn.
  - intros (peer & Hpeer & Hin). unfold peers_new in Hpeer.
    apply lookup_singleton_Some in Hpeer as [_ <-].
    by apply not_elem_of_nil in Hin.
  - apply map_Forall_singleton.
    split; [constructor |]. split; [constructor |]. split; [done |].
    by intros _.
Qed.

Lemma ioctl_connect_ab :
  bus1_peer_ioctl 1 env_ok release_ok 7%nat peers_new ACTIVE_ACTIVE
    domain_empty file_root (BUS1_CMD_CONNECT connect_ab_request)
  = Some (0, peers_ab, domain_ab, []).
Proof. vm_compute. reflexivity. Qed.

Lemma world_wf_ab : world_wf peers_ab domain_ab.
Proof.
  exact (proj1 (ioctl_world_wf _ _ _ _ _ _ _ _ _ _ _ _ _ world_wf_new
                  ioctl_connect_ab)).
Qed.

Lemma resolve_finds_names_witness :
  bus1_peer_ioctl_resolve env_ok peers_ab domain_ab (resolve_request name_a)
  = Some (0, [ev_put_user 0]).
Proof.
  refine (proj1 (resolve_finds_names env_ok peers_ab domain_ab name_a
                   world_wf_ab _ _) _).
  - split; [discriminate | repeat constructor].
  - reflexivity.
  - exists 7%nat, peer_ab. split; [reflexivity | compute_done].
Defined.

Lemma send_prepares_to_5 e :
  env_long_bits e = 64 -> env_transaction_new e = 0 ->
  send_prepares e send_to_5.
Proof.
  intros Hbits Hnew.
  unfold send_prepares, cast_unsigned_long, BUS1_VEC_MAX, BUS1_FD_MAX.
  rewrite Hbits, Hnew. simpl. repeat split; try reflexivity; lia.
Qed.

Lemma send_transaction_lifetime_witness :
  - EFAULT <= 0
  /\ (send_prepares env_fault_at_2 send_to_5 ->
      exists evs0,
        [ev_transaction_instantiate_for_id 0;
         ev_transaction_instantiate_for_id 1;
         ev_transaction_free false]
        = evs0 ++ [ev_transaction_free
                     (negb (env_transaction_in_buf env_fault_at_2))]
        /\ count_events is_transaction_free evs0 = O)
  /\ (~ send_prepares env_fault_at_2 send_to_5 ->
      - EFAULT < 0
      /\ [ev_transaction_instantiate_for_id 0;
          ev_transaction_instantiate_for_id 1;
          ev_transaction_free false] = [])
  /\ (count_events is_transaction_commit
        [ev_transaction_instantiate_for_id 0;
         ev_transaction_instantiate_for_id 1;
         ev_transaction_free false] <> O ->
      - EFAULT = 0).
Proof.
  apply (send_transaction_lifetime env_fault_at_2 send_to_5).
  reflexivity.
Defined.

Lemma send_multicast_success_witness :
  bus1_peer_ioctl_send env_ok (inr send_to_5)
  = (0, map ev_transaction_instantiate_for_id [0; 1; 2; 3; 4]
        ++ [ev_transaction_commit;
            ev_transaction_free (negb (env_transaction_in_buf env_ok))]).
Proof.
  apply (send_multicast_success env_ok send_to_5 [0; 1; 2; 3; 4]).
  - apply send_prepares_to_5; reflexivity.
  - reflexivity.
  - discriminate.
  - intros k id Hk.
    destruct k as [| [| [| [| [| k]]]]]; simpl in Hk; try discriminate;
      injection Hk as <-; split; try reflexivity; simpl; lia.
Defined.

Lemma send_multicast_refused_witness :
  bus1_peer_ioctl_send env_refuse_at_2 (inr send_to_5)
  = (- ENOMEM,
     map ev_transaction_instantiate_for_id ([0; 1] ++ [2])
     ++ [ev_transaction_free (negb (env_transaction_in_buf env_refuse_at_2))]).
Proof.
  apply (send_multicast_refused env_refuse_at_2 send_to_5 [0; 1] 2
           (- ENOMEM)).
  - apply send_prepares_to_5; reflexivity.
  - discriminate.
  - simpl. lia.
  - intros k id Hk.
    destruct k as [| [| k]]; simpl in Hk; try discriminate;
      injection Hk as <-; split; try reflexivity; simpl; lia.
  - reflexivity.
  - reflexivity.
  - unfold ENOMEM. lia.
Defined.

Lemma peek_node_1 : bus1_queue_peek (info_queue info_queued) = Some node_1.
Proof. reflexivity. Qed.

Lemma recv_precleared_0 : recv_precleared (recv_cleared 0).
Proof. repeat split. Qed.

Lemma recv_dequeues_front_witness :
  bus1_peer_ioctl_recv 1 env_ok info_queued (inr (recv_cleared 0))
  = Some (0, info_dequeued info_queued message_1,
          [ev_get_unused_fd 3; ev_get_unused_fd 4;
           ev_mutex_lock; ev_queue_remove 11%nat; ev_pool_publish 128;
           ev_mutex_unlock;
           ev_pool_write 128 [3; 4];
           ev_mutex_lock; ev_message_deallocate 11%nat; ev_mutex_unlock;
           ev_fd_install 4 22; ev_fd_install 3 21;
           ev_message_free 11%nat;
           ev_put_user 128; ev_put_user 64; ev_put_user 0; ev_put_user 2]).
Proof.
  apply (recv_dequeues_front 0 env_ok info_queued (recv_cleared 0) node_1).
  - reflexivity.
  - exact recv_precleared_0.
  - exact peek_node_1.
  - simpl. lia.
  - reflexivity.
  - intros _. split; [reflexivity | simpl; lia].
  - intros k Hk. simpl. lia.
  - intros i. reflexivity.
Defined.

Lemma recv_balance_witness :
  count_events is_get_unused_fd
    [ev_get_unused_fd 3; ev_put_unused_fd 3]
  = (count_events is_put_unused_fd [ev_get_unused_fd 3; ev_put_unused_fd 3]
     + count_events is_fd_install [ev_get_unused_fd 3; ev_put_unused_fd 3])%nat
  /\ count_events is_queue_remove [ev_get_unused_fd 3; ev_put_unused_fd 3]
     = count_events is_message_free [ev_get_unused_fd 3; ev_put_unused_fd 3]
  /\ ((count_events is_queue_remove [ev_get_unused_fd 3; ev_put_unused_fd 3]
       = O
       /\ info_queue info_queued = info_queue info_queued)
      \/ (count_events is_queue_remove
            [ev_get_unused_fd 3; ev_put_unused_fd 3] = 1%nat
          /\ info_queue info_queued
             = bus1_queue_remove (info_queue info_queued))).
Proof.
  apply (recv_balance 1 env_fd_exhausted info_queued (inr (recv_cleared 0))
           (- ENOMEM) info_queued).
  vm_compute. reflexivity.
Defined.

Lemma recv_fd_exhaustion_witness :
  bus1_peer_ioctl_recv 1 env_fd_exhausted info_queued (inr (recv_cleared 0))
  = Some (- ENOMEM, info_queued,
          [ev_get_unused_fd 3; ev_put_unused_fd 3]).
Proof.
  refine (proj2 (recv_fd_exhaustion 0 env_fd_exhausted info_queued
                   (recv_cleared 0) node_1 1%nat _ _ _ _) _ _ _).
  - reflexivity.
  - exact recv_precleared_0.
  - exact peek_node_1.
  - simpl. lia.
  - reflexivity.
  - simpl. unfold ENOMEM. lia.
  - intros j Hj. destruct j as [| j]; [simpl; lia | lia].
Defined.

Lemma recv_pool_write_failure_witness :
  bus1_peer_ioctl_recv 1 env_pool_write_fails info_queued
    (inr (recv_cleared 0))
  = Some (- ENOMEM, info_dequeued info_queued message_1,
          [ev_get_unused_fd 3; ev_get_unused_fd 4;
           ev_mutex_lock; ev_queue_remove 11%nat; ev_pool_publish 128;
           ev_mutex_unlock;
           ev_pool_write 128 [3; 4];
           ev_mutex_lock; ev_message_deallocate 11%nat; ev_mutex_unlock;
           ev_message_free 11%nat;
           ev_put_unused_fd 4; ev_put_unused_fd 3]).
Proof.
  apply (recv_pool_write_failure 0 env_pool_write_fails info_queued
           (recv_cleared 0) node_1).
  - reflexivity.
  - exact recv_precleared_0.
  - exact peek_node_1.
  - simpl. lia.
  - reflexivity.
  - intros k Hk. simpl. lia.
  - simpl. unfold ENOMEM. lia.
Defined.

Lemma ioctl_gates_witness :
  bus1_peer_ioctl 1 env_ok release_ok 7%nat peers_new ACTIVE_ACTIVE
    domain_empty file_root (BUS1_CMD_SEND (inr send_to_5))
  = Some (- ESHUTDOWN, peers_new, domain_empty, []).
Proof.
  refine (proj1 (proj2 (ioctl_gates 1 env_ok release_ok 7%nat peers_new
                          ACTIVE_ACTIVE domain_empty file_root
                          (BUS1_CMD_SEND (inr send_to_5)) bus1_peer_new _))
            _ _).
  - reflexivity.
  - reflexivity.
  - discriminate.
Defined.

(** Peer 7 connects, receives from its empty queue, disconnects and
    tries to send. *)
Lemma run_ioctls_sound_witness :
  exists rs peers' domain',
    run_ioctls release_ok ACTIVE_ACTIVE
      [mk_ioctl_call 7%nat file_root (BUS1_CMD_CONNECT connect_ab_request)
                     env_ok 1;
       mk_ioctl_call 7%nat file_root (BUS1_CMD_RECV (inr (recv_cleared 0)))
                     env_ok 1;
       mk_ioctl_call 7%nat file_root (BUS1_CMD_DISCONNECT 0) env_ok 1;
       mk_ioctl_call 7%nat file_root (BUS1_CMD_SEND (inr send_to_5))
                     env_ok 1]
      peers_new domain_empty
    = Some (rs, peers', domain')
    /\ length rs = 4%nat
    /\ world_wf peers' domain'
    /\ (forall p, is_Some (peers' !! p) <-> is_Some (peers_new !! p)).
Proof.
  apply (run_ioctls_sound release_ok ACTIVE_ACTIVE
           [mk_ioctl_call 7%nat file_root
              (BUS1_CMD_CONNECT connect_ab_request) env_ok 1;
            mk_ioctl_call 7%nat file_root
              (BUS1_CMD_RECV (inr (recv_cleared 0))) env_ok 1;
            mk_ioctl_call 7%nat file_root (BUS1_CMD_DISCONNECT 0) env_ok 1;
            mk_ioctl_call 7%nat file_root
              (BUS1_CMD_SEND (inr send_to_5)) env_ok 1]
           peers_new domain_empty world_wf_new).
  repeat constructor; by eexists.
Defined.

Lemma dead_peer_is_final_witness :
  peers_dead !! 7%nat = Some peer_dead
  /\ forall i call r,
       [mk_ioctl_call 7%nat file_root (BUS1_CMD_SEND (inr send_to_5))
                      env_ok 1;
        mk_ioctl_call 7%nat file_root (BUS1_CMD_CONNECT connect_ab_request)
                      env_ok 1;
        mk_ioctl_call 7%nat file_root (BUS1_CMD_DISCONNECT 0) env_ok 1]
       !! i = Some call ->
       [- ESHUTDOWN; - ESHUTDOWN; - ESHUTDOWN] !! i = Some r ->
       call_self call = 7%nat ->
       cmd_needs_peer (call_cmd call) = true ->
       r = - ESHUTDOWN.
Proof.
  apply (dead_peer_is_final release_ok ACTIVE_ACTIVE 7%nat peer_dead
           [mk_ioctl_call 7%nat file_root (BUS1_CMD_SEND (inr send_to_5))
                          env_ok 1;
            mk_ioctl_call 7%nat file_root
              (BUS1_CMD_CONNECT connect_ab_request) env_ok 1;
            mk_ioctl_call 7%nat file_root (BUS1_CMD_DISCONNECT 0) env_ok 1]
           peers_dead domain_empty
           [- ESHUTDOWN; - ESHUTDOWN; - ESHUTDOWN] peers_dead domain_empty).
  - reflexivity.
  - reflexivity.
  - vm_compute. reflexivity.
Defined.

Lemma connect_resolve_disconnect_witness :
  run_ioctls release_ok ACTIVE_ACTIVE
    [mk_ioctl_call 7%nat file_root
       (BUS1_CMD_CONNECT
          (inr (mk_cmd_connect BUS1_CONNECT_FLAG_PEER 4096
                               (nulstr [name_a; name_b]))))
       env_ok 1;
     mk_ioctl_call 7%nat file_root (BUS1_CMD_RESOLVE (resolve_request name_a))
                   env_ok 1;
     mk_ioctl_call 7%nat file_root (BUS1_CMD_DISCONNECT 0) env_ok 1;
     mk_ioctl_call 7%nat file_root (BUS1_CMD_RESOLVE (resolve_request name_a))
                   env_ok 1]
    peers_new domain_empty
  = Some ([0; 0; 0; - ENXIO],
          <[7%nat := mk_peer ACTIVE_DEAD None [] false]> peers_new,
          domain_empty).
Proof.
  apply (connect_resolve_disconnect 1 env_ok release_ok 7%nat peers_new
           bus1_peer_new domain_empty file_root BUS1_CONNECT_FLAG_PEER 4096
           [name_a; name_b] name_a).
  - reflexivity.
  - reflexivity.
  - reflexivity.
  - reflexivity.
  - simpl. tauto.
  - exact connect_prepares_ab.
  - compute_done.
  - repeat constructor.
  - unfold is_u64, u64_max. simpl. lia.
  - unfold is_u64, u64_max. simpl. lia.
  - compute_done.
  - compute_done.
  - reflexivity.
Defined.

(** ** Destruction after teardown *)

(** X21: in a consistent world a peer can be destroyed without tripping an
    assertion exactly when it is not linked into the domain; in
    particular [bus1_peer_free] is silent on the peer that
    [bus1_peer_teardown] leaves, whatever the teardown returned, and it
    warns on a peer that is still connected. *)
Theorem free_after_teardown peers domain self peer :
  world_wf peers domain ->
  peers !! self = Some peer ->
  (bus1_peer_free (Some peer) = [] <-> peer_connected peer = false)
  /\ forall r peer' domain' evs,
       bus1_peer_teardown self peer domain = (r, peer', domain', evs) ->
       bus1_peer_free (Some peer') = [].
Proof.
  intros Hwf Hself.
  pose proof Hwf as (_ & _ & _ & _ & _ & Hpeers).
  destruct (Hpeers self peer Hself) as (_ & _ & Hon & Hoff).
  assert (Hfree : bus1_peer_free (Some peer) = []
                  <-> peer_connected peer = false).
  { unfold bus1_peer_free, bus1_active_destroy, peer_connected in *.
    destruct (peer_active peer).
    - destruct (Hoff eq_refl) as (-> & -> & ->). by split.
    - destruct (Hon eq_refl) as [_ ->]. by split.
    - destruct (Hon eq_refl) as [_ ->]. by split.
    - destruct (Hoff eq_refl) as (-> & -> & ->). by split. }
  split; [exact Hfree |].
  intros r peer' domain' evs Hdown.
  destruct (world_wf_teardown _ _ _ _ _ _ _ _ Hwf Hself Hdown)
    as (_ & Hdead & Hlive).
  assert (Hcases : peer_active peer = ACTIVE_DEAD
                   \/ peer_active peer <> ACTIVE_DEAD)
    by (destruct (peer_active peer); auto; right; discriminate).
  destruct Hcases as [Hd | Hl].
  - destruct (Hdead Hd) as (_ & -> & _). apply Hfree.
    unfold peer_connected. by rewrite Hd.
  - by destruct (Hlive Hl) as (_ & ->).
Qed.

Lemma free_after_teardown_witness :
  (bus1_peer_free (Some peer_ab) = [] <-> peer_connected peer_ab = false)
  /\ forall r peer' domain' evs,
       bus1_peer_teardown 7%nat peer_ab domain_ab = (r, peer', domain', evs) ->
       bus1_peer_free (Some peer') = [].
Proof.
  apply (free_after_teardown peers_ab domain_ab 7%nat peer_ab).
  - exact world_wf_ab.
  - reflexivity.
Defined.
